(** * expose-tunnel: relay and agent, embedded from the TypeScript sources

    The development follows the layout of the repository:
    - [Js]        the few JavaScript string primitives the code calls;
    - [Regex]     a matcher for the regular expression literal of
                  [utils/subdomain.ts];
    - [Subdomain] [utils/subdomain.ts];
    - [Auth]      [server/auth.ts];
    - [Base64]    the Buffer codec both peers call on frame bodies;
    - [Http]      [types.ts] and the objects of Node's [http] and of [ws];
    - [Relay]     [server/relay-server.ts];
    - [Agent]     [client/tunnel-client.ts];
    - [Entry]     the entry script of the relay, [server/index.ts];
    - [Cli]       [cli.ts];
    - [Spec]      predicates in the words of the specification;
    - [Aux]       definitions the statements and proofs share.
    The second half holds the proofs, one module of lemmas per part and
    the theorems about the specification after them; further properties
    of the code, numbered X1 onwards, close the file.

    Modelling choices.  A JavaScript string is a [string], that is a
    sequence of code units below 256; a byte buffer is a
    [list Byte.byte]; a [Map] or a header object is a [gmap]; a number
    that counts or names a status is an [N].  An object shared by
    reference ([ws], [res], a timer) is a handle into a store of the
    state.  Frames travel as records: [JSON.stringify] and [JSON.parse]
    on the two ends of a channel are taken to be inverse.  Time is not
    modelled: a timer that fires is an event of the machine.
    [res.writeHead] throws on a status outside 100..999 and on a header
    name or value it refuses; its check on a [trailer] header depends on
    the framing Node chooses for the response, which is not modelled, and
    the statements on delivery leave such a header out.  A
    listener runs to its end before the next event is handled, and
    [wss.handleUpgrade] calls back at once.  What goes through the
    [URL] constructor (the target of a proxied request) and the numbers
    the entry script reads with [parseInt] are left out. *)

From Stdlib Require Import ZArith NArith Ascii String DecimalString DecimalN.
From Stdlib.Strings Require Import Byte.
From stdpp Require Import base decidable option list gmap strings.

(** ** JavaScript string primitives *)

Module Js.

(** [!s] for a string: only the empty string is falsy. *)
Definition truthy (s : string) : bool :=
  match s with EmptyString => false | String _ _ => true end.

(** [!v] for [v : string | undefined]. *)
Definition truthy_opt (v : option string) : bool :=
  match v with Some s => truthy s | None => false end.

(** [v || d] for [v : string | undefined]. *)
Definition or_else (v : option string) (d : string) : string :=
  match v with
  | Some s => if truthy s then s else d
  | None => d
  end.

(** [s.split(sep)[0]]: the characters before the first separator. *)
Fixpoint split_head (sep : ascii) (s : string) : string :=
  match s with
  | EmptyString => EmptyString
  | String c s' =>
      if Ascii.eqb c sep then EmptyString else String c (split_head sep s')
  end.

(** [s.endsWith(suffix)]. *)
Definition endsWith (s suffix : string) : bool :=
  let n := String.length s in
  let m := String.length suffix in
  if (m <=? n)%nat then String.eqb (substring (n - m) m s) suffix else false.

(** [s.slice(0, e)]: a negative [e] counts from the end, and both
    bounds are clamped to the string. *)
Definition slice0 (s : string) (e : Z) : string :=
  let n := Z.of_nat (String.length s) in
  let e' := if (e <? 0)%Z then Z.max (n + e) 0 else Z.min e n in
  substring 0 (Z.to_nat e') s.

(** [s.toLowerCase()], on code units below 256. *)
Definition lower (c : ascii) : ascii :=
  let n := N_of_ascii c in
  if ((65 <=? n) && (n <=? 90)
      || (192 <=? n) && (n <=? 222) && negb (n =? 215))%N
  then ascii_of_N (n + 32) else c.

Fixpoint toLowerCase (s : string) : string :=
  match s with
  | EmptyString => EmptyString
  | String c s' => String (lower c) (toLowerCase s')
  end.

(** [parts.join(sep)]. *)
Fixpoint join (sep : string) (parts : list string) : string :=
  match parts with
  | [] => EmptyString
  | [p] => p
  | p :: rest => p +:+ sep +:+ join sep rest
  end.

End Js.

(** ** Regular expressions

    [RegExp.prototype.test] for a pattern anchored by [^] and [$] (no
    flags) accepts exactly the strings the body of the pattern matches
    as a whole.  The matcher works by derivatives. *)

Module Regex.

Inductive regex : Type :=
| RNone : regex                          (* matches nothing *)
| REps : regex                           (* matches the empty string *)
| RClass : (ascii -> bool) -> regex      (* a bracket expression *)
| RSeq : regex -> regex -> regex
| RAlt : regex -> regex -> regex
| RStar : regex -> regex.

(** [r?] *)
Definition ROpt (r : regex) : regex := RAlt r REps.

Fixpoint nullable (r : regex) : bool :=
  match r with
  | RNone => false
  | REps => true
  | RClass _ => false
  | RSeq r1 r2 => nullable r1 && nullable r2
  | RAlt r1 r2 => nullable r1 || nullable r2
  | RStar _ => true
  end.

Fixpoint deriv (a : ascii) (r : regex) : regex :=
  match r with
  | RNone => RNone
  | REps => RNone
  | RClass p => if p a then REps else RNone
  | RSeq r1 r2 =>
      if nullable r1
      then RAlt (RSeq (deriv a r1) r2) (deriv a r2)
      else RSeq (deriv a r1) r2
  | RAlt r1 r2 => RAlt (deriv a r1) (deriv a r2)
  | RStar r1 => RSeq (deriv a r1) (RStar r1)
  end.

Fixpoint matches (r : regex) (s : list ascii) : bool :=
  match s with
  | [] => nullable r
  | a :: s' => matches (deriv a r) s'
  end.

(** [/^r$/.test(s)] *)
Definition test (r : regex) (s : string) : bool :=
  matches r (list_ascii_of_string s).

(** The language of a regular expression, as a relation. *)
Inductive lang : regex -> list ascii -> Prop :=
| lang_eps : lang REps []
| lang_class p a : p a = true -> lang (RClass p) [a]
| lang_seq r1 r2 s1 s2 : lang r1 s1 -> lang r2 s2 -> lang (RSeq r1 r2) (s1 ++ s2)
| lang_alt_l r1 r2 s : lang r1 s -> lang (RAlt r1 r2) s
| lang_alt_r r1 r2 s : lang r2 s -> lang (RAlt r1 r2) s
| lang_star_nil r : lang (RStar r) []
| lang_star_cons r a s1 s2 :
    lang r (a :: s1) -> lang (RStar r) s2 -> lang (RStar r) (a :: s1 ++ s2).

End Regex.

(** ** utils/subdomain.ts *)

Module Subdomain.

Definition CHARS : string := "abcdefghijklmnopqrstuvwxyz0123456789".

(** [bytes[i] % CHARS.length] and the character of [CHARS] there;
    an index outside a string reads [undefined], which [+=] appends
    as the text "undefined". *)
Definition pick (bytes : list byte) (i : nat) : string :=
  match bytes !! i with
  | Some b =>
      match String.get (N.to_nat (Byte.to_N b mod N.of_nat (String.length CHARS))) CHARS with
      | Some c => String c EmptyString
      | None => "undefined"
      end
  | None => "undefined"
  end.

(** [generateSubdomain], given the buffer [crypto.randomBytes(8)]
    returned. *)
Definition generateSubdomain (bytes : list byte) : string :=
  fold_left (fun result i => result +:+ pick bytes i) (seq 0 8) EmptyString.

Definition is_lower (c : ascii) : bool :=
  let n := N_of_ascii c in (97 <=? n)%N && (n <=? 122)%N.

Definition is_digit (c : ascii) : bool :=
  let n := N_of_ascii c in (48 <=? n)%N && (n <=? 57)%N.

(** [[a-z0-9]] *)
Definition alnum (c : ascii) : bool := is_lower c || is_digit c.

(** [[a-z0-9-]] *)
Definition alnum_hyphen (c : ascii) : bool := alnum c || Ascii.eqb c "-"%char.

(** The body of [/^[a-z0-9]([a-z0-9-]*[a-z0-9])?$/]. *)
Definition SUBDOMAIN_RE : Regex.regex :=
  Regex.RSeq (Regex.RClass alnum)
    (Regex.ROpt (Regex.RSeq (Regex.RStar (Regex.RClass alnum_hyphen))
                            (Regex.RClass alnum))).

Definition isValidSubdomain (subdomain : string) : bool :=
  if (String.length subdomain <? 3)%nat || (63 <? String.length subdomain)%nat
  then false
  else Regex.test SUBDOMAIN_RE subdomain.

End Subdomain.

(** ** server/auth.ts *)

Module Auth.

(** [validKeys.includes(key)] *)
Definition includes (validKeys : list string) (key : string) : bool :=
  existsb (String.eqb key) validKeys.

Definition validateApiKey (key : option string) (validKeys : list string) : bool :=
  match key with
  | None => false
  | Some k =>
      if negb (Js.truthy k) || (length validKeys =? 0)%nat then false
      else includes validKeys k
  end.

End Auth.

(** ** Buffer and base64

    [buf.toString('base64')] and [Buffer.from(text, 'base64')], the two
    library calls that carry a body inside a frame.  [decode] is the
    decoder of padded Base64 text: it is exact on the text [encode]
    produces, which is all the agent of this repository sends.  On other
    text Node is more lenient (it skips characters outside the alphabet
    and accepts missing padding); the relay therefore takes the bytes of
    [decode] only for a text that [encode] gives back, see
    [Http.end_base64]. *)

Module Base64.

Definition ALPHABET : string :=
  "ABCDEFGHIJKLMNOPQRSTUVWXYZabcdefghijklmnopqrstuvwxyz0123456789+/".

Definition PAD : ascii := "="%char.

Definition sextet_char (n : N) : ascii :=
  default PAD (String.get (N.to_nat n) ALPHABET).

Fixpoint index_from (i : N) (c : ascii) (s : string) : option N :=
  match s with
  | EmptyString => None
  | String d s' => if Ascii.eqb c d then Some i else index_from (N.succ i) c s'
  end.

Definition char_sextet (c : ascii) : option N := index_from 0 c ALPHABET.

Definition byte_of (n : N) : byte := default x00 (Byte.of_N n).

Fixpoint encode (bs : list byte) : string :=
  match bs with
  | [] => EmptyString
  | [a] =>
      let x := Byte.to_N a in
      String (sextet_char (x / 4))
        (String (sextet_char ((x mod 4) * 16))
           (String PAD (String PAD EmptyString)))
  | [a; b] =>
      let x := Byte.to_N a in
      let y := Byte.to_N b in
      String (sextet_char (x / 4))
        (String (sextet_char ((x mod 4) * 16 + y / 16))
           (String (sextet_char ((y mod 16) * 4))
              (String PAD EmptyString)))
  | a :: b :: c :: rest =>
      let x := Byte.to_N a in
      let y := Byte.to_N b in
      let z := Byte.to_N c in
      String (sextet_char (x / 4))
        (String (sextet_char ((x mod 4) * 16 + y / 16))
           (String (sextet_char ((y mod 16) * 4 + z / 64))
              (String (sextet_char (z mod 64)) (encode rest))))
  end%N.

(** Decoding stops at the first group that is not four alphabet
    characters, after the bytes a padded group still holds. *)
Fixpoint decode (s : string) : list byte :=
  match s with
  | String c1 (String c2 (String c3 (String c4 rest))) =>
      match char_sextet c1, char_sextet c2 with
      | Some s1, Some s2 =>
          let b1 := byte_of (s1 * 4 + s2 / 16) in
          match char_sextet c3 with
          | Some s3 =>
              let b2 := byte_of ((s2 mod 16) * 16 + s3 / 4) in
              match char_sextet c4 with
              | Some s4 =>
                  let b3 := byte_of ((s3 mod 4) * 64 + s4) in
                  b1 :: b2 :: b3 :: decode rest
              | None => [b1; b2]
              end
          | None => [b1]
          end
      | _, _ => []
      end
  | _ => []
  end%N.

End Base64.

(** ** types.ts and the HTTP objects of Node *)

Module Http.

(** A value of [http.IncomingHttpHeaders]: [string | string[]]. *)
Inductive HeaderValue : Type :=
| HStr (s : string)
| HArr (l : list string).

(** The loop both peers run over [Object.entries(headers)]:
    [if (value) out[key] = Array.isArray(value) ? value.join(', ') : value].
    An empty string is falsy; an array is always truthy. *)
Definition flatten (v : HeaderValue) : option string :=
  match v with
  | HStr s => if Js.truthy s then Some s else None
  | HArr l => Some (Js.join ", " l)
  end.

Definition flatten_headers (h : gmap string HeaderValue) : gmap string string :=
  omap flatten h.

(** The argument of a [JSON.stringify] call: every object literal the
    code serialises is flat, with string and number fields. *)
Inductive JsonValue : Type :=
| JStr (s : string)
| JNum (n : N).

Definition json : Type := list (string * JsonValue).

(** What [res.end] is given. *)
Inductive Body : Type :=
| BodyEmpty                      (* [res.end()] *)
| BodyText (s : string)          (* [res.end('...')] *)
| BodyJson (j : json)            (* [res.end(JSON.stringify(j))] *)
| BodyBuffer (b : list byte)     (* [res.end(buffer)] *)
| BodyBase64 (text : string).    (* [res.end(Buffer.from(text, 'base64'))] *)

(** [res.end(Buffer.from(text, 'base64'))]: the bytes, when [text] is
    the Base64 text of a byte sequence.  On any other text the decoder
    of Node is lenient in ways that are not modelled, and the call is
    recorded as it stands. *)
Definition end_base64 (text : string) : Body :=
  let bytes := Base64.decode text in
  if String.eqb (Base64.encode bytes) text then BodyBuffer bytes else BodyBase64 text.

(** One [res.writeHead(status, headers); res.end(body)]. *)
Record HttpReply : Type := mkReply {
  status : N;
  headers : gmap string string;
  body : Body;
}.

(** *** What [res.writeHead] refuses *)

(** [statusCode |= 0]: the number modulo 2^32, read as a signed integer
    of 32 bits. *)
Definition to_int32 (n : N) : Z :=
  let m := (n mod 2 ^ 32)%N in
  if (m <? 2 ^ 31)%N then Z.of_N m else (Z.of_N m - 2 ^ 32)%Z.

(** [statusCode < 100 || statusCode > 999] throws
    [ERR_HTTP_INVALID_STATUS_CODE]. *)
Definition valid_status (status : N) : bool :=
  ((100 <=? to_int32 status) && (to_int32 status <=? 999))%Z.

(** The characters of the regular expression [tokenRegExp] of Node,
    [[\^_`a-zA-Z\-0-9!#$%&'*+.|~]]. *)
Definition token_char (c : ascii) : bool :=
  let n := N_of_ascii c in
  ((97 <=? n) && (n <=? 122) || (65 <=? n) && (n <=? 90) || (48 <=? n) && (n <=? 57)
   || bool_decide (n ∈ [94; 95; 96; 45; 33; 35; 36; 37; 38; 39; 42; 43; 46; 124; 126]))%N.

(** [checkIsHttpToken]: the name matches [/^[...]+$/]. *)
Definition checkIsHttpToken (name : string) : bool :=
  Js.truthy name && forallb token_char (list_ascii_of_string name).

(** [checkInvalidHeaderChar]: the value holds a character outside
    [[\t\x20-\x7e\x80-\xff]]. *)
Definition checkInvalidHeaderChar (value : string) : bool :=
  existsb
    (fun c => let n := N_of_ascii c in
              negb ((n =? 9) || (32 <=? n) && (n <=? 126) || (128 <=? n))%N)
    (list_ascii_of_string value).

(** [validateHeaderName] and [validateHeaderValue] let the header
    through. *)
Definition valid_header (name value : string) : bool :=
  checkIsHttpToken name && negb (checkInvalidHeaderChar value).

Definition valid_headers (headers : gmap string string) : bool :=
  bool_decide (map_Forall (fun name value => valid_header name value = true) headers).

(** [res.writeHead(status, headers)] returns, for a response nothing
    was written to. *)
Definition writeHead_accepts (status : N) (headers : gmap string string) : bool :=
  valid_status status && valid_headers headers.

(** An [http.ServerResponse]: what was written to it so far. *)
Record ServerResponse : Type := mkServerResponse {
  writableEnded : bool;
  replies : list HttpReply;
}.

Definition fresh_response : ServerResponse := mkServerResponse false [].

Record TunnelRequest : Type := mkTunnelRequest {
  rq_id : string;
  rq_method : string;
  rq_path : string;
  rq_headers : gmap string string;
  rq_body : option string;
}.

Record TunnelResponse : Type := mkTunnelResponse {
  rs_id : string;
  rs_status : N;
  rs_headers : gmap string string;
  rs_body : option string;
}.

Inductive WSMessage : Type :=
| TunnelAssigned (subdomain url : string)
| TunnelRequestMsg (request : TunnelRequest)
| TunnelResponseMsg (response : TunnelResponse)
| TunnelErrorMsg (message : string)
| Ping
| Pong.

Inductive ReadyState : Type := CONNECTING | OPEN | CLOSING | CLOSED.

(** A [ws] socket object: its state and the frames sent on it. *)
Record WebSocket : Type := mkWebSocket {
  readyState : ReadyState;
  outbox : list WSMessage;
}.

Definition is_open (w : WebSocket) : bool :=
  match readyState w with OPEN => true | _ => false end.

(** [ws.send(JSON.stringify(m))]: a socket that is not open drops the
    frame. *)
Definition ws_send (m : WSMessage) (w : WebSocket) : WebSocket :=
  if is_open w then mkWebSocket (readyState w) (outbox w ++ [m]) else w.

(** [if (ws.readyState === WebSocket.OPEN) ws.close()] starts the
    closing handshake. *)
Definition ws_close_if_open (w : WebSocket) : WebSocket :=
  if is_open w then mkWebSocket CLOSING (outbox w) else w.

(** [ws.close()]: a no-op on a socket that is closing or closed. *)
Definition ws_close (w : WebSocket) : WebSocket :=
  match readyState w with
  | CLOSING | CLOSED => w
  | _ => mkWebSocket CLOSING (outbox w)
  end.

(** An [http.IncomingMessage] as [handleHttpRequest] reads it. *)
Record IncomingMessage : Type := mkIncomingMessage {
  req_method : option string;
  req_url : option string;
  req_headers : gmap string HeaderValue;
}.

(** [req.headers.host] *)
Definition req_host (req : IncomingMessage) : option string :=
  match req_headers req !! "host" with
  | Some (HStr h) => Some h
  | _ => None
  end.

End Http.

(** ** server/relay-server.ts *)

Module Relay.
Import Http.

Definition MAX_BODY_SIZE : N := 10 * 1024 * 1024.
Definition REQUEST_TIMEOUT : N := 30000.
Definition HEARTBEAT_INTERVAL : N := 30000.

Record RelayServerConfig : Type := mkConfig {
  port : N;
  apiKeys : list string;
  domain : string;
  maxTunnels : N;
}.

(** Objects the relay shares by reference ([ws], [res], timers) are
    named by a handle into a store of the state. *)
Abbreviation handle := nat (only parsing).

Record PendingRequest : Type := mkPending {
  pend_res : handle;
  pend_timeout : handle;
}.

Record TunnelConnection : Type := mkConn {
  conn_ws : handle;
  conn_subdomain : string;
  conn_heartbeat : handle;
  conn_alive : bool;
}.

(** The state of the stream [req].  On the Node versions the repository
    targets (20 and later) a request stream that ended or was destroyed
    emits nothing further. *)
Inductive StreamState : Type :=
| Reading       (* ['data'] and ['end'] are still to come *)
| Ended         (* ['end'] was emitted *)
| Destroyed.    (* [req.destroy()] was called, or ['error'] emitted *)

(** The listeners [handleHttpRequest] registers on [req], with the
    variables they close over. *)
Record Ingress : Type := mkIngress {
  ing_req : IncomingMessage;
  ing_ws : handle;                 (* [tunnel.ws] *)
  ing_chunks : list (list byte);
  ing_bodySize : N;
  ing_state : StreamState;
}.

(** No listener of the stream runs any more. *)
Definition ing_closed (ing : Ingress) : bool :=
  match ing_state ing with
  | Reading => false
  | Ended | Destroyed => true
  end.

Record relay : Type := mkRelay {
  tunnels : gmap string TunnelConnection;
  pendingRequests : gmap string PendingRequest;
  sockets : gmap handle WebSocket;
  channels : gmap handle string;   (* listeners of a [ws]: their [subdomain] *)
  responses : gmap handle ServerResponse;
  ingresses : gmap handle Ingress; (* keyed by the handle of [res] *)
  timeouts : gmap handle string;   (* armed [setTimeout]s: their [requestId] *)
  intervals : gmap handle string;  (* armed [setInterval]s: their [subdomain] *)
  next_handle : handle;
}.

Definition init : relay := mkRelay ∅ ∅ ∅ ∅ ∅ ∅ ∅ ∅ 0.

Definition with_tunnels (f : gmap string TunnelConnection -> gmap string TunnelConnection)
    (st : relay) : relay :=
  mkRelay (f (tunnels st)) (pendingRequests st) (sockets st) (channels st)
    (responses st) (ingresses st) (timeouts st) (intervals st) (next_handle st).
Definition with_pending (f : gmap string PendingRequest -> gmap string PendingRequest)
    (st : relay) : relay :=
  mkRelay (tunnels st) (f (pendingRequests st)) (sockets st) (channels st)
    (responses st) (ingresses st) (timeouts st) (intervals st) (next_handle st).
Definition with_sockets (f : gmap handle WebSocket -> gmap handle WebSocket)
    (st : relay) : relay :=
  mkRelay (tunnels st) (pendingRequests st) (f (sockets st)) (channels st)
    (responses st) (ingresses st) (timeouts st) (intervals st) (next_handle st).
Definition with_channels (f : gmap handle string -> gmap handle string)
    (st : relay) : relay :=
  mkRelay (tunnels st) (pendingRequests st) (sockets st) (f (channels st))
    (responses st) (ingresses st) (timeouts st) (intervals st) (next_handle st).
Definition with_responses (f : gmap handle ServerResponse -> gmap handle ServerResponse)
    (st : relay) : relay :=
  mkRelay (tunnels st) (pendingRequests st) (sockets st) (channels st)
    (f (responses st)) (ingresses st) (timeouts st) (intervals st) (next_handle st).
Definition with_ingresses (f : gmap handle Ingress -> gmap handle Ingress)
    (st : relay) : relay :=
  mkRelay (tunnels st) (pendingRequests st) (sockets st) (channels st)
    (responses st) (f (ingresses st)) (timeouts st) (intervals st) (next_handle st).
Definition with_timeouts (f : gmap handle string -> gmap handle string)
    (st : relay) : relay :=
  mkRelay (tunnels st) (pendingRequests st) (sockets st) (channels st)
    (responses st) (ingresses st) (f (timeouts st)) (intervals st) (next_handle st).
Definition with_intervals (f : gmap handle string -> gmap handle string)
    (st : relay) : relay :=
  mkRelay (tunnels st) (pendingRequests st) (sockets st) (channels st)
    (responses st) (ingresses st) (timeouts st) (f (intervals st)) (next_handle st).

(** A fresh handle, for an object the runtime creates. *)
Definition alloc (st : relay) : handle * relay :=
  (next_handle st,
   mkRelay (tunnels st) (pendingRequests st) (sockets st) (channels st)
     (responses st) (ingresses st) (timeouts st) (intervals st) (S (next_handle st))).

(** *** The stores *)

(** A response object nothing was written to is absent from the store. *)
Definition response_of (st : relay) (r : handle) : ServerResponse :=
  default fresh_response (responses st !! r).

Definition socket_of (st : relay) (w : handle) : WebSocket :=
  default (mkWebSocket CLOSED []) (sockets st !! w).

(** [res.writeHead(status, headers); res.end(body)] *)
Definition respond (r : handle) (reply : HttpReply) (st : relay) : relay :=
  let w := response_of st r in
  with_responses (insert r (mkServerResponse true (replies w ++ [reply]))) st.

Definition send (w : handle) (m : WSMessage) (st : relay) : relay :=
  with_sockets (insert w (ws_send m (socket_of st w))) st.

Definition clearTimeout (t : handle) (st : relay) : relay :=
  with_timeouts (delete t) st.

Definition clearInterval (i : handle) (st : relay) : relay :=
  with_intervals (delete i) st.

Definition json_headers : gmap string string :=
  {[ "Content-Type" := "application/json" ]}.

Definition text_headers : gmap string string :=
  {[ "Content-Type" := "text/plain" ]}.

(** *** extractSubdomain, serializeRequest, removeTunnel *)

Definition extractSubdomain (cfg : RelayServerConfig) (host : string) : option string :=
  let hostname := Js.split_head ":" host in
  let domain := domain cfg in
  if String.eqb hostname domain then None
  else if Js.endsWith hostname ("." +:+ domain)
       then Some (Js.slice0 hostname (- (Z.of_nat (String.length domain) + 1)))
       else None.

(** [id] is what [crypto.randomUUID()] returned. *)
Definition serializeRequest (req : IncomingMessage) (body : list byte) (id : string)
    : TunnelRequest :=
  mkTunnelRequest id
    (Js.or_else (req_method req) "GET")
    (Js.or_else (req_url req) "/")
    (flatten_headers (req_headers req))
    (if (0 <? length body)%nat then Some (Base64.encode body) else None).

Definition removeTunnel (subdomain : string) (st : relay) : relay :=
  match tunnels st !! subdomain with
  | Some conn =>
      let st := clearInterval (conn_heartbeat conn) st in
      let st := with_sockets
                  (insert (conn_ws conn) (ws_close_if_open (socket_of st (conn_ws conn)))) st in
      with_tunnels (delete subdomain) st
  | None => st
  end.

(** *** handleHttpRequest *)

Definition health_body (cfg : RelayServerConfig) (st : relay) : json :=
  [("status", JStr "ok");
   ("tunnels", JNum (N.of_nat (size (tunnels st))));
   ("maxTunnels", JNum (maxTunnels cfg))].

Definition BANNER : string := "@gagandeep023/expose-tunnel relay server".

(** The health endpoint and the banner of the base domain. *)
Definition surface (cfg : RelayServerConfig) (req : IncomingMessage) (res : handle)
    (st : relay) : relay :=
  if bool_decide (req_url req = Some "/health")
  then respond res (mkReply 200 json_headers (BodyJson (health_body cfg st))) st
  else respond res (mkReply 200 text_headers (BodyText BANNER)) st.

Definition not_found_body (subdomain : string) : json :=
  [("error", JStr "Tunnel not found"); ("subdomain", JStr subdomain)].

(** The body of [handleHttpRequest] up to the registration of the
    listeners on [req]; [res] is the response object of the request. *)
Definition handleHttpRequest (cfg : RelayServerConfig) (req : IncomingMessage)
    (res : handle) (st : relay) : relay :=
  let host := Js.or_else (req_host req) "" in
  match extractSubdomain cfg host with
  | None => surface cfg req res st
  | Some subdomain =>
      if negb (Js.truthy subdomain) || String.eqb subdomain "tunnel"
      then surface cfg req res st
      else
        match tunnels st !! subdomain with
        | None =>
            respond res (mkReply 404 json_headers (BodyJson (not_found_body subdomain))) st
        | Some tunnel =>
            if negb (is_open (socket_of st (conn_ws tunnel)))
            then
              let st := respond res
                          (mkReply 502 json_headers
                             (BodyJson [("error", JStr "Tunnel client disconnected")])) st in
              removeTunnel subdomain st
            else
              with_ingresses (insert res (mkIngress req (conn_ws tunnel) [] 0 Reading)) st
        end
  end.

(** [req.on('data', ...)] *)
Definition on_data (res : handle) (chunk : list byte) (st : relay) : relay :=
  match ingresses st !! res with
  | Some ing =>
      if ing_closed ing then st
      else
        let bodySize := (ing_bodySize ing + N.of_nat (length chunk))%N in
        if (MAX_BODY_SIZE <? bodySize)%N
        then
          let st := respond res
                      (mkReply 413 json_headers
                         (BodyJson [("error", JStr "Request body too large")])) st in
          (* req.destroy() *)
          with_ingresses
            (insert res (mkIngress (ing_req ing) (ing_ws ing) (ing_chunks ing) bodySize
                           Destroyed)) st
        else
          with_ingresses
            (insert res (mkIngress (ing_req ing) (ing_ws ing)
                           (ing_chunks ing ++ [chunk]) bodySize Reading)) st
  | None => st
  end.

(** [req.on('end', ...)]; [uuid] is what [crypto.randomUUID()] returns. *)
Definition on_end (res : handle) (uuid : string) (st : relay) : relay :=
  match ingresses st !! res with
  | Some ing =>
      if ing_closed ing then st
      else
        let st := with_ingresses
                    (insert res (mkIngress (ing_req ing) (ing_ws ing) (ing_chunks ing)
                                   (ing_bodySize ing) Ended)) st in
        if writableEnded (response_of st res) then st
        else
          let body := concat (ing_chunks ing) in
          let tunnelRequest := serializeRequest (ing_req ing) body uuid in
          let requestId := rq_id tunnelRequest in
          let '(timeout, st) := alloc st in
          let st := with_timeouts (insert timeout requestId) st in
          let st := with_pending (insert requestId (mkPending res timeout)) st in
          send (ing_ws ing) (TunnelRequestMsg tunnelRequest) st
  | None => st
  end.

(** [req.on('error', ...)] *)
Definition on_error (res : handle) (st : relay) : relay :=
  match ingresses st !! res with
  | Some ing =>
      if ing_closed ing then st
      else
        let st := with_ingresses
                    (insert res (mkIngress (ing_req ing) (ing_ws ing) (ing_chunks ing)
                                   (ing_bodySize ing) Destroyed)) st in
        if negb (writableEnded (response_of st res))
        then respond res (mkReply 500 ∅ (BodyText "Request error")) st
        else st
  | None => st
  end.

(** The callback of [setTimeout] in the ['end'] listener, for the
    timer [t]; a cleared timer never fires. *)
Definition on_timeout (t : handle) (st : relay) : relay :=
  match timeouts st !! t with
  | Some requestId =>
      let st := with_timeouts (delete t) st in
      let st :=
        match pendingRequests st !! requestId with
        | Some pending =>
            if negb (writableEnded (response_of st (pend_res pending)))
            then respond (pend_res pending)
                   (mkReply 504 json_headers
                      (BodyJson [("error", JStr "Tunnel request timed out")])) st
            else st
        | None => st
        end in
      with_pending (delete requestId) st
  | None => st
  end.

(** *** handleTunnelResponse *)

(** The timer is cleared and the entry deleted before [res.writeHead]
    is called.  When [writeHead] throws, the error reaches the [catch]
    of the ['message'] listener, which logs it: nothing was written and
    nothing will be.  The status stored is the one [writeHead] converted. *)
Definition handleTunnelResponse (response : TunnelResponse) (st : relay) : relay :=
  match pendingRequests st !! rs_id response with
  | None => st
  | Some pending =>
      let st := clearTimeout (pend_timeout pending) st in
      let st := with_pending (delete (rs_id response)) st in
      if writableEnded (response_of st (pend_res pending)) then st
      else
        let headers := delete "transfer-encoding" (rs_headers response) in
        if negb (writeHead_accepts (rs_status response) headers) then st
        else
          let body :=
            if Js.truthy_opt (rs_body response)
            then end_base64 (default EmptyString (rs_body response))
            else BodyEmpty in
          respond (pend_res pending)
            (mkReply (Z.to_N (to_int32 (rs_status response))) headers body) st
  end.

(** *** The listeners of a control channel *)

(** [conn.alive = v] through the closure of the channel [w]. *)
Definition set_alive (w : handle) (v : bool) (conn : TunnelConnection) : TunnelConnection :=
  if Nat.eqb (conn_ws conn) w
  then mkConn (conn_ws conn) (conn_subdomain conn) (conn_heartbeat conn) v
  else conn.

(** [ws.on('message', ...)]; [None] stands for a frame [JSON.parse]
    rejects. *)
Definition on_message (w : handle) (message : option WSMessage) (st : relay) : relay :=
  match channels st !! w with
  | Some subdomain =>
      match message with
      | Some Pong => with_tunnels (alter (set_alive w true) subdomain) st
      | Some (TunnelResponseMsg response) => handleTunnelResponse response st
      | _ => st
      end
  | None => st
  end.

(** [ws.on('close', ...)] and [ws.on('error', ...)]. *)
Definition on_ws_close (w : handle) (st : relay) : relay :=
  match channels st !! w with
  | Some subdomain =>
      let st := with_sockets (insert w (mkWebSocket CLOSED (outbox (socket_of st w)))) st in
      removeTunnel subdomain st
  | None => st
  end.

Definition on_ws_error (w : handle) (st : relay) : relay :=
  match channels st !! w with
  | Some subdomain => removeTunnel subdomain st
  | None => st
  end.

(** The callback of [setInterval] in [handleWebSocketConnection]. *)
Definition on_heartbeat (i : handle) (st : relay) : relay :=
  match intervals st !! i with
  | Some subdomain =>
      match tunnels st !! subdomain with
      | Some conn =>
          if negb (Nat.eqb (conn_heartbeat conn) i) then st
          else if negb (conn_alive conn)
          then
            let st := clearInterval i st in
            (* ws.terminate() *)
            with_sockets
              (insert (conn_ws conn)
                 (mkWebSocket CLOSED (outbox (socket_of st (conn_ws conn))))) st
          else
            let st := with_tunnels (alter (set_alive (conn_ws conn) false) subdomain) st in
            send (conn_ws conn) Ping st
      | None => st
      end
  | None => st
  end.

(** *** The upgrade handler and handleWebSocketConnection *)

(** [req.headers[name] as string | undefined] *)
Definition header (req : IncomingMessage) (name : string) : option string :=
  match req_headers req !! name with
  | Some (HStr v) => Some v
  | _ => None
  end.

(** What the handler writes on the raw socket before it destroys it:
    the text [HTTP/1.1 <status> <reason>], the header lines and the
    body. *)
Record RawReply : Type := mkRaw {
  raw_status : N;
  raw_reason : string;
  raw_headers : list (string * string);
  raw_body : option json;
}.

Inductive Admission : Type :=
| Rejected (written : option RawReply)   (* [socket.destroy()] *)
| Upgraded.                               (* [wss.handleUpgrade] *)

(** The checks of the ['upgrade'] listener; [pathname] is the path the
    [URL] constructor parsed out of [req.url]. *)
Definition admission (cfg : RelayServerConfig) (pathname : string)
    (req : IncomingMessage) (st : relay) : Admission :=
  if negb (String.eqb pathname "/tunnel") then Rejected None
  else if negb (Auth.validateApiKey (header req "x-api-key") (apiKeys cfg))
  then Rejected (Some (mkRaw 401 "Unauthorized" [] None))
  else if (maxTunnels cfg <=? N.of_nat (size (tunnels st)))%N
  then Rejected
         (Some (mkRaw 503 "Service Unavailable"
                  [("Content-Type", "application/json")]
                  (Some [("error", JStr "Max tunnel limit reached");
                         ("limit", JNum (maxTunnels cfg))])))
  else Upgraded.

(** The source of [crypto.randomBytes]: a tape of bytes, read from a
    position onwards. *)
Definition Entropy : Type := nat -> byte.

Definition randomBytes (tape : Entropy) (pos n : nat) : list byte :=
  map tape (seq pos n).

(** [do { subdomain = generateSubdomain(); } while (this.tunnels.has(subdomain))],
    for at most [fuel] rounds. *)
Fixpoint mint (fuel : nat) (taken : gmap string TunnelConnection)
    (tape : Entropy) (pos : nat) : option string :=
  match fuel with
  | O => None
  | S fuel' =>
      let subdomain := Subdomain.generateSubdomain (randomBytes tape pos 8) in
      if bool_decide (is_Some (taken !! subdomain))
      then mint fuel' taken tape (pos + 8)
      else Some subdomain
  end.

(** The label [handleWebSocketConnection] settles on. *)
Definition resolveSubdomain (fuel : nat) (tape : Entropy)
    (requestedSubdomain : option string) (st : relay) : option string :=
  match requestedSubdomain with
  | Some requested =>
      if Js.truthy requested && Subdomain.isValidSubdomain requested
         && negb (bool_decide (is_Some (tunnels st !! requested)))
      then Some requested
      else mint fuel (tunnels st) tape 0
  | None => mint fuel (tunnels st) tape 0
  end.

(** [handleWebSocketConnection]: [None] when the minting loop has not
    found a free label within [fuel] rounds. *)
Definition handleWebSocketConnection (cfg : RelayServerConfig) (fuel : nat)
    (tape : Entropy) (req : IncomingMessage) (st : relay) : option relay :=
  let '(w, st) := alloc st in
  let st := with_sockets (insert w (mkWebSocket OPEN [])) st in
  match resolveSubdomain fuel tape (header req "x-subdomain") st with
  | None => None
  | Some subdomain =>
      let url := "https://" +:+ subdomain +:+ "." +:+ domain cfg in
      let '(heartbeat, st) := alloc st in
      let st := with_intervals (insert heartbeat subdomain) st in
      let st := with_tunnels (insert subdomain (mkConn w subdomain heartbeat true)) st in
      let st := send w (TunnelAssigned subdomain url) st in
      Some (with_channels (insert w subdomain) st)
  end.

(** The ['upgrade'] listener as a whole. *)
Definition on_upgrade (cfg : RelayServerConfig) (fuel : nat) (tape : Entropy)
    (pathname : string) (req : IncomingMessage) (st : relay) : option (Admission * relay) :=
  match admission cfg pathname req st with
  | Upgraded =>
      match handleWebSocketConnection cfg fuel tape req st with
      | Some st' => Some (Upgraded, st')
      | None => None
      end
  | refused => Some (refused, st)
  end.

(** *** stop *)

Definition stop_tunnel (st : relay) (entry : string * TunnelConnection) : relay :=
  let conn := entry.2 in
  let st := clearInterval (conn_heartbeat conn) st in
  with_sockets (insert (conn_ws conn) (ws_close (socket_of st (conn_ws conn)))) st.

Definition stop_pending (st : relay) (entry : string * PendingRequest) : relay :=
  let pending := entry.2 in
  let st := clearTimeout (pend_timeout pending) st in
  if negb (writableEnded (response_of st (pend_res pending)))
  then respond (pend_res pending) (mkReply 503 ∅ (BodyText "Server shutting down")) st
  else st.

(** [Map] iterates in insertion order and [map_to_list] in key order;
    the entries are handled independently of each other. *)
Definition stop (st : relay) : relay :=
  let st := foldl stop_tunnel st (map_to_list (tunnels st)) in
  let st := with_tunnels (fun _ => ∅) st in
  let st := foldl stop_pending st (map_to_list (pendingRequests st)) in
  with_pending (fun _ => ∅) st.

(** *** The relay as a machine driven by the runtime's events *)

Inductive Event : Type :=
| EvUpgrade (fuel : nat) (tape : Entropy) (pathname : string) (req : IncomingMessage)
| EvRequest (req : IncomingMessage)
| EvData (res : handle) (chunk : list byte)
| EvEnd (res : handle) (uuid : string)
| EvError (res : handle)
| EvTimeout (t : handle)
| EvMessage (w : handle) (message : option WSMessage)
| EvWsClose (w : handle)
| EvWsError (w : handle)
| EvHeartbeat (i : handle)
| EvStop.

(** One event; [None] when the minting loop of a handshake does not
    return. *)
Definition step (cfg : RelayServerConfig) (st : relay) (ev : Event) : option relay :=
  match ev with
  | EvUpgrade fuel tape pathname req => snd <$> on_upgrade cfg fuel tape pathname req st
  | EvRequest req => let '(res, st) := alloc st in Some (handleHttpRequest cfg req res st)
  | EvData res chunk => Some (on_data res chunk st)
  | EvEnd res uuid => Some (on_end res uuid st)
  | EvError res => Some (on_error res st)
  | EvTimeout t => Some (on_timeout t st)
  | EvMessage w message => Some (on_message w message st)
  | EvWsClose w => Some (on_ws_close w st)
  | EvWsError w => Some (on_ws_error w st)
  | EvHeartbeat i => Some (on_heartbeat i st)
  | EvStop => Some (stop st)
  end.

Fixpoint run (cfg : RelayServerConfig) (st : relay) (evs : list Event) : option relay :=
  match evs with
  | [] => Some st
  | ev :: evs' =>
      match step cfg st ev with
      | Some st' => run cfg st' evs'
      | None => None
      end
  end.

End Relay.

(** ** client/tunnel-client.ts *)

Module Agent.
Import Http.

Definition MAX_RECONNECT_ATTEMPTS : nat := 5.

(** The calls of [this.emit]. *)
Inductive Emitted : Type :=
| EmitClose
| EmitError (message : string)
| EmitRequest (method path : string) (status : N).

(** The fields of a [TunnelClient], then the runtime objects it holds
    by reference (its sockets and timers) and the events it emitted. *)
Record TunnelClient : Type := mkClient {
  ws : option nat;
  reconnectAttempts : nat;
  heartbeatInterval : option nat;
  closed : bool;
  url : string;
  subdomain : string;
  sockets : gmap nat WebSocket;
  intervals : gset nat;
  emitted : list Emitted;
}.

Definition socket_of (c : TunnelClient) (w : nat) : WebSocket :=
  default (mkWebSocket CLOSED []) (sockets c !! w).

Definition emit (e : Emitted) (c : TunnelClient) : TunnelClient :=
  mkClient (ws c) (reconnectAttempts c) (heartbeatInterval c) (closed c)
    (url c) (subdomain c) (sockets c) (intervals c) (emitted c ++ [e]).

(** [close()] *)
Definition close (c : TunnelClient) : TunnelClient :=
  (* this.closed = true *)
  let closed' := true in
  (* if (this.heartbeatInterval) { clearInterval(...); this.heartbeatInterval = null } *)
  let intervals' :=
    match heartbeatInterval c with
    | Some h => intervals c ∖ {[ h ]}
    | None => intervals c
    end in
  (* if (this.ws && this.ws.readyState === WebSocket.OPEN) this.ws.close() *)
  let sockets' :=
    match ws c with
    | Some w => if is_open (socket_of c w)
                then <[ w := ws_close (socket_of c w) ]> (sockets c)
                else sockets c
    | None => sockets c
    end in
  (* this.ws = null; this.emit('close') *)
  emit EmitClose
    (mkClient None (reconnectAttempts c) None closed' (url c) (subdomain c)
       sockets' intervals' (emitted c)).

(** What the caller of [close()] can observe of the client. *)
Record Observable : Type := mkObservable {
  obs_closed : bool;
  obs_heartbeat : option nat;
  obs_ws : option nat;
  obs_url : string;
  obs_subdomain : string;
  obs_sockets : gmap nat WebSocket;
  obs_intervals : gset nat;
}.

Definition observe (c : TunnelClient) : Observable :=
  mkObservable (closed c) (heartbeatInterval c) (ws c) (url c) (subdomain c)
    (sockets c) (intervals c).

(** The response of the local origin as the ['end'] listener of
    [proxyToLocal] sees it. *)
Record IncomingResponse : Type := mkIncomingResponse {
  statusCode : option N;
  res_headers : gmap string HeaderValue;
  res_chunks : list (list byte);
}.

(** [proxyRes.statusCode || 500] *)
Definition status_or_500 (code : option N) : N :=
  match code with
  | Some n => if (n =? 0)%N then 500%N else n
  | None => 500%N
  end.

(** The frame [proxyToLocal] resolves with when the origin answers. *)
Definition proxyToLocal (request : TunnelRequest) (proxyRes : IncomingResponse)
    : TunnelResponse :=
  let body := concat (res_chunks proxyRes) in
  mkTunnelResponse (rq_id request)
    (status_or_500 (statusCode proxyRes))
    (flatten_headers (res_headers proxyRes))
    (if (0 <? length body)%nat then Some (Base64.encode body) else None).

(** [sendResponse] *)
Definition sendResponse (response : TunnelResponse) (c : TunnelClient) : TunnelClient :=
  match ws c with
  | Some w =>
      if is_open (socket_of c w)
      then mkClient (ws c) (reconnectAttempts c) (heartbeatInterval c) (closed c)
             (url c) (subdomain c)
             (<[ w := ws_send (TunnelResponseMsg response) (socket_of c w) ]> (sockets c))
             (intervals c) (emitted c)
      else c
  | None => c
  end.

(** [handleTunnelRequest] on the path where [proxyToLocal] resolves. *)
Definition handleTunnelRequest (request : TunnelRequest) (proxyRes : IncomingResponse)
    (c : TunnelClient) : TunnelClient :=
  let response := proxyToLocal request proxyRes in
  let c := sendResponse response c in
  emit (EmitRequest (rq_method request) (rq_path request) (rs_status response)) c.

(** *** The constructor and the headers of the handshake *)

Definition RECONNECT_BASE_DELAY : N := 1000.

(** [TunnelOptions] of [types.ts], as the caller passes them. *)
Record TunnelOptions : Type := mkTunnelOptions {
  opt_port : N;
  opt_host : option string;
  opt_subdomain : option string;
  opt_server : option string;
  opt_apiKey : option string;
  opt_localHost : option string;
}.

(** The two variables of [process.env] the constructor reads. *)
Record Env : Type := mkEnv {
  EXPOSE_TUNNEL_SERVER : option string;
  EXPOSE_TUNNEL_API_KEY : option string;
}.

(** [this.options : Required<TunnelOptions>] *)
Record Options : Type := mkOptions {
  port : N;
  host : string;
  options_subdomain : string;
  server : string;
  apiKey : string;
  localHost : string;
}.

(** [a || b] for two values of type [string | undefined]. *)
Definition or_undefined (a b : option string) : option string :=
  if Js.truthy_opt a then a else b.

(** The constructor: [None] when it throws. *)
Definition constructor (options : TunnelOptions) (env : Env) : option Options :=
  let server := or_undefined (opt_server options) (EXPOSE_TUNNEL_SERVER env) in
  if negb (Js.truthy_opt server) then None
  else Some (mkOptions (opt_port options)
               (Js.or_else (opt_host options) "localhost")
               (Js.or_else (opt_subdomain options) "")
               (default EmptyString server)
               (Js.or_else (or_undefined (opt_apiKey options) (EXPOSE_TUNNEL_API_KEY env)) "")
               (Js.or_else (opt_localHost options) "localhost")).

(** The header object [connect] and the timer of [reconnect] build:
    [{ 'x-api-key': apiKey }], and [x-subdomain] when the label is not
    empty. *)
Definition handshake_headers (apiKey subdomain : string) : gmap string string :=
  let headers : gmap string string := {[ "x-api-key" := apiKey ]} in
  if Js.truthy subdomain then <[ "x-subdomain" := subdomain ]> headers else headers.

(** [this.ws = new WebSocket(wsUrl, { headers })]: [w] names the new
    socket. *)
Definition new_socket (w : nat) (c : TunnelClient) : TunnelClient :=
  mkClient (Some w) (reconnectAttempts c) (heartbeatInterval c) (closed c)
    (url c) (subdomain c) (<[ w := mkWebSocket CONNECTING [] ]> (sockets c))
    (intervals c) (emitted c).

(** [connect()], up to the registration of its listeners: the new
    socket and the headers of its handshake. *)
Definition connect (o : Options) (w : nat) (c : TunnelClient)
    : TunnelClient * gmap string string :=
  (new_socket w c, handshake_headers (apiKey o) (options_subdomain o)).

(** *** The listeners of setupListeners *)

(** [setupHeartbeat()]: clears the interval, if any; it starts none. *)
Definition setupHeartbeat (c : TunnelClient) : TunnelClient :=
  match heartbeatInterval c with
  | Some h =>
      mkClient (ws c) (reconnectAttempts c) (heartbeatInterval c) (closed c)
        (url c) (subdomain c) (sockets c) (intervals c ∖ {[ h ]}) (emitted c)
  | None => c
  end.

(** [this.ws?.send(JSON.stringify(m))] *)
Definition send (m : WSMessage) (c : TunnelClient) : TunnelClient :=
  match ws c with
  | Some w =>
      mkClient (ws c) (reconnectAttempts c) (heartbeatInterval c) (closed c)
        (url c) (subdomain c) (<[ w := ws_send m (socket_of c w) ]> (sockets c))
        (intervals c) (emitted c)
  | None => c
  end.

(** The ['message'] listener; [None] is a frame that [JSON.parse]
    rejects.  [assigned] is the variable of that name the listeners of
    one [setupListeners] call share.  The result holds the request the
    listener hands to [handleTunnelRequest], whose outcome arrives
    later. *)
Definition on_message (message : option WSMessage) (assigned : bool) (c : TunnelClient)
    : TunnelClient * bool * option TunnelRequest :=
  match message with
  | Some (TunnelAssigned subdomain' url') =>
      (setupHeartbeat
         (mkClient (ws c) 0 (heartbeatInterval c) (closed c) url' subdomain'
            (sockets c) (intervals c) (emitted c)),
       true, None)
  | Some (TunnelRequestMsg request) => (c, assigned, Some request)
  | Some Ping => (send Pong c, assigned, None)
  | Some (TunnelErrorMsg message) => (emit (EmitError message) c, assigned, None)
  | _ => (c, assigned, None)
  end.

(** [reconnect()], up to [setTimeout]: the delay of the timer it
    starts, if it starts one. *)
Definition reconnect (c : TunnelClient) : TunnelClient * option N :=
  if closed c || (MAX_RECONNECT_ATTEMPTS <=? reconnectAttempts c)%nat
  then
    ((if (MAX_RECONNECT_ATTEMPTS <=? reconnectAttempts c)%nat
      then emit EmitClose c else c),
     None)
  else
    let attempts := S (reconnectAttempts c) in
    (mkClient (ws c) attempts (heartbeatInterval c) (closed c) (url c) (subdomain c)
       (sockets c) (intervals c) (emitted c),
     Some (RECONNECT_BASE_DELAY * 2 ^ N.of_nat (attempts - 1))%N).

(** The ['close'] listener. *)
Definition on_close (assigned : bool) (c : TunnelClient) : TunnelClient * option N :=
  let c :=
    match heartbeatInterval c with
    | Some h =>
        mkClient (ws c) (reconnectAttempts c) None (closed c) (url c) (subdomain c)
          (sockets c) (intervals c ∖ {[ h ]}) (emitted c)
    | None => c
    end in
  if negb (closed c) && assigned then reconnect c else (c, None).

(** The ['error'] listener. *)
Definition on_error (message : string) (c : TunnelClient) : TunnelClient :=
  emit (EmitError message) c.

(** The timer of [reconnect] fires: the headers of the handshake of the
    socket [w] it opens, if it opens one. *)
Definition on_reconnect_timer (o : Options) (w : nat) (c : TunnelClient)
    : TunnelClient * option (gmap string string) :=
  if closed c then (c, None)
  else (new_socket w c, Some (handshake_headers (apiKey o) (subdomain c))).

(** The attempt on the socket [w] fails: the socket is closed and its
    [once('error')] listener calls [reconnect()]. *)
Definition on_reconnect_error (w : nat) (c : TunnelClient) : TunnelClient * option N :=
  reconnect
    (mkClient (ws c) (reconnectAttempts c) (heartbeatInterval c) (closed c)
       (url c) (subdomain c)
       (alter (fun s => mkWebSocket CLOSED (outbox s)) w (sockets c))
       (intervals c) (emitted c)).

(** Attempts that fail one after the other, from a call of
    [reconnect()] on: the delays of the timers, in order.  The sockets
    are named from [w] upwards. *)
Fixpoint retry (fuel : nat) (o : Options) (w : nat) (r : TunnelClient * option N)
    : list N * TunnelClient :=
  match fuel, r with
  | S fuel', (c, Some delay) =>
      match on_reconnect_timer o w c with
      | (c', Some _) =>
          let '(delays, c'') := retry fuel' o (S w) (on_reconnect_error w c') in
          (delay :: delays, c'')
      | (c', None) => ([delay], c')
      end
  | _, (c, _) => ([], c)
  end.

(** *** proxyToLocal, the request side; handleTunnelRequest, the catch *)

(** [`${n}`] for a number that is a natural. *)
Definition number_text (n : N) : string := NilZero.string_of_uint (N.to_uint n).



(** The frame the [catch] of [handleTunnelRequest] builds; [utf8] gives
    the bytes of [Buffer.from(JSON.stringify(j))]. *)
Definition errorResponse (utf8 : json -> list byte) (request : TunnelRequest)
    (message : string) : TunnelResponse :=
  mkTunnelResponse (rq_id request) 502
    {[ "content-type" := "application/json" ]}
    (Some (Base64.encode
             (utf8 [("error", JStr "Failed to reach local server");
                    ("details", JStr message)]))).

(** [handleTunnelRequest] on the path where [proxyToLocal] rejects with
    an error of the given message. *)
Definition handleTunnelRequest_catch (utf8 : json -> list byte) (request : TunnelRequest)
    (message : string) (c : TunnelClient) : TunnelClient :=
  let c := sendResponse (errorResponse utf8 request message) c in
  emit (EmitRequest (rq_method request) (rq_path request) 502) c.

(** *** The agent as a machine *)

(** What happens to an agent after [connect()]: a frame arrives, the
    socket closes or fails, the timer of [reconnect] fires, an attempt
    to reconnect fails, the local origin answers or cannot be reached.
    [assigned] is the variable of the listeners the event runs. *)
Inductive Event : Type :=
| EvMessage (message : option WSMessage) (assigned : bool)
| EvClose (assigned : bool)
| EvError (message : string)
| EvTimer (w : nat)
| EvReconnectError (w : nat)
| EvProxied (request : TunnelRequest) (proxyRes : IncomingResponse)
| EvProxyFailed (request : TunnelRequest) (message : string).

(** One event: the agent after it, and the delays of the timers it
    started. *)
Definition step (o : Options) (utf8 : json -> list byte) (c : TunnelClient) (ev : Event)
    : TunnelClient * list N :=
  match ev with
  | EvMessage message assigned => ((on_message message assigned c).1.1, [])
  | EvClose assigned => let '(c', delay) := on_close assigned c in (c', option_list delay)
  | EvError message => (on_error message c, [])
  | EvTimer w => ((on_reconnect_timer o w c).1, [])
  | EvReconnectError w =>
      let '(c', delay) := on_reconnect_error w c in (c', option_list delay)
  | EvProxied request proxyRes => (handleTunnelRequest request proxyRes c, [])
  | EvProxyFailed request message => (handleTunnelRequest_catch utf8 request message c, [])
  end.

Fixpoint run (o : Options) (utf8 : json -> list byte) (c : TunnelClient) (evs : list Event)
    : TunnelClient * list N :=
  match evs with
  | [] => (c, [])
  | ev :: evs' =>
      let '(c', delays) := step o utf8 c ev in
      let '(c'', delays') := run o utf8 c' evs' in
      (c'', delays ++ delays')
  end.

End Agent.

(** ** server/index.ts: the entry script of the relay *)

Module Entry.

(** [s.split(sep)] for a separator of one character. *)
Fixpoint split (sep : ascii) (s : string) : list string :=
  match s with
  | EmptyString => [EmptyString]
  | String c s' =>
      if Ascii.eqb c sep then EmptyString :: split sep s'
      else match split sep s' with
           | part :: parts => String c part :: parts
           | [] => [String c EmptyString]
           end
  end.

(** [(process.env.API_KEYS || '').split(',').filter(Boolean)] *)
Definition apiKeys (API_KEYS : option string) : list string :=
  filter (fun key => Js.truthy key = true) (split "," (Js.or_else API_KEYS "")).

(** [process.env.TUNNEL_DOMAIN || 'tunnel.gagandeep023.com'] *)
Definition domain (TUNNEL_DOMAIN : option string) : string :=
  Js.or_else TUNNEL_DOMAIN "tunnel.gagandeep023.com".



End Entry.

(** ** cli.ts: the action of the command *)

Module Cli.

(** The options commander hands to the action: [--port] is required
    and arrives as the string that was typed, [--local-host] defaults
    to [localhost]. *)
Record Opts : Type := mkOpts {
  port : string;
  subdomain : option string;
  server : option string;
  apiKey : option string;
  localHost : string;
}.

(** The white space and the line terminators of ECMAScript, among the
    code units below 256. *)
Definition is_white (c : ascii) : bool :=
  let n := N_of_ascii c in
  ((9 <=? n) && (n <=? 13) || (n =? 32) || (n =? 160))%N.

Fixpoint trim_start (s : string) : string :=
  match s with
  | String c s' => if is_white c then trim_start s' else s
  | EmptyString => s
  end.

Definition digit (c : ascii) : option N :=
  let n := N_of_ascii c in
  if ((48 <=? n) && (n <=? 57))%N then Some (n - 48)%N else None.

(** The value of the longest prefix of decimal digits of [s], read
    after the digits whose value is [acc]; [None] when no digit was
    read. *)
Fixpoint digits (s : string) (acc : option N) : option N :=
  match s with
  | String c s' =>
      match digit c with
      | Some d => digits s' (Some (10 * default 0 acc + d))%N
      | None => acc
      end
  | EmptyString => acc
  end.

(** A JavaScript number that [parseInt] returns: [NaN] or an integer
    (the two zeros are not told apart). *)
Inductive Number : Type :=
| NaN
| Int (z : Z).

(** [parseInt(s, 10)] *)
Definition parseInt (s : string) : Number :=
  let s := trim_start s in
  let '(sign, s) :=
    match s with
    | String c s' =>
        if Ascii.eqb c "-" then ((-1)%Z, s')
        else if Ascii.eqb c "+" then (1%Z, s')
        else (1%Z, s)
    | EmptyString => (1%Z, s)
    end in
  match digits s None with
  | Some n => Int (sign * Z.of_N n)
  | None => NaN
  end.

(** The action, up to the call of [exposeTunnel]: [process.exit(1)]
    after the message it logs, or the options it exposes the tunnel
    with. *)
Inductive Outcome : Type :=
| Exit (code : N) (error : string)
| Expose (options : Agent.TunnelOptions).

Definition action (opts : Opts) (env : Agent.Env) : Outcome :=
  (* const server = opts.server || process.env.EXPOSE_TUNNEL_SERVER *)
  let server' := Agent.or_undefined (server opts) (Agent.EXPOSE_TUNNEL_SERVER env) in
  if negb (Js.truthy_opt server')
  then Exit 1 "Relay server URL required. Use --server <url> or set EXPOSE_TUNNEL_SERVER env var."
  else
    (* const apiKey = opts.apiKey || process.env.EXPOSE_TUNNEL_API_KEY *)
    let apiKey' := Agent.or_undefined (apiKey opts) (Agent.EXPOSE_TUNNEL_API_KEY env) in
    if negb (Js.truthy_opt apiKey')
    then Exit 1 "API key required. Use --api-key or set EXPOSE_TUNNEL_API_KEY env var."
    else
      (* const port = parseInt(opts.port, 10);
         if (isNaN(port) || port < 1 || port > 65535) *)
      match parseInt (port opts) with
      | Int p =>
          if (p <? 1)%Z || (65535 <? p)%Z
          then Exit 1 "Invalid port number. Must be between 1 and 65535."
          else Expose (Agent.mkTunnelOptions (Z.to_N p) None (subdomain opts) server'
                         apiKey' (Some (localHost opts)))
      | NaN => Exit 1 "Invalid port number. Must be between 1 and 65535."
      end.

End Cli.

(** ** Reference predicates, in the words of the specification *)

Module Spec.

(** TunnelId syntax: length 3..63; characters lowercase ASCII letters,
    digits and the ASCII hyphen; starts and ends with a letter or a
    digit. *)
Definition letter_or_digit (c : ascii) : Prop :=
  (N_of_ascii "a" <= N_of_ascii c <= N_of_ascii "z"
   \/ N_of_ascii "0" <= N_of_ascii c <= N_of_ascii "9")%N.

Definition TunnelId_syntax (s : string) : Prop :=
  let cs := list_ascii_of_string s in
  3 <= length cs <= 63
  /\ Forall (fun c => letter_or_digit c \/ c = "-"%char) cs
  /\ (exists c, head cs = Some c /\ letter_or_digit c)
  /\ (exists d, last cs = Some d /\ letter_or_digit d).

End Spec.

(** ** Auxiliary definitions of the proofs *)

Module Aux.
Import Http Relay.

(** The character of [CHARS] a random byte selects in
    [generateSubdomain]. *)
Definition char_of_byte (b : byte) : ascii :=
  default "?"%char
    (String.get
       (N.to_nat (Byte.to_N b mod N.of_nat (String.length Subdomain.CHARS)))
       Subdomain.CHARS).

(** The label the minting loop draws in its round [k]. *)
Definition candidate (tape : Relay.Entropy) (pos k : nat) : string :=
  Subdomain.generateSubdomain (Relay.randomBytes tape (pos + 8 * k) 8).

(** The requested label is usable: present, of TunnelId syntax, and no
    key of the registry. *)
Definition accepted_label (requested : option string)
    (registry : gmap string Relay.TunnelConnection) : Prop :=
  exists r, requested = Some r /\ Spec.TunnelId_syntax r /\ registry !! r = None.

(** The bytes of a body received in [chunks]. *)
Definition body_size (chunks : list (list byte)) : N :=
  N.of_nat (length (concat chunks)).

(** The ['data'] events of a body, delivered in order. *)
Definition feed (res : Relay.handle) (chunks : list (list byte)) (st : Relay.relay)
    : Relay.relay :=
  foldl (fun st chunk => Relay.on_data res chunk st) st chunks.

(** A scenario of the test suite: base domain [tunnel.test.local], one
    secret, one agent attached under the label [myapp], and a public
    [POST /echo] for [myapp.tunnel.test.local] whose listeners were just
    registered.  The handles are 0 for the channel, 1 for its heartbeat
    and 2 for the response of the request. *)
Definition scenario_cfg : Relay.RelayServerConfig :=
  Relay.mkConfig 4040 ["sk_test_key_123"] "tunnel.test.local" 10.

Definition scenario_tape : Relay.Entropy := fun _ => x00.

Definition scenario_handshake : Http.IncomingMessage :=
  Http.mkIncomingMessage (Some "GET") (Some "/tunnel")
    {[ "x-api-key" := Http.HStr "sk_test_key_123";
       "x-subdomain" := Http.HStr "myapp" ]}.

Definition scenario_request : Http.IncomingMessage :=
  Http.mkIncomingMessage (Some "POST") (Some "/echo")
    {[ "host" := Http.HStr "myapp.tunnel.test.local:8080";
       "content-type" := Http.HStr "application/json" ]}.

Definition scenario_state : Relay.relay :=
  default Relay.init
    (Relay.run scenario_cfg Relay.init
       [Relay.EvUpgrade 1 scenario_tape "/tunnel" scenario_handshake;
        Relay.EvRequest scenario_request]).

(** An agent attached under the label [myapp], its channel open. *)
Definition scenario_client : Agent.TunnelClient :=
  Agent.mkClient (Some 0) 0 None false "https://myapp.tunnel.test.local" "myapp"
    {[ 0 := Http.mkWebSocket Http.OPEN [] ]} ∅ [].

(** *** The relay as a machine: what every reachable state satisfies *)

(** [inv_written]: a response that was written to holds one reply and is
    ended.  [inv_open]: while the body of a request is read, its response
    is unwritten and no pending entry refers to it.  [inv_pending]: the
    response of a pending request is unwritten.  [inv_unique]: pending
    entries have distinct responses.  [inv_fresh]: a handle not allocated
    yet is used nowhere. *)
Record Inv (st : Relay.relay) : Prop := mkInv {
  inv_written : forall r w, responses st !! r = Some w ->
      exists x, w = mkServerResponse true [x];
  inv_open : forall r ing, ingresses st !! r = Some ing -> ing_closed ing = false ->
      responses st !! r = None
      /\ forall id p, pendingRequests st !! id = Some p -> pend_res p <> r;
  inv_pending : forall id p, pendingRequests st !! id = Some p ->
      responses st !! pend_res p = None;
  inv_unique : forall id id' p p',
      pendingRequests st !! id = Some p -> pendingRequests st !! id' = Some p' ->
      pend_res p = pend_res p' -> id = id';
  inv_fresh : forall r, next_handle st <= r ->
      responses st !! r = None /\ ingresses st !! r = None
      /\ forall id p, pendingRequests st !! id = Some p -> pend_res p <> r;
}.

(** *** Statuses of the relay's own replies *)

(** The statuses the relay answers with on its own account. *)
Definition OWN_STATUSES : list N := [404; 413; 500; 502; 503; 504]%N.

Definition own_reply (x : HttpReply) : Prop := In (status x) OWN_STATUSES.

(** From [st] to [st'] every response object only gained replies, each
    satisfying [P]. *)
Definition writes_only (P : HttpReply -> Prop) (st st' : relay) : Prop :=
  forall r, exists new,
    replies (response_of st' r) = replies (response_of st r) ++ new /\ Forall P new.

(** The Host header names a tunnel: the negation of the guard
    [!subdomain || subdomain === 'tunnel'] of [handleHttpRequest]. *)
Definition addressed_to_tunnel (cfg : RelayServerConfig) (req : IncomingMessage) : bool :=
  match extractSubdomain cfg (Js.or_else (req_host req) "") with
  | Some s => Js.truthy s && negb (String.eqb s "tunnel")
  | None => false
  end.

(** The event hands a [tunnel-response] frame to the relay. *)
Definition forwards_agent_reply (ev : Event) : bool :=
  match ev with
  | EvMessage _ (Some (TunnelResponseMsg _)) => true
  | _ => false
  end.

(** The event is a request for the operational surface. *)
Definition serves_surface (cfg : RelayServerConfig) (ev : Event) : bool :=
  match ev with
  | EvRequest req => negb (addressed_to_tunnel cfg req)
  | _ => false
  end.

(** *** Bodies *)

(** [res.end] of a byte sequence: [res.end()] for the empty one. *)
Definition buffer_body (bytes : list byte) : Http.Body :=
  match bytes with
  | [] => Http.BodyEmpty
  | _ => Http.BodyBuffer bytes
  end.

(** The body [handleTunnelResponse] writes for the [body] field of a
    frame. *)
Definition frame_body (b : option string) : Http.Body :=
  if Js.truthy_opt b
  then Http.end_base64 (default EmptyString b)
  else Http.BodyEmpty.

(** No header of the object is named [trailer], in whatever case of
    its letters.  On such a header [writeHead] throws when the response
    is not chunked, which depends on the framing Node chooses. *)
Definition no_trailer (headers : gmap string string) : bool :=
  bool_decide (map_Forall (fun name _ => Js.toLowerCase name <> "trailer") headers).

(** The scenario, once the two chunks [h], [i] of the body and its end
    have arrived: the request is pending under the correlation id
    [uuid-1], with the timer 3. *)
Definition scenario_events : list Relay.Event :=
  [Relay.EvUpgrade 1 scenario_tape "/tunnel" scenario_handshake;
   Relay.EvRequest scenario_request;
   Relay.EvData 2 [x68];
   Relay.EvData 2 [x69];
   Relay.EvEnd 2 "uuid-1"].

Definition scenario_pending : Relay.relay :=
  default Relay.init (Relay.run scenario_cfg Relay.init scenario_events).

(** The frame of the scenario request, and an answer of the local
    origin to it: 200, two headers, the body [Hi] in two chunks. *)
Definition scenario_frame : Http.TunnelRequest :=
  Relay.serializeRequest scenario_request [x68; x69] "uuid-1".

Definition scenario_origin : Agent.IncomingResponse :=
  Agent.mkIncomingResponse (Some 200%N)
    {[ "content-type" := Http.HStr "text/plain";
       "transfer-encoding" := Http.HStr "chunked" ]}
    [[x48]; [x69]].

(** An answer of the origin with a header whose value is empty. *)
Definition scenario_origin_headers : gmap string string :=
  {[ "content-type" := "text/plain"; "x-empty" := EmptyString ]}.

Definition scenario_origin_empty_header : Agent.IncomingResponse :=
  Agent.mkIncomingResponse (Some 200%N) (Http.HStr <$> scenario_origin_headers)
    [[x48; x69]].

(** *** The registry and the timers of a reachable state *)

(** [reg_key]: a connection is stored under its own label.
    [reg_channel]: the listeners of its socket close over that label.
    [reg_heartbeat]: a running heartbeat timer is the one of a
    registered connection.  [reg_fresh]: the socket of a connection was
    allocated.  [reg_cap]: the registry holds at most [maxTunnels]
    connections. *)
Record Registry (cfg : RelayServerConfig) (st : relay) : Prop := mkRegistry {
  reg_key : forall s conn, tunnels st !! s = Some conn -> conn_subdomain conn = s;
  reg_channel : forall s conn, tunnels st !! s = Some conn ->
      channels st !! conn_ws conn = Some s;
  reg_heartbeat : forall i s, intervals st !! i = Some s ->
      exists conn, tunnels st !! s = Some conn /\ conn_heartbeat conn = i;
  reg_fresh : forall s conn, tunnels st !! s = Some conn -> conn_ws conn < next_handle st;
  reg_cap : (N.of_nat (size (tunnels st)) <= maxTunnels cfg)%N;
}.

(** Every key of the registry passes [isValidSubdomain]. *)
Definition Labels (st : relay) : Prop :=
  forall s, is_Some (tunnels st !! s) -> Subdomain.isValidSubdomain s = true.

(** [tim_armed]: the timer of a pending request is armed, for the
    correlation id of that request.  [tim_fresh]: it was allocated. *)
Record Timers (st : relay) : Prop := mkTimers {
  tim_armed : forall id p, pendingRequests st !! id = Some p ->
      timeouts st !! pend_timeout p = Some id;
  tim_fresh : forall id p, pendingRequests st !! id = Some p ->
      pend_timeout p < next_handle st;
}.

(** One heartbeat period of a tunnel whose agent answers: the interval
    [i] fires, then the [pong] of the agent arrives on the socket [w]. *)
Definition heartbeat_round (i w : nat) (st : relay) : relay :=
  on_message w (Some Pong) (on_heartbeat i st).

(** The replies of [handleHttpRequest] for an unknown label and for a
    tunnel whose socket is not open, and the one of [stop]. *)
Definition not_found (s : string) : HttpReply :=
  mkReply 404 json_headers
    (BodyJson [("error", JStr "Tunnel not found"); ("subdomain", JStr s)]).

Definition bad_gateway : HttpReply :=
  mkReply 502 json_headers (BodyJson [("error", JStr "Tunnel client disconnected")]).

Definition shutting_down : HttpReply :=
  mkReply 503 ∅ (BodyText "Server shutting down").

(** [host.split(':')[0]] for the Host header of a request. *)
Definition hostname_of (req : IncomingMessage) : string :=
  Js.split_head ":" (Js.or_else (req_host req) "").

(** The scenario after two heartbeat periods without a [pong]: the
    socket 0 of [myapp] was terminated, its ['close'] event not yet
    delivered. *)
Definition scenario_silent : relay :=
  default init
    (run scenario_cfg init
       [EvUpgrade 1 scenario_tape "/tunnel" scenario_handshake;
        EvHeartbeat 1; EvHeartbeat 1]).

(** The scenario after an error on the socket 0 of [myapp] and a second
    handshake for the same label, on the socket 2: the ['close'] event
    of the socket 0 is still to come. *)
Definition scenario_takeover : relay :=
  default init
    (run scenario_cfg init
       [EvUpgrade 1 scenario_tape "/tunnel" scenario_handshake;
        EvWsError 0;
        EvUpgrade 1 scenario_tape "/tunnel" scenario_handshake]).

(** The scenario right after the handshake of [myapp]. *)
Definition scenario_attached : relay :=
  default init
    (run scenario_cfg init [EvUpgrade 1 scenario_tape "/tunnel" scenario_handshake]).

(** *** The entry script *)


(** *** The agent of the scenario *)

(** The options of the agent of the scenario, which forwards to
    [localhost:3000]; options that name a relay and no key, with an
    environment that holds none; a handshake that carries an empty
    key; and a stand-in for the serialiser of the error body. *)
Definition scenario_options : Agent.Options :=
  Agent.mkOptions 3000 "localhost" "myapp" "ws://localhost:4040" "sk_test_key_123"
    "localhost".

Definition scenario_keyless : Agent.TunnelOptions :=
  Agent.mkTunnelOptions 3000 None None (Some "ws://localhost:4040") None None.

Definition scenario_env : Agent.Env := Agent.mkEnv None None.

Definition scenario_keyless_handshake : IncomingMessage :=
  mkIncomingMessage (Some "GET") (Some "/tunnel") {[ "x-api-key" := HStr EmptyString ]}.

Definition scenario_utf8 (j : json) : list byte := [x7b; x7d].

(** *** The command line *)

(** The string begins with a decimal digit. *)
Definition starts_with_digit (s : string) : bool :=
  match s with
  | String c _ => bool_decide (is_Some (Cli.digit c))
  | EmptyString => false
  end.

(** Every character of the string is white space. *)
Definition all_white (s : string) : Prop :=
  Forall (fun c => Cli.is_white c = true) (list_ascii_of_string s).

(** Options of the command of the scenario: the port typed with a
    space before it and a unit after it. *)
Definition scenario_opts : Cli.Opts :=
  Cli.mkOpts " 3000/tcp" (Some "myapp") (Some "ws://localhost:4040")
    (Some "sk_test_key_123") "localhost".

End Aux.

(* ================================================================== *)
(** * Properties *)

(** ** JavaScript string primitives *)

Module JsFacts.
Import Js.

Lemma app_cons c a b : String c a +:+ b = String c (a +:+ b).
Proof. reflexivity. Qed.

Lemma app_nil_l b : EmptyString +:+ b = b.
Proof. reflexivity. Qed.

Lemma length_app a b : String.length (a +:+ b) = String.length a + String.length b.
Proof. induction a as [|c a IH]; [done|]. rewrite app_cons. simpl. by rewrite IH. Qed.

Lemma substring_0_length b : substring 0 (String.length b) b = b.
Proof. induction b as [|c b IH]; simpl; [done | by rewrite IH]. Qed.

Lemma substring_app_l a b : substring 0 (String.length a) (a +:+ b) = a.
Proof.
  induction a as [|c a IH]; [by destruct b|]. rewrite app_cons. simpl. by rewrite IH.
Qed.

Lemma substring_app_r a b :
  substring (String.length a) (String.length b) (a +:+ b) = b.
Proof.
  induction a as [|c a IH]; [apply substring_0_length|]. by rewrite app_cons.
Qed.

Lemma substring_split s : forall n,
  n <= String.length s ->
  substring 0 n s +:+ substring n (String.length s - n) s = s.
Proof.
  induction s as [|c s IH]; intros [|n] Hn; simpl in *; try done; try lia.
  - by rewrite app_nil_l, substring_0_length.
  - rewrite app_cons, IH; [done | lia].
Qed.

Lemma endsWith_iff s suffix :
  endsWith s suffix = true <-> exists p, s = p +:+ suffix.
Proof.
  unfold endsWith. split.
  - destruct (String.length suffix <=? String.length s) eqn:Hle; [|done].
    apply Nat.leb_le in Hle. intros Heq%String.eqb_eq.
    set (n := String.length s - String.length suffix) in *.
    exists (substring 0 n s).
    pose proof (substring_split s n ltac:(lia)) as Hs.
    replace (String.length s - n) with (String.length suffix) in Hs by lia.
    by rewrite Heq in Hs.
  - intros [p ->]. rewrite length_app.
    rewrite (proj2 (Nat.leb_le _ _)) by lia.
    replace (String.length p + String.length suffix - String.length suffix)
      with (String.length p) by lia.
    rewrite substring_app_r. apply String.eqb_refl.
Qed.

Lemma slice0_strip p suffix :
  suffix <> EmptyString ->
  slice0 (p +:+ suffix) (- Z.of_nat (String.length suffix)) = p.
Proof.
  intros Hne. unfold slice0. rewrite length_app.
  assert (0 < String.length suffix) by (destruct suffix; [done | simpl; lia]).
  rewrite (proj2 (Z.ltb_lt _ _)) by lia.
  replace (Z.to_nat _) with (String.length p) by lia.
  apply substring_app_l.
Qed.

End JsFacts.

(** ** The derivative matcher decides the language *)

Module RegexFacts.
Import Regex.

Lemma lang_none_inv s : lang RNone s -> False.
Proof. inversion 1. Qed.

Lemma lang_eps_inv s : lang REps s -> s = [].
Proof. by inversion 1. Qed.

Lemma lang_class_inv p s : lang (RClass p) s -> exists a, s = [a] /\ p a = true.
Proof. inversion 1; subst; eauto. Qed.

Lemma lang_seq_inv r1 r2 s :
  lang (RSeq r1 r2) s -> exists s1 s2, s = s1 ++ s2 /\ lang r1 s1 /\ lang r2 s2.
Proof. inversion 1; subst; eauto. Qed.

Lemma lang_alt_inv r1 r2 s : lang (RAlt r1 r2) s -> lang r1 s \/ lang r2 s.
Proof. inversion 1; subst; eauto. Qed.

Lemma lang_star_inv r a s :
  lang (RStar r) (a :: s) ->
  exists s1 s2, s = s1 ++ s2 /\ lang r (a :: s1) /\ lang (RStar r) s2.
Proof. inversion 1; subst; eauto. Qed.

Lemma lang_seq_cons r1 r2 a s1 s2 :
  lang r1 (a :: s1) -> lang r2 s2 -> lang (RSeq r1 r2) (a :: s1 ++ s2).
Proof. intros H1 H2. apply (lang_seq r1 r2 (a :: s1) s2 H1 H2). Qed.

Lemma lang_seq_nil_l r1 r2 s : lang r1 [] -> lang r2 s -> lang (RSeq r1 r2) s.
Proof. intros H1 H2. apply (lang_seq r1 r2 [] s H1 H2). Qed.

Lemma nullable_lang r : nullable r = true <-> lang r [].
Proof.
  induction r as [| |p|r1 IH1 r2 IH2|r1 IH1 r2 IH2|r IH]; simpl.
  - split; [discriminate | by intros ?%lang_none_inv].
  - split; [constructor | reflexivity].
  - split; [discriminate | by intros (a & ? & _)%lang_class_inv].
  - rewrite andb_true_iff, IH1, IH2. split.
    + intros [H1 H2]. by apply lang_seq_nil_l.
    + intros (s1 & s2 & Heq & H1 & H2)%lang_seq_inv.
      symmetry in Heq. apply app_eq_nil in Heq as [-> ->]. by split.
  - rewrite orb_true_iff, IH1, IH2. split.
    + intros [H|H]; [by apply lang_alt_l | by apply lang_alt_r].
    + apply lang_alt_inv.
  - split; [constructor | reflexivity].
Qed.

Lemma deriv_lang a r : forall s, lang (deriv a r) s <-> lang r (a :: s).
Proof.
  induction r as [| |p|r1 IH1 r2 IH2|r1 IH1 r2 IH2|r IH]; intros s; simpl.
  - split; by intros ?%lang_none_inv.
  - split; [by intros ?%lang_none_inv | by intros ?%lang_eps_inv].
  - destruct (p a) eqn:Hp; split.
    + intros ->%lang_eps_inv. by constructor.
    + intros (b & [= <- ->] & _)%lang_class_inv. constructor.
    + by intros ?%lang_none_inv.
    + intros (b & [= <- ->] & Hb)%lang_class_inv. congruence.
  - assert (Hback : lang (RSeq r1 r2) (a :: s) ->
              (exists s1 s2, s = s1 ++ s2 /\ lang r1 (a :: s1) /\ lang r2 s2)
              \/ (lang r1 [] /\ lang r2 (a :: s))).
    { intros (s1 & s2 & Heq & H1 & H2)%lang_seq_inv.
      destruct s1 as [|b s1]; simpl in Heq.
      - right. by subst s2.
      - injection Heq as <- ->. left. eauto. }
    destruct (nullable r1) eqn:Hn; split.
    + intros [(s1 & s2 & -> & H1 & H2)%lang_seq_inv | H]%lang_alt_inv.
      * apply lang_seq_cons; [by apply IH1 | done].
      * apply lang_seq_nil_l; [by apply nullable_lang | by apply IH2].
    + intros [(s1 & s2 & -> & H1 & H2) | [_ H2]]%Hback.
      * apply lang_alt_l. constructor; [by apply IH1 | done].
      * apply lang_alt_r. by apply IH2.
    + intros (s1 & s2 & -> & H1 & H2)%lang_seq_inv.
      apply lang_seq_cons; [by apply IH1 | done].
    + intros [(s1 & s2 & -> & H1 & H2) | [H1 _]]%Hback.
      * constructor; [by apply IH1 | done].
      * apply nullable_lang in H1. congruence.
  - split.
    + intros [H|H]%lang_alt_inv; [apply lang_alt_l, IH1 | apply lang_alt_r, IH2]; done.
    + intros [H|H]%lang_alt_inv; [apply lang_alt_l, IH1 | apply lang_alt_r, IH2]; done.
  - split.
    + intros (s1 & s2 & -> & H1 & H2)%lang_seq_inv.
      apply lang_star_cons; [by apply IH | done].
    + intros (s1 & s2 & -> & H1 & H2)%lang_star_inv.
      constructor; [by apply IH | done].
Qed.

Lemma matches_lang r s : matches r s = true <-> lang r s.
Proof.
  revert r. induction s as [|a s IH]; intros r; simpl.
  - apply nullable_lang.
  - rewrite IH. apply deriv_lang.
Qed.

(** A starred bracket expression matches the strings over the class. *)
Lemma lang_star_class p s :
  lang (RStar (RClass p)) s <-> Forall (fun c => p c = true) s.
Proof.
  split.
  - remember (RStar (RClass p)) as r eqn:Hr. intros H.
    induction H as [| | | | | |r' a s1 s2 H1 _ H2 IH2]; try discriminate.
    + constructor.
    + injection Hr as ->. inversion H1; subst. simpl.
      constructor; [done | by apply IH2].
  - induction 1 as [|c s Hc _ IH].
    + constructor.
    + change (c :: s) with (c :: [] ++ s).
      apply lang_star_cons; [by constructor | done].
Qed.

End RegexFacts.

(** ** utils/subdomain.ts: the label syntax *)

Module SubdomainFacts.
Import Regex RegexFacts Subdomain Aux.

Lemma length_list_ascii s : length (list_ascii_of_string s) = String.length s.
Proof. induction s; simpl; congruence. Qed.

Lemma alnum_spec c : alnum c = true <-> Spec.letter_or_digit c.
Proof.
  unfold alnum, is_lower, is_digit, Spec.letter_or_digit.
  rewrite orb_true_iff, !andb_true_iff, !N.leb_le. simpl. tauto.
Qed.

Lemma alnum_hyphen_spec c :
  alnum_hyphen c = true <-> Spec.letter_or_digit c \/ c = "-"%char.
Proof.
  unfold alnum_hyphen. rewrite orb_true_iff, alnum_spec, Ascii.eqb_eq. tauto.
Qed.

(** The strings of the pattern: one [[a-z0-9]], then nothing, or any
    run of [[a-z0-9-]] closed by one [[a-z0-9]]. *)
Lemma lang_SUBDOMAIN_RE cs :
  lang SUBDOMAIN_RE cs <->
  exists c rest, cs = c :: rest /\ alnum c = true /\
    (rest = [] \/ exists mid d, rest = mid ++ [d] /\
                    Forall (fun x => alnum_hyphen x = true) mid /\ alnum d = true).
Proof.
  unfold SUBDOMAIN_RE, ROpt. split.
  - intros (s1 & s2 & -> & (c & -> & Hc)%lang_class_inv & Hopt)%lang_seq_inv.
    exists c, s2. split; [done|]. split; [done|].
    apply lang_alt_inv in Hopt as [Hseq | ->%lang_eps_inv]; [|by left].
    right. apply lang_seq_inv in Hseq as (mid & t & -> & Hmid & Hd).
    apply lang_class_inv in Hd as (d & -> & Hd).
    exists mid, d. by rewrite <- lang_star_class.
  - intros (c & rest & -> & Hc & Hrest).
    apply (lang_seq _ _ [c] rest); [by constructor|].
    destruct Hrest as [-> | (mid & d & -> & Hmid & Hd)].
    + apply lang_alt_r. constructor.
    + apply lang_alt_l. constructor; [by apply lang_star_class | by constructor].
Qed.

Lemma alnum_is_alnum_hyphen c : alnum c = true -> alnum_hyphen c = true.
Proof. unfold alnum_hyphen. by intros ->. Qed.

Lemma test_SUBDOMAIN_RE s :
  test SUBDOMAIN_RE s = true <->
  let cs := list_ascii_of_string s in
  Forall (fun c => alnum_hyphen c = true) cs
  /\ (exists c, head cs = Some c /\ alnum c = true)
  /\ (exists d, last cs = Some d /\ alnum d = true).
Proof.
  unfold test. rewrite matches_lang, lang_SUBDOMAIN_RE.
  generalize (list_ascii_of_string s) as cs. intros cs. simpl. split.
  - intros (c & rest & -> & Hc & [-> | (mid & d & -> & Hmid & Hd)]).
    + repeat split; eauto using alnum_is_alnum_hyphen.
    + split; [|split].
      * constructor; [by apply alnum_is_alnum_hyphen|].
        apply Forall_app. split; [done|]. constructor; [|done].
        by apply alnum_is_alnum_hyphen.
      * by exists c.
      * exists d. split; [|done].
        change (c :: mid ++ [d]) with ((c :: mid) ++ [d]). apply last_snoc.
  - intros (Hall & (c & Hhd & Hc) & (d & Hlast & Hd)).
    destruct cs as [|c' rest]; [done|]. injection Hhd as ->.
    exists c, rest. split; [done|]. split; [done|].
    destruct rest as [|x rest']; [by left | right].
    rewrite last_cons_cons in Hlast.
    apply last_Some in Hlast as [mid Hmid]. exists mid, d.
    split; [done|]. split; [|done].
    apply Forall_cons in Hall as [_ Hall]. rewrite Hmid in Hall.
    by apply Forall_app in Hall as [? _].
Qed.

Lemma isValidSubdomain_iff s :
  isValidSubdomain s = true <-> Spec.TunnelId_syntax s.
Proof.
  unfold isValidSubdomain, Spec.TunnelId_syntax.
  cbv zeta. rewrite length_list_ascii.
  destruct (String.length s <? 3)%nat eqn:Hlo; simpl.
  { apply Nat.ltb_lt in Hlo. split; [done | lia]. }
  destruct (63 <? String.length s)%nat eqn:Hhi; simpl.
  { apply Nat.ltb_lt in Hhi. split; [done | lia]. }
  apply Nat.ltb_ge in Hlo, Hhi.
  rewrite test_SUBDOMAIN_RE. cbv zeta.
  setoid_rewrite alnum_spec. setoid_rewrite alnum_hyphen_spec. tauto.
Qed.

(** *** generateSubdomain *)

Lemma get_CHARS b :
  String.get (N.to_nat (Byte.to_N b mod N.of_nat (String.length CHARS))) CHARS
  = Some (char_of_byte b).
Proof. by destruct b. Qed.

Lemma char_of_byte_alnum b : alnum (char_of_byte b) = true.
Proof. by destruct b. Qed.

Lemma generateSubdomain_8 b0 b1 b2 b3 b4 b5 b6 b7 :
  generateSubdomain [b0; b1; b2; b3; b4; b5; b6; b7]
  = string_of_list_ascii (map char_of_byte [b0; b1; b2; b3; b4; b5; b6; b7]).
Proof.
  unfold generateSubdomain, pick. cbn [seq fold_left lookup list_lookup].
  by rewrite !get_CHARS.
Qed.

Lemma generateSubdomain_randomBytes tape pos :
  generateSubdomain (Relay.randomBytes tape pos 8)
  = string_of_list_ascii (map char_of_byte (Relay.randomBytes tape pos 8)).
Proof. unfold Relay.randomBytes. cbn [seq map]. apply generateSubdomain_8. Qed.

(** A minted label has 8 characters of [[a-z0-9]], hence the syntax of
    a TunnelId. *)
Lemma generateSubdomain_shape tape pos :
  let m := generateSubdomain (Relay.randomBytes tape pos 8) in
  String.length m = 8
  /\ Forall Spec.letter_or_digit (list_ascii_of_string m)
  /\ isValidSubdomain m = true.
Proof.
  cbv zeta. rewrite generateSubdomain_randomBytes.
  set (cs := map char_of_byte (Relay.randomBytes tape pos 8)).
  assert (Hlen : length cs = 8) by done.
  assert (Hall : Forall (fun c => alnum c = true) cs).
  { apply Forall_map, Forall_forall. intros b _. apply char_of_byte_alnum. }
  assert (Hshape : String.length (string_of_list_ascii cs) = 8
                   /\ Forall Spec.letter_or_digit
                        (list_ascii_of_string (string_of_list_ascii cs))).
  { rewrite <- length_list_ascii, list_ascii_of_string_of_list_ascii.
    split; [done|]. eapply Forall_impl; [exact Hall|]. intros c. apply alnum_spec. }
  destruct Hshape as [Hl Hf]. split; [done|]. split; [done|].
  apply isValidSubdomain_iff. unfold Spec.TunnelId_syntax. cbv zeta.
  rewrite list_ascii_of_string_of_list_ascii in *.
  split; [lia|]. split; [|split].
  - eapply Forall_impl; [exact Hall|]. intros c Hc. left. by apply alnum_spec.
  - destruct cs as [|c cs']; [done|]. exists c. split; [done|].
    apply alnum_spec. by apply Forall_cons in Hall as [? _].
  - destruct (last cs) as [d|] eqn:Hd.
    + exists d. split; [done|]. apply alnum_spec.
      apply last_Some_elem_of in Hd. rewrite Forall_forall in Hall. by apply Hall.
    + apply last_None in Hd. by rewrite Hd in Hlen.
Qed.

End SubdomainFacts.

(** C7. [isValidSubdomain s] is true exactly when [s] has between 3 and
    63 characters, each a lowercase ASCII letter, a digit or a hyphen,
    the first and the last a letter or a digit.  The second part runs
    the boundary cases of the test suite: lengths 3 and 63 accepted,
    2 and 64 rejected, a leading or trailing hyphen rejected, interior
    hyphens accepted, uppercase rejected. *)
Theorem isValidSubdomain_spec :
  (forall s, Subdomain.isValidSubdomain s = true <-> Spec.TunnelId_syntax s)
  /\ Subdomain.isValidSubdomain "abc" = true
  /\ Subdomain.isValidSubdomain
       "aaaaaaaaaaaaaaaaaaaaaaaaaaaaaaaaaaaaaaaaaaaaaaaaaaaaaaaaaaaaaaa" = true
  /\ Subdomain.isValidSubdomain "ab" = false
  /\ Subdomain.isValidSubdomain
       "aaaaaaaaaaaaaaaaaaaaaaaaaaaaaaaaaaaaaaaaaaaaaaaaaaaaaaaaaaaaaaaa" = false
  /\ Subdomain.isValidSubdomain "-myapp" = false
  /\ Subdomain.isValidSubdomain "myapp-" = false
  /\ Subdomain.isValidSubdomain "my-cool-app" = true
  /\ Subdomain.isValidSubdomain "MyApp" = false.
Proof.
  split; [apply SubdomainFacts.isValidSubdomain_iff | by vm_compute].
Qed.

(** ** server/auth.ts and the upgrade handler *)

Module AuthFacts.
Import Auth.

Lemma truthy_nonempty k : Js.truthy k = true <-> k <> EmptyString.
Proof. destruct k; simpl; split; congruence. Qed.

Lemma includes_In validKeys k : includes validKeys k = true <-> In k validKeys.
Proof.
  unfold includes. rewrite existsb_exists. split.
  - intros (x & Hin & ->%String.eqb_eq). done.
  - intros Hin. exists k. split; [done | apply String.eqb_refl].
Qed.

Lemma validateApiKey_true key validKeys :
  validateApiKey key validKeys = true <->
  exists k, key = Some k /\ k <> EmptyString /\ In k validKeys.
Proof.
  unfold validateApiKey. destruct key as [k|]; [|split; [done | by intros (? & ? & _)]].
  destruct (Js.truthy k) eqn:Hk; cbn [negb orb].
  - destruct validKeys as [|v vs]; cbn [length Nat.eqb].
    + split; [done | by intros (? & _ & _ & [])].
    + rewrite includes_In. split.
      * intros Hin. exists k. by rewrite <- truthy_nonempty.
      * by intros (k' & [= <-] & _ & Hin).
  - split; [done|]. intros (k' & [= <-] & Hne & _).
    apply truthy_nonempty in Hne. congruence.
Qed.

Lemma validateApiKey_false key validKeys :
  (key = None \/ exists k, key = Some k /\ ~ In k validKeys) ->
  validateApiKey key validKeys = false.
Proof.
  intros H. apply not_true_is_false. rewrite validateApiKey_true.
  intros (k & -> & _ & Hin). destruct H as [|(k' & [= <-] & Hnot)]; done.
Qed.

End AuthFacts.

(** C10. [validateApiKey key validKeys] is true exactly when [key] is a
    non-empty string and a member of [validKeys]; with an empty
    [validKeys] it is false for every key, and the upgrade handler of a
    relay configured with no secret answers every handshake on
    [/tunnel] with 401, whatever the request and the state. *)
Theorem validateApiKey_fails_closed :
  (forall key validKeys,
      Auth.validateApiKey key validKeys = true <->
      exists k, key = Some k /\ k <> EmptyString /\ In k validKeys)
  /\ (forall key, Auth.validateApiKey key [] = false)
  /\ (forall port domain maxTunnels fuel tape req st,
         Relay.on_upgrade (Relay.mkConfig port [] domain maxTunnels) fuel tape "/tunnel" req st
         = Some (Relay.Rejected (Some (Relay.mkRaw 401 "Unauthorized" [] None)), st)).
Proof.
  assert (Hnil : forall key, Auth.validateApiKey key [] = false).
  { intros key. apply not_true_is_false. rewrite AuthFacts.validateApiKey_true.
    by intros (k & _ & _ & []). }
  split; [apply AuthFacts.validateApiKey_true|]. split; [done|].
  intros. unfold Relay.on_upgrade, Relay.admission. simpl. by rewrite Hnil.
Qed.

(** C5. On an upgrade request to [/tunnel]: a missing [x-api-key], or
    one that is no member of the configured secrets, is answered 401,
    whatever the tunnel count; an accepted key with the tunnel count at
    the maximum is answered 503 with the JSON error body.  Either way
    the handler returns the state it was given: no registry entry, no
    heartbeat, the same count. *)
Theorem upgrade_rejections cfg fuel tape req st :
  ((Relay.header req "x-api-key" = None
    \/ exists k, Relay.header req "x-api-key" = Some k /\ ~ In k (Relay.apiKeys cfg)) ->
   Relay.on_upgrade cfg fuel tape "/tunnel" req st
   = Some (Relay.Rejected (Some (Relay.mkRaw 401 "Unauthorized" [] None)), st))
  /\ (Auth.validateApiKey (Relay.header req "x-api-key") (Relay.apiKeys cfg) = true ->
      (Relay.maxTunnels cfg <= N.of_nat (size (Relay.tunnels st)))%N ->
      Relay.on_upgrade cfg fuel tape "/tunnel" req st
      = Some (Relay.Rejected
                (Some (Relay.mkRaw 503 "Service Unavailable"
                         [("Content-Type", "application/json")]
                         (Some [("error", Http.JStr "Max tunnel limit reached");
                                ("limit", Http.JNum (Relay.maxTunnels cfg))]))), st)).
Proof.
  unfold Relay.on_upgrade, Relay.admission. simpl. split.
  - intros H. by rewrite (AuthFacts.validateApiKey_false _ _ H).
  - intros -> Hmax. simpl. apply N.leb_le in Hmax. by rewrite Hmax.
Qed.

(** ** The handshake: which label a channel gets *)

Module HandshakeFacts.
Import Relay Aux.

Lemma mint_sound fuel taken tape : forall pos m,
  mint fuel taken tape pos = Some m ->
  taken !! m = None
  /\ String.length m = 8
  /\ Forall Spec.letter_or_digit (list_ascii_of_string m)
  /\ Subdomain.isValidSubdomain m = true.
Proof.
  induction fuel as [|fuel IH]; intros pos m; simpl; [done|].
  case_bool_decide as Htaken.
  - apply IH.
  - intros [= <-]. split.
    + by apply eq_None_not_Some.
    + apply SubdomainFacts.generateSubdomain_shape.
Qed.

Lemma mint_complete fuel taken tape : forall pos,
  (exists k, k < fuel /\ taken !! candidate tape pos k = None) ->
  is_Some (mint fuel taken tape pos).
Proof.
  induction fuel as [|fuel IH]; intros pos (k & Hk & Hfree); [lia|]. simpl.
  case_bool_decide as Htaken; [|done].
  apply IH. destruct k as [|k].
  - unfold candidate in Hfree. rewrite Nat.mul_0_r, Nat.add_0_r in Hfree.
    rewrite Hfree in Htaken. by destruct Htaken.
  - exists k. split; [lia|]. unfold candidate in *.
    by replace (pos + 8 + 8 * k) with (pos + 8 * S k) by lia.
Qed.

Lemma resolve_accepted fuel tape requested st r :
  requested = Some r -> Spec.TunnelId_syntax r -> tunnels st !! r = None ->
  resolveSubdomain fuel tape requested st = Some r.
Proof.
  intros -> Hsyn Hfree. unfold resolveSubdomain.
  apply SubdomainFacts.isValidSubdomain_iff in Hsyn as Hvalid. rewrite Hvalid.
  assert (Js.truthy r = true) as ->.
  { destruct r; [|done]. by vm_compute in Hvalid. }
  rewrite bool_decide_eq_false_2; [done|]. rewrite Hfree. by intros [? ?].
Qed.

Lemma resolve_minted fuel tape requested st :
  ~ accepted_label requested (tunnels st) ->
  resolveSubdomain fuel tape requested st = mint fuel (tunnels st) tape 0.
Proof.
  intros Hno. unfold resolveSubdomain. destruct requested as [r|]; [|done].
  destruct (Js.truthy r && Subdomain.isValidSubdomain r
            && negb (bool_decide (is_Some (tunnels st !! r)))) eqn:Hc; [|done].
  destruct Hno. exists r. split; [done|].
  apply andb_true_iff in Hc as [[_ Hv]%andb_true_iff Hfree%negb_true_iff].
  split; [by apply SubdomainFacts.isValidSubdomain_iff|].
  apply bool_decide_eq_false in Hfree. by apply eq_None_not_Some.
Qed.

(** The registry after a handshake: the one before it, with the
    resolved label bound to the new connection. *)
Lemma handleWebSocketConnection_tunnels cfg fuel tape req st :
  tunnels <$> handleWebSocketConnection cfg fuel tape req st
  = (fun subdomain =>
       <[ subdomain := mkConn (next_handle st) subdomain (S (next_handle st)) true ]>
         (tunnels st))
    <$> resolveSubdomain fuel tape (header req "x-subdomain") st.
Proof.
  unfold handleWebSocketConnection. simpl.
  set (st1 := with_sockets _ _).
  assert (resolveSubdomain fuel tape (header req "x-subdomain") st1
          = resolveSubdomain fuel tape (header req "x-subdomain") st) as -> by done.
  by destruct (resolveSubdomain _ _ _ st).
Qed.

End HandshakeFacts.

(** C4. At handshake the relay binds the requested label exactly when
    the [x-subdomain] header is present, its value has the TunnelId
    syntax and it is no key of the registry; this needs no random draw.
    In every other case a handshake that returns has bound a minted
    label: 8 characters of [[a-z0-9]], no key of the registry before the
    insertion, and not the requested value; and the handshake does
    return as soon as one of the draws within the rounds it is given is
    a free label. *)
Theorem handshake_label cfg fuel tape req st :
  let requested := Relay.header req "x-subdomain" in
  let bound (subdomain : string) (st' : Relay.relay) :=
    Relay.tunnels st'
    = <[ subdomain := Relay.mkConn (Relay.next_handle st) subdomain
                        (S (Relay.next_handle st)) true ]> (Relay.tunnels st) in
  (forall r, requested = Some r -> Spec.TunnelId_syntax r -> Relay.tunnels st !! r = None ->
     exists st', Relay.handleWebSocketConnection cfg fuel tape req st = Some st'
                 /\ bound r st')
  /\ (~ Aux.accepted_label requested (Relay.tunnels st) ->
      (forall st', Relay.handleWebSocketConnection cfg fuel tape req st = Some st' ->
         exists m, bound m st'
                   /\ requested <> Some m
                   /\ String.length m = 8
                   /\ Forall Spec.letter_or_digit (list_ascii_of_string m)
                   /\ Relay.tunnels st !! m = None)
      /\ ((exists k, k < fuel /\ Relay.tunnels st !! Aux.candidate tape 0 k = None) ->
          is_Some (Relay.handleWebSocketConnection cfg fuel tape req st))).
Proof.
  cbv zeta.
  pose proof (HandshakeFacts.handleWebSocketConnection_tunnels cfg fuel tape req st) as Ht.
  split.
  - intros r Hreq Hsyn Hfree.
    rewrite (HandshakeFacts.resolve_accepted _ _ _ _ r Hreq Hsyn Hfree) in Ht.
    destruct (Relay.handleWebSocketConnection cfg fuel tape req st) as [st'|]; [|done].
    exists st'. split; [done|]. by injection Ht.
  - intros Hno. rewrite (HandshakeFacts.resolve_minted _ _ _ _ Hno) in Ht. split.
    + intros st' Hst'. rewrite Hst' in Ht.
      destruct (Relay.mint fuel (Relay.tunnels st) tape 0) as [m|] eqn:Hm; [|done].
      injection Ht as Ht. exists m. split; [done|].
      apply HandshakeFacts.mint_sound in Hm as (Hfree & Hlen & Hall & Hvalid).
      repeat split; try done.
      intros Hreq. apply Hno. exists m. split; [done|]. split; [|done].
      by apply SubdomainFacts.isValidSubdomain_iff.
    + intros Hk. apply (HandshakeFacts.mint_complete _ _ _ 0) in Hk as [m Hm].
      rewrite Hm in Ht.
      by destruct (Relay.handleWebSocketConnection cfg fuel tape req st).
Qed.

(** ** The HTTP ingress: dispatch on the Host header *)

Module DispatchFacts.
Import Http Relay.

Lemma extractSubdomain_Some cfg host s :
  extractSubdomain cfg host = Some s
  <-> Js.split_head ":" host = s +:+ "." +:+ domain cfg.
Proof.
  unfold extractSubdomain. cbv zeta.
  set (hostname := Js.split_head ":" host). set (suffix := "." +:+ domain cfg).
  assert (Hlen : (- (Z.of_nat (String.length (domain cfg)) + 1)
                  = - Z.of_nat (String.length suffix))%Z).
  { unfold suffix. rewrite JsFacts.length_app. simpl String.length. lia. }
  assert (Hne : suffix <> EmptyString) by done.
  rewrite Hlen. split.
  - destruct (String.eqb hostname (domain cfg)); [done|].
    destruct (Js.endsWith hostname suffix) eqn:Hends; [|done].
    apply JsFacts.endsWith_iff in Hends as [p ->].
    rewrite JsFacts.slice0_strip by done. by intros [= ->].
  - intros ->.
    assert (String.eqb (s +:+ suffix) (domain cfg) = false) as ->.
    { apply String.eqb_neq. intros Heq. apply (f_equal String.length) in Heq.
      unfold suffix in Heq. rewrite !JsFacts.length_app in Heq. simpl in Heq. lia. }
    rewrite (proj2 (JsFacts.endsWith_iff _ _)) by eauto.
    by rewrite JsFacts.slice0_strip.
Qed.

Lemma extractSubdomain_None cfg host :
  extractSubdomain cfg host = None
  <-> ~ exists s, Js.split_head ":" host = s +:+ "." +:+ domain cfg.
Proof.
  split.
  - intros Hnone [s Hs%extractSubdomain_Some]. congruence.
  - intros Hno. destruct (extractSubdomain cfg host) as [s|] eqn:Hs; [|done].
    destruct Hno. exists s. by apply extractSubdomain_Some.
Qed.

End DispatchFacts.

(** C3 (as amended). For a request whose hostname, the Host header up
    to its first colon, is [s.<baseDomain>] with [s] neither empty nor
    the word [tunnel], the relay looks [s] up in the registry: without a
    tunnel under [s] it answers 404 with a JSON body naming [s]; with a
    tunnel whose channel is open it starts reading the body; with one
    whose channel is not open it answers 502 and reaps the entry.  The
    operational surface is served to a hostname that has no such form
    (the base domain itself, an empty or an unrelated name) and also to
    the labels [tunnel] and the empty one. *)
Theorem http_dispatch cfg req res st :
  let hostname := Js.split_head ":" (Js.or_else (Http.req_host req) "") in
  (forall s, hostname = s +:+ "." +:+ Relay.domain cfg ->
             s <> EmptyString -> s <> "tunnel" ->
     Relay.handleHttpRequest cfg req res st
     = match Relay.tunnels st !! s with
       | None =>
           Relay.respond res
             (Http.mkReply 404 Relay.json_headers
                (Http.BodyJson [("error", Http.JStr "Tunnel not found");
                                ("subdomain", Http.JStr s)])) st
       | Some tunnel =>
           if Http.is_open (Relay.socket_of st (Relay.conn_ws tunnel))
           then Relay.with_ingresses
                  (insert res (Relay.mkIngress req (Relay.conn_ws tunnel) [] 0 Relay.Reading)) st
           else Relay.removeTunnel s
                  (Relay.respond res
                     (Http.mkReply 502 Relay.json_headers
                        (Http.BodyJson [("error", Http.JStr "Tunnel client disconnected")]))
                     st)
       end)
  /\ ((~ (exists s, hostname = s +:+ "." +:+ Relay.domain cfg)
       \/ hostname = "." +:+ Relay.domain cfg
       \/ hostname = "tunnel." +:+ Relay.domain cfg) ->
      Relay.handleHttpRequest cfg req res st = Relay.surface cfg req res st).
Proof.
  cbv zeta. unfold Relay.handleHttpRequest. split.
  - intros s Hs%DispatchFacts.extractSubdomain_Some Hne Hnt. rewrite Hs.
    assert (Js.truthy s = true) as -> by (by destruct s).
    assert (String.eqb s "tunnel" = false) as -> by (by apply String.eqb_neq).
    simpl. destruct (Relay.tunnels st !! s) as [tunnel|]; [|done].
    by destruct (Http.is_open _).
  - intros [Hno | [Hs | Hs]].
    + apply DispatchFacts.extractSubdomain_None in Hno. by rewrite Hno.
    + change ("." +:+ Relay.domain cfg)
        with (EmptyString +:+ "." +:+ Relay.domain cfg) in Hs.
      apply DispatchFacts.extractSubdomain_Some in Hs. by rewrite Hs.
    + change ("tunnel." +:+ Relay.domain cfg)
        with ("tunnel" +:+ "." +:+ Relay.domain cfg) in Hs.
      apply DispatchFacts.extractSubdomain_Some in Hs. by rewrite Hs.
Qed.

(** C3, the counterexample.  On base domain [tunnel.test.local], with no
    tunnel registered, [GET /test] for host [tunnel.tunnel.test.local]
    has a hostname of the form [s.<baseDomain>] with [s = tunnel]; the
    relay answers with the banner and status 200, not with 404. *)
Lemma label_tunnel_is_not_routed :
  let cfg := Relay.mkConfig 4040 ["sk_test_key_123"] "tunnel.test.local" 10 in
  let req := Http.mkIncomingMessage (Some "GET") (Some "/test")
               {[ "host" := Http.HStr "tunnel.tunnel.test.local" ]} in
  Js.split_head ":" (Js.or_else (Http.req_host req) "")
  = "tunnel" +:+ "." +:+ Relay.domain cfg
  /\ Relay.tunnels Relay.init !! "tunnel" = None
  /\ Relay.response_of (Relay.handleHttpRequest cfg req 0 Relay.init) 0
     = Http.mkServerResponse true
         [Http.mkReply 200 Relay.text_headers (Http.BodyText Relay.BANNER)]
  /\ Http.status <$> Http.replies
        (Relay.response_of (Relay.handleHttpRequest cfg req 0 Relay.init) 0)
     <> [404%N].
Proof. by vm_compute. Qed.

(** ** The HTTP ingress: reading the body *)

Module IngressFacts.
Import Http Relay Aux.

Lemma relay_eta st :
  mkRelay (tunnels st) (pendingRequests st) (sockets st) (channels st)
    (responses st) (ingresses st) (timeouts st) (intervals st) (next_handle st) = st.
Proof. by destruct st. Qed.

Lemma with_ingresses_insert_insert res a b st :
  with_ingresses (insert res b) (with_ingresses (insert res a) st)
  = with_ingresses (insert res b) st.
Proof. unfold with_ingresses. simpl. by rewrite insert_insert_eq. Qed.

Lemma with_ingresses_insert_id res ing st :
  ingresses st !! res = Some ing -> with_ingresses (insert res ing) st = st.
Proof.
  intros H. unfold with_ingresses. rewrite insert_id by done. apply relay_eta.
Qed.

Lemma body_size_cons c cs :
  body_size (c :: cs) = (N.of_nat (length c) + body_size cs)%N.
Proof. unfold body_size. simpl. rewrite length_app. lia. Qed.

Lemma run_feed cfg res chunks evs : forall st,
  run cfg st (map (EvData res) chunks ++ evs) = run cfg (feed res chunks st) evs.
Proof. induction chunks as [|c cs IH]; intros st; simpl; [done | apply IH]. Qed.

(** A closed stream delivers no further chunk. *)
Lemma feed_closed res chunks : forall st ing,
  ingresses st !! res = Some ing -> ing_closed ing = true ->
  feed res chunks st = st.
Proof.
  induction chunks as [|c cs IH]; intros st ing Hing Hclosed; simpl; [done|].
  unfold on_data at 1. rewrite Hing, Hclosed. by eapply IH.
Qed.

(** Within the cap the chunks are collected. *)
Lemma feed_within res chunks : forall st req w acc size,
  ingresses st !! res = Some (mkIngress req w acc size Reading) ->
  (size + body_size chunks <= MAX_BODY_SIZE)%N ->
  feed res chunks st
  = with_ingresses
      (insert res (mkIngress req w (acc ++ chunks) (size + body_size chunks) Reading)) st.
Proof.
  induction chunks as [|c cs IH]; intros st req w acc size Hing Hle.
  - simpl. rewrite app_nil_r. unfold body_size. simpl. rewrite N.add_0_r.
    symmetry. by apply with_ingresses_insert_id.
  - rewrite body_size_cons in Hle. simpl. unfold on_data at 1. rewrite Hing. simpl.
    rewrite (proj2 (N.ltb_ge _ _)) by lia.
    erewrite IH; [|by simpl; apply lookup_insert_eq | lia].
    rewrite with_ingresses_insert_insert, <- app_assoc, body_size_cons.
    by rewrite N.add_assoc.
Qed.

(** Over the cap the chunk that crosses it is answered 413 and the
    stream is destroyed; nothing else changes. *)
Lemma feed_over res chunks : forall st req w acc size,
  ingresses st !! res = Some (mkIngress req w acc size Reading) ->
  (size <= MAX_BODY_SIZE)%N ->
  (MAX_BODY_SIZE < size + body_size chunks)%N ->
  exists acc' size',
    feed res chunks st
    = with_ingresses (insert res (mkIngress req w acc' size' Destroyed))
        (respond res
           (mkReply 413 json_headers (BodyJson [("error", JStr "Request body too large")]))
           st).
Proof.
  induction chunks as [|c cs IH]; intros st req w acc size Hing Hsize Hover.
  - unfold body_size in Hover. simpl in Hover. lia.
  - rewrite body_size_cons in Hover. simpl. unfold on_data at 1. rewrite Hing. simpl.
    destruct (MAX_BODY_SIZE <? size + N.of_nat (length c))%N eqn:Hc.
    + eexists _, _. erewrite feed_closed; [done | by simpl; apply lookup_insert_eq | done].
    + apply N.ltb_ge in Hc.
      edestruct (IH (with_ingresses
                       (insert res (mkIngress req w (acc ++ [c])
                                      (size + N.of_nat (length c)) Reading)) st))
        as (acc' & size' & ->); [by simpl; apply lookup_insert_eq | lia | lia |].
      exists acc', size'. unfold respond, with_responses, with_ingresses. simpl.
      by rewrite insert_insert_eq.
Qed.

End IngressFacts.

(** C6. Once the listeners of a request to a live tunnel are
    registered, the chunks of its body and the end of the body lead to
    one of two states.  When the bytes received exceed 10 MiB the
    response carries 413 and is ended, the stream is destroyed, and the
    sockets, the pending table and the timers are as before: no frame,
    no pending entry.  Otherwise (exactly 10 MiB included) nothing is
    written to the response, the pending entry of the fresh correlation
    id is created, its timer armed, the request frame sent on the
    channel of the tunnel, and the stream has ended undestroyed. *)
Theorem body_cap cfg st res req w chunks uuid :
  Relay.ingresses st !! res = Some (Relay.mkIngress req w [] 0 Relay.Reading) ->
  Http.writableEnded (Relay.response_of st res) = false ->
  exists st',
    Relay.run cfg st (map (Relay.EvData res) chunks ++ [Relay.EvEnd res uuid]) = Some st'
    /\ if (Relay.MAX_BODY_SIZE <? Aux.body_size chunks)%N
       then
         Relay.response_of st' res
         = Http.mkServerResponse true
             (Http.replies (Relay.response_of st res)
              ++ [Http.mkReply 413 Relay.json_headers
                    (Http.BodyJson [("error", Http.JStr "Request body too large")])])
         /\ (exists ing, Relay.ingresses st' !! res = Some ing
                         /\ Relay.ing_state ing = Relay.Destroyed)
         /\ Relay.sockets st' = Relay.sockets st
         /\ Relay.pendingRequests st' = Relay.pendingRequests st
         /\ Relay.timeouts st' = Relay.timeouts st
       else
         Relay.responses st' = Relay.responses st
         /\ Relay.pendingRequests st'
            = <[ uuid := Relay.mkPending res (Relay.next_handle st) ]>
                (Relay.pendingRequests st)
         /\ Relay.timeouts st' = <[ Relay.next_handle st := uuid ]> (Relay.timeouts st)
         /\ Relay.sockets st'
            = <[ w := Http.ws_send
                        (Http.TunnelRequestMsg
                           (Relay.serializeRequest req (concat chunks) uuid))
                        (Relay.socket_of st w) ]> (Relay.sockets st)
         /\ (exists ing, Relay.ingresses st' !! res = Some ing
                         /\ Relay.ing_state ing = Relay.Ended).
Proof.
  intros Hing Hopen. rewrite IngressFacts.run_feed.
  destruct (Relay.MAX_BODY_SIZE <? Aux.body_size chunks)%N eqn:Hcap.
  - apply N.ltb_lt in Hcap.
    destruct (IngressFacts.feed_over res chunks st req w [] 0%N Hing) as (acc & size & ->);
      [done | by rewrite N.add_0_l |].
    eexists. split.
    + simpl. unfold Relay.on_end. simpl. by rewrite lookup_insert_eq.
    + simpl. unfold Relay.response_of at 1. simpl. rewrite !lookup_insert_eq. simpl.
      split; [done|]. split; [|done]. by eexists.
  - apply N.ltb_ge in Hcap.
    rewrite (IngressFacts.feed_within res chunks st req w [] 0%N Hing)
      by (by rewrite N.add_0_l).
    eexists. split.
    + simpl. unfold Relay.on_end. simpl. rewrite lookup_insert_eq. simpl.
      unfold Relay.response_of in *. simpl. rewrite Hopen. reflexivity.
    + simpl. rewrite !insert_insert_eq, lookup_insert_eq. repeat split; try done.
      by eexists.
Qed.

(** C6, at an input: the scenario request with a two-byte body. *)
Lemma body_cap_witness :
  exists st',
    Relay.run Aux.scenario_cfg Aux.scenario_state
      (map (Relay.EvData 2) [[x68]; [x69]] ++ [Relay.EvEnd 2 "uuid-1"]) = Some st'
    /\ if (Relay.MAX_BODY_SIZE <? Aux.body_size [[x68]; [x69]])%N
       then
         Relay.response_of st' 2
         = Http.mkServerResponse true
             (Http.replies (Relay.response_of Aux.scenario_state 2)
              ++ [Http.mkReply 413 Relay.json_headers
                    (Http.BodyJson [("error", Http.JStr "Request body too large")])])
         /\ (exists ing, Relay.ingresses st' !! 2 = Some ing
                         /\ Relay.ing_state ing = Relay.Destroyed)
         /\ Relay.sockets st' = Relay.sockets Aux.scenario_state
         /\ Relay.pendingRequests st' = Relay.pendingRequests Aux.scenario_state
         /\ Relay.timeouts st' = Relay.timeouts Aux.scenario_state
       else
         Relay.responses st' = Relay.responses Aux.scenario_state
         /\ Relay.pendingRequests st'
            = <[ "uuid-1" := Relay.mkPending 2 (Relay.next_handle Aux.scenario_state) ]>
                (Relay.pendingRequests Aux.scenario_state)
         /\ Relay.timeouts st'
            = <[ Relay.next_handle Aux.scenario_state := "uuid-1" ]>
                (Relay.timeouts Aux.scenario_state)
         /\ Relay.sockets st'
            = <[ 0 := Http.ws_send
                        (Http.TunnelRequestMsg
                           (Relay.serializeRequest Aux.scenario_request
                              (concat [[x68]; [x69]]) "uuid-1"))
                        (Relay.socket_of Aux.scenario_state 0) ]>
                (Relay.sockets Aux.scenario_state)
         /\ (exists ing, Relay.ingresses st' !! 2 = Some ing
                         /\ Relay.ing_state ing = Relay.Ended).
Proof.
  apply (body_cap Aux.scenario_cfg Aux.scenario_state 2 Aux.scenario_request 0
           [[x68]; [x69]] "uuid-1").
  - vm_compute. reflexivity.
  - vm_compute. reflexivity.
Defined.

(** ** The agent: close *)

(** C8 (as amended). A second call of [close()] leaves what the caller
    can observe of the client unchanged: the closed flag, the heartbeat
    handle, the socket field, the url and the subdomain, as well as the
    sockets and timers the client holds.  Every call emits [close]: after
    two calls the event was emitted twice. *)
Theorem close_twice c :
  Agent.observe (Agent.close (Agent.close c)) = Agent.observe (Agent.close c)
  /\ Agent.reconnectAttempts (Agent.close (Agent.close c))
     = Agent.reconnectAttempts (Agent.close c)
  /\ Agent.emitted (Agent.close c) = Agent.emitted c ++ [Agent.EmitClose]
  /\ Agent.emitted (Agent.close (Agent.close c))
     = Agent.emitted c ++ [Agent.EmitClose; Agent.EmitClose].
Proof.
  unfold Agent.close, Agent.observe, Agent.emit. simpl.
  rewrite <- app_assoc. by repeat split.
Qed.

(** C8, the counterexample.  For an attached agent with no event emitted
    yet, one call of [close()] leaves the event sequence [close], two
    calls leave [close; close]: the second call is observable. *)
Lemma close_twice_emits_twice :
  Agent.emitted (Agent.close Aux.scenario_client) = [Agent.EmitClose]
  /\ Agent.emitted (Agent.close (Agent.close Aux.scenario_client))
     = [Agent.EmitClose; Agent.EmitClose]
  /\ Agent.close (Agent.close Aux.scenario_client) <> Agent.close Aux.scenario_client.
Proof.
  split; [done|]. split; [done|].
  intros H. apply (f_equal Agent.emitted) in H. by vm_compute in H.
Qed.

(** ** Base64: decoding undoes encoding *)

Module Base64Facts.
Import Base64.

Lemma char_sextet_char n : (n < 64)%N -> char_sextet (sextet_char n) = Some n.
Proof.
  intros H. destruct n as [|p]; [done|].
  do 6 (destruct p as [p|p|]; try done); lia.
Qed.

Lemma char_sextet_PAD : char_sextet PAD = None.
Proof. done. Qed.

Lemma byte_of_to_N a : byte_of (Byte.to_N a) = a.
Proof. unfold byte_of. by rewrite Byte.of_to_N. Qed.

Ltac div_lia := zify; Z.to_euclidean_division_equations; lia.

Lemma decode_4 c1 c2 c3 c4 rest :
  decode (String c1 (String c2 (String c3 (String c4 rest))))
  = match char_sextet c1, char_sextet c2 with
    | Some s1, Some s2 =>
        let b1 := byte_of (s1 * 4 + s2 / 16) in
        match char_sextet c3 with
        | Some s3 =>
            let b2 := byte_of ((s2 mod 16) * 16 + s3 / 4) in
            match char_sextet c4 with
            | Some s4 =>
                let b3 := byte_of ((s3 mod 4) * 64 + s4) in
                b1 :: b2 :: b3 :: decode rest
            | None => [b1; b2]
            end
        | None => [b1]
        end
    | _, _ => []
    end%N.
Proof. reflexivity. Qed.

Lemma byte_of_eq n a : n = Byte.to_N a -> byte_of n = a.
Proof. intros ->. apply byte_of_to_N. Qed.

Lemma decode_encode_1 a : decode (encode [a]) = [a].
Proof.
  pose proof (Byte.to_N_bounded a) as Ha.
  cbn [encode]. cbv zeta. rewrite decode_4.
  rewrite !char_sextet_char by div_lia. rewrite char_sextet_PAD. cbv zeta.
  f_equal. apply byte_of_eq. div_lia.
Qed.

Lemma decode_encode_2 a b : decode (encode [a; b]) = [a; b].
Proof.
  pose proof (Byte.to_N_bounded a) as Ha. pose proof (Byte.to_N_bounded b) as Hb.
  cbn [encode]. cbv zeta. rewrite decode_4.
  rewrite !char_sextet_char by div_lia. rewrite char_sextet_PAD. cbv zeta.
  f_equal; [apply byte_of_eq; div_lia|].
  f_equal. apply byte_of_eq. div_lia.
Qed.

Lemma decode_encode_3 a b c rest :
  decode (encode (a :: b :: c :: rest)) = a :: b :: c :: decode (encode rest).
Proof.
  pose proof (Byte.to_N_bounded a) as Ha. pose proof (Byte.to_N_bounded b) as Hb.
  pose proof (Byte.to_N_bounded c) as Hc.
  cbn [encode]. cbv zeta. rewrite decode_4.
  rewrite !char_sextet_char by div_lia. cbv zeta.
  f_equal; [apply byte_of_eq; div_lia|].
  f_equal; [apply byte_of_eq; div_lia|].
  f_equal. apply byte_of_eq. div_lia.
Qed.

Lemma decode_encode_bounded n : forall bs, length bs <= n -> decode (encode bs) = bs.
Proof.
  induction n as [|n IH]; intros bs Hlen.
  - destruct bs; [done | simpl in Hlen; lia].
  - destruct bs as [|a [|b [|c rest]]]; [done | apply decode_encode_1 | apply decode_encode_2 |].
    rewrite decode_encode_3. rewrite IH; [done | simpl in Hlen; lia].
Qed.

Lemma decode_encode bs : decode (encode bs) = bs.
Proof. by apply (decode_encode_bounded (length bs)). Qed.

Lemma encode_nonempty bs : bs <> [] -> Js.truthy (encode bs) = true.
Proof. by destruct bs as [|a [|b [|c rest]]]. Qed.

End Base64Facts.

(** ** The relay as a machine: the invariant *)

Module MachineFacts.
Import Http Relay Aux.

Lemma Inv_init : Inv init.
Proof. split; simpl; intros; simplify_map_eq; try done. Qed.

(** Only the response store, the listeners, the pending table and the
    allocator matter. *)
Lemma Inv_frame st st' :
  responses st' = responses st -> ingresses st' = ingresses st ->
  pendingRequests st' = pendingRequests st -> next_handle st <= next_handle st' ->
  Inv st -> Inv st'.
Proof.
  intros Hr Hi Hp Hn [W O P U F].
  split; rewrite ?Hr, ?Hi, ?Hp; try done.
  intros r Hle. apply F. lia.
Qed.

Lemma response_of_unwritten st r :
  Inv st -> writableEnded (response_of st r) = false -> responses st !! r = None.
Proof.
  intros [W _ _ _ _] H. unfold response_of in H.
  destruct (responses st !! r) as [w|] eqn:Hw; [|done].
  destruct (W r w Hw) as [x ->]. done.
Qed.

Lemma response_of_None st r : responses st !! r = None -> response_of st r = fresh_response.
Proof. unfold response_of. by intros ->. Qed.

(** A reply to a response nobody else may write to. *)
Lemma Inv_respond st r x :
  Inv st -> responses st !! r = None ->
  (forall ing, ingresses st !! r = Some ing -> ing_closed ing = true) ->
  (forall id p, pendingRequests st !! id = Some p -> pend_res p <> r) ->
  r < next_handle st ->
  Inv (respond r x st).
Proof.
  intros [W O P U F] Hr Hing Hp Hlt. unfold respond.
  rewrite (response_of_None _ _ Hr). split; simpl.
  - intros r' w. rewrite lookup_insert. case_decide; [|apply W].
    intros [= <-]. by eexists.
  - intros r' ing Hi Hopen. destruct (O r' ing Hi Hopen) as [Hn Hq]. split; [|done].
    rewrite lookup_insert_ne; [done|]. intros ->. specialize (Hing _ Hi). congruence.
  - intros id p Hid. rewrite lookup_insert_ne; [by eapply P|]. intros Heq.
    by eapply Hp.
  - done.
  - intros r' Hle. destruct (F r' Hle) as (? & ? & ?). split; [|done].
    rewrite lookup_insert_ne; [done | lia].
Qed.

Lemma Inv_alloc st : Inv st -> Inv (alloc st).2.
Proof. apply Inv_frame; simpl; lia || done. Qed.

Lemma Inv_close_ingress st r ing ing' :
  Inv st -> ingresses st !! r = Some ing -> ing_closed ing' = true ->
  Inv (with_ingresses (insert r ing') st).
Proof.
  intros [W O P U F] Hi Hc. split; simpl; try done.
  - intros r' i'. rewrite lookup_insert. case_decide; [|apply O].
    intros [= <-] H1. rewrite Hc in H1. discriminate.
  - intros r' Hle. destruct (F r' Hle) as (? & Hi' & ?). split; [done|]. split; [|done].
    rewrite lookup_insert_ne; [done|]. intros ->. by rewrite Hi in Hi'.
Qed.

Lemma Inv_update_ingress st r ing ing' :
  Inv st -> ingresses st !! r = Some ing -> ing_closed ing = false ->
  Inv (with_ingresses (insert r ing') st).
Proof.
  intros [W O P U F] Hi Hc. split; simpl; try done.
  - intros r' i'. rewrite lookup_insert. case_decide; [|apply O]. intros [= <-] _.
    subst. by eapply O.
  - intros r' Hle. destruct (F r' Hle) as (? & Hi' & ?). split; [done|]. split; [|done].
    rewrite lookup_insert_ne; [done|]. intros ->. by rewrite Hi in Hi'.
Qed.

Lemma Inv_drop st id : Inv st -> Inv (with_pending (delete id) st).
Proof.
  intros [W O P U F]. split; simpl; try done.
  - intros r ing Hi Ho. destruct (O r ing Hi Ho) as [? Hq]. split; [done|].
    intros id' p [_ Hp]%lookup_delete_Some. by eapply Hq.
  - intros id' p [_ Hp]%lookup_delete_Some. by eapply P.
  - intros i i' p p' [_ Hp]%lookup_delete_Some [_ Hp']%lookup_delete_Some. by eapply U.
  - intros r Hle. destruct (F r Hle) as (? & ? & Hq). split; [done|]. split; [done|].
    intros id' p [_ Hp]%lookup_delete_Some. by eapply Hq.
Qed.

(** Settling a pending request: a reply to its response, and the entry
    removed. *)
Lemma Inv_settle st id p x :
  Inv st -> pendingRequests st !! id = Some p ->
  Inv (with_pending (delete id) (respond (pend_res p) x st)).
Proof.
  intros HI Hp. pose proof HI as [W O P U F].
  unfold respond. rewrite (response_of_None _ _ (P _ _ Hp)). split; simpl.
  - intros r' w. rewrite lookup_insert. case_decide; [|apply W].
    intros [= <-]. by eexists.
  - intros r ing Hi Ho. destruct (O r ing Hi Ho) as [Hn Hq]. split.
    + rewrite lookup_insert_ne; [done|]. by eapply Hq.
    + intros id' p' [_ Hp']%lookup_delete_Some. by eapply Hq.
  - intros id' p' [Hne Hp']%lookup_delete_Some.
    rewrite lookup_insert_ne; [by eapply P|]. intros Heq. apply Hne. by eapply U.
  - intros i i' q q' [_ Hq]%lookup_delete_Some [_ Hq']%lookup_delete_Some. by eapply U.
  - intros r Hle. destruct (F r Hle) as (? & ? & Hq). split; [|split; [done|]].
    + rewrite lookup_insert_ne; [done|]. by eapply Hq.
    + intros id' p' [_ Hp']%lookup_delete_Some. by eapply Hq.
Qed.

Lemma handle_bound st r :
  Inv st -> (is_Some (ingresses st !! r) \/ is_Some (responses st !! r)
             \/ exists id p, pendingRequests st !! id = Some p /\ pend_res p = r) ->
  r < next_handle st.
Proof.
  intros [_ _ _ _ F] H. destruct (decide (r < next_handle st)) as [|Hge]; [done|].
  destruct (F r ltac:(lia)) as (Hr & Hi & Hp).
  destruct H as [[? H] | [[? H] | (id & p & H & Heq)]]; [congruence.. |].
  by destruct (Hp id p H).
Qed.

(** New listeners on the response of a new request. *)
Lemma Inv_listen st ing :
  Inv st -> Inv (with_ingresses (insert (next_handle st) ing) (alloc st).2).
Proof.
  intros [W O P U F]. destruct (F (next_handle st) ltac:(lia)) as (Hr & Hi & Hp).
  split; simpl; try done.
  - intros r i. rewrite lookup_insert. case_decide; [|apply O]. by intros _ _; subst.
  - intros r Hle. destruct (F r ltac:(lia)) as (? & ? & ?). split; [done|]. split; [|done].
    rewrite lookup_insert_ne; [done | lia].
Qed.

Lemma Inv_register st r ing id t :
  Inv st -> ingresses st !! r = Some ing -> ing_closed ing = false ->
  Inv (with_pending (insert id (mkPending r t))
         (with_ingresses (insert r (mkIngress (ing_req ing) (ing_ws ing) (ing_chunks ing)
                                      (ing_bodySize ing) Ended)) st)).
Proof.
  intros HI Hi Ho. pose proof HI as [W O P U F].
  destruct (O r ing Hi Ho) as [Hr Hq].
  assert (Hlt : r < next_handle st) by (apply handle_bound; eauto).
  split; simpl.
  - done.
  - intros r' i'. rewrite lookup_insert. case_decide; [by intros [= <-]|].
    intros Hi' Ho'. destruct (O r' i' Hi' Ho') as [? Hq']. split; [done|].
    intros id' p. rewrite lookup_insert. case_decide; [|by apply Hq'].
    intros [= <-]. simpl. congruence.
  - intros id' p. rewrite lookup_insert. case_decide; [by intros [= <-]|]. by apply P.
  - intros i i' p p'. rewrite !lookup_insert.
    repeat case_decide; subst; try done.
    + intros [= <-] Hp' Heq. simpl in Heq. by destruct (Hq _ _ Hp').
    + intros Hp [= <-] Heq. simpl in Heq. by destruct (Hq _ _ Hp).
    + apply U.
  - intros r' Hle. destruct (F r' Hle) as (? & ? & Hq'). split; [done|]. split.
    + rewrite lookup_insert_ne; [done | lia].
    + intros id' p. rewrite lookup_insert. case_decide; [|by apply Hq'].
      intros [= <-]. simpl. lia.
Qed.

Lemma removeTunnel_frame s st :
  responses (removeTunnel s st) = responses st
  /\ ingresses (removeTunnel s st) = ingresses st
  /\ pendingRequests (removeTunnel s st) = pendingRequests st
  /\ next_handle (removeTunnel s st) = next_handle st.
Proof. unfold removeTunnel. by destruct (tunnels st !! s). Qed.

Lemma Inv_removeTunnel s st : Inv st -> Inv (removeTunnel s st).
Proof.
  destruct (removeTunnel_frame s st) as (? & ? & ? & ?).
  apply Inv_frame; try done. lia.
Qed.

Lemma Inv_respond_fresh st x :
  Inv st -> Inv (respond (next_handle st) x (alloc st).2).
Proof.
  intros HI. pose proof HI as [W O P U F].
  destruct (F (next_handle st) ltac:(lia)) as (Hr & Hi & Hp).
  apply Inv_respond; simpl; try done; [by apply Inv_alloc | | lia].
  intros ing. by rewrite Hi.
Qed.

Lemma Inv_handleHttpRequest cfg req st :
  Inv st -> Inv (handleHttpRequest cfg req (next_handle st) (alloc st).2).
Proof.
  intros HI. unfold handleHttpRequest, surface.
  repeat (case_match; try by apply Inv_respond_fresh).
  - by apply Inv_removeTunnel, Inv_respond_fresh.
  - by apply Inv_listen.
Qed.

Lemma Inv_on_data r chunk st : Inv st -> Inv (on_data r chunk st).
Proof.
  intros HI. unfold on_data.
  destruct (ingresses st !! r) as [ing|] eqn:Hi; [|done].
  destruct (ing_closed ing) eqn:Ho; [done|].
  destruct (inv_open st HI r ing Hi Ho) as [Hr Hq].
  case_match.
  - set (ing' := mkIngress _ _ _ _ Destroyed).
    change (Inv (respond r (mkReply 413 json_headers
                              (BodyJson [("error", JStr "Request body too large")]))
                   (with_ingresses (insert r ing') st))).
    apply Inv_respond; simpl; try done.
    + by eapply Inv_close_ingress.
    + intros i. rewrite lookup_insert_eq. by intros [= <-].
    + apply handle_bound; eauto.
  - by eapply Inv_update_ingress.
Qed.

Lemma Inv_on_end r uuid st : Inv st -> Inv (on_end r uuid st).
Proof.
  intros HI. unfold on_end.
  destruct (ingresses st !! r) as [ing|] eqn:Hi; [|done].
  destruct (ing_closed ing) eqn:Ho; [done|].
  case_match; [by eapply Inv_close_ingress|].
  simpl. eapply Inv_frame; [..| by apply (Inv_register st r ing uuid (next_handle st))];
    simpl; try done. lia.
Qed.

Lemma Inv_on_error r st : Inv st -> Inv (on_error r st).
Proof.
  intros HI. unfold on_error.
  destruct (ingresses st !! r) as [ing|] eqn:Hi; [|done].
  destruct (ing_closed ing) eqn:Ho; [done|].
  destruct (inv_open st HI r ing Hi Ho) as [Hr Hq].
  case_match; [|by eapply Inv_close_ingress].
  apply Inv_respond; simpl; try done.
  - by eapply Inv_close_ingress.
  - intros i. rewrite lookup_insert_eq. by intros [= <-].
  - apply handle_bound; eauto.
Qed.

Lemma Inv_timeouts f st : Inv st -> Inv (with_timeouts f st).
Proof. apply Inv_frame; simpl; done || lia. Qed.

Lemma Inv_on_timeout t st : Inv st -> Inv (on_timeout t st).
Proof.
  intros HI. unfold on_timeout.
  destruct (timeouts st !! t) as [id|]; [|done].
  apply (Inv_timeouts (delete t)) in HI. revert HI.
  generalize (with_timeouts (delete t) st). clear st. intros st HI.
  destruct (pendingRequests st !! id) as [p|] eqn:Hp; [|by apply Inv_drop].
  case_match; [by apply Inv_settle | by apply Inv_drop].
Qed.

Lemma Inv_handleTunnelResponse response st : Inv st -> Inv (handleTunnelResponse response st).
Proof.
  intros HI. unfold handleTunnelResponse.
  destruct (pendingRequests st !! rs_id response) as [p|] eqn:Hp; [|done].
  unfold clearTimeout.
  apply (Inv_timeouts (delete (pend_timeout p))) in HI.
  assert (Hp' : pendingRequests (with_timeouts (delete (pend_timeout p)) st)
                !! rs_id response = Some p) by done.
  revert HI Hp'. generalize (with_timeouts (delete (pend_timeout p)) st).
  clear st Hp. intros st HI Hp.
  case_match; [by apply Inv_drop|].
  case_match; [by apply Inv_drop|].
  match goal with |- Inv (respond ?r ?x (with_pending ?f st)) =>
    change (Inv (with_pending f (respond r x st))) end.
  by apply Inv_settle.
Qed.

Lemma Inv_on_message w message st : Inv st -> Inv (on_message w message st).
Proof.
  intros HI. unfold on_message. repeat case_match; try done.
  - by apply Inv_handleTunnelResponse.
  - revert HI. apply Inv_frame; simpl; done || lia.
Qed.

Lemma Inv_on_ws_close w st : Inv st -> Inv (on_ws_close w st).
Proof.
  intros HI. unfold on_ws_close. case_match; [|done].
  apply Inv_removeTunnel. revert HI. apply Inv_frame; simpl; done || lia.
Qed.

Lemma Inv_on_ws_error w st : Inv st -> Inv (on_ws_error w st).
Proof. intros HI. unfold on_ws_error. case_match; [|done]. by apply Inv_removeTunnel. Qed.

Lemma Inv_on_heartbeat i st : Inv st -> Inv (on_heartbeat i st).
Proof.
  intros HI. unfold on_heartbeat, send, clearInterval. repeat case_match; try done;
    revert HI; apply Inv_frame; simpl; try done. all: try lia.
Qed.

Lemma Inv_on_upgrade cfg fuel tape pathname req st r st' :
  Inv st -> on_upgrade cfg fuel tape pathname req st = Some (r, st') -> Inv st'.
Proof.
  intros HI. unfold on_upgrade, handleWebSocketConnection, send, alloc.
  destruct (admission cfg pathname req st); [by intros [= _ <-]|].
  cbn beta iota zeta. destruct (resolveSubdomain _ _ _ _); [|done]. intros [= _ <-].
  revert HI. apply Inv_frame; simpl; try done. lia.
Qed.

Lemma stop_tunnel_frame l : forall st,
  responses (foldl stop_tunnel st l) = responses st
  /\ ingresses (foldl stop_tunnel st l) = ingresses st
  /\ pendingRequests (foldl stop_tunnel st l) = pendingRequests st
  /\ next_handle (foldl stop_tunnel st l) = next_handle st.
Proof.
  induction l as [|e l IH]; intros st; simpl; [done|].
  destruct (IH (stop_tunnel st e)) as (-> & -> & -> & ->). done.
Qed.

Lemma stop_pending_frame st e :
  ingresses (stop_pending st e) = ingresses st
  /\ next_handle (stop_pending st e) = next_handle st.
Proof. unfold stop_pending. by case_match. Qed.

Lemma Inv_clear st : Inv st -> Inv (with_pending (fun _ => ∅) st).
Proof.
  intros [W O P U F]. split; simpl; try done.
  - intros r ing Hi Ho. by destruct (O r ing Hi Ho).
  - intros r Hle. by destruct (F r Hle) as (? & ? & ?).
Qed.

Lemma Inv_stop_pending_fold l : forall st,
  Inv (with_pending (fun _ => ∅) st) ->
  Forall (fun e : string * PendingRequest =>
            (forall ing, ingresses st !! pend_res e.2 = Some ing -> ing_closed ing = true)
            /\ pend_res e.2 < next_handle st) l ->
  Inv (with_pending (fun _ => ∅) (foldl stop_pending st l)).
Proof.
  induction l as [|e l IH]; intros st HI Hall; simpl; [done|].
  apply Forall_cons in Hall as [[Hclosed Hlt] Hall].
  destruct (stop_pending_frame st e) as [Hi Hn].
  apply IH; [|by rewrite Hi, Hn].
  unfold stop_pending. case_match eqn:Hw.
  - match goal with |- Inv (with_pending ?f (respond ?r ?x ?s)) =>
      change (Inv (respond r x (with_pending f s))) end.
    apply negb_true_iff in Hw.
    apply Inv_respond; simpl; try done.
    + revert HI. apply Inv_frame; simpl; done || lia.
    + apply (response_of_unwritten (with_pending (fun _ => ∅) st)); done.
  - revert HI. apply Inv_frame; simpl; done || lia.
Qed.

Lemma Inv_stop st : Inv st -> Inv (stop st).
Proof.
  intros HI. unfold stop. cbv zeta.
  destruct (stop_tunnel_frame (map_to_list (tunnels st)) st) as (Hr & Hi & Hp & Hn).
  set (st1 := with_tunnels _ _).
  assert (HI1 : Inv st1).
  { revert HI. apply Inv_frame; simpl; try done. lia. }
  apply Inv_stop_pending_fold; [by apply Inv_clear|].
  apply Forall_forall. intros [id p] Hin%elem_of_map_to_list. simpl. split.
  - intros ing Hing. destruct (ing_closed ing) eqn:Ho; [done|].
    destruct (inv_open st1 HI1 _ _ Hing Ho) as [_ Hq]. by destruct (Hq id p Hin).
  - apply (handle_bound st1 _ HI1). right. right. eauto.
Qed.

Lemma Inv_step cfg st ev st' : Inv st -> step cfg st ev = Some st' -> Inv st'.
Proof.
  intros HI. destruct ev; simpl.
  - destruct (on_upgrade _ _ _ _ _ _) as [[r s]|] eqn:Hup; [|done].
    intros [= <-]. by eapply Inv_on_upgrade.
  - intros [= <-]. by apply Inv_handleHttpRequest.
  - intros [= <-]. by apply Inv_on_data.
  - intros [= <-]. by apply Inv_on_end.
  - intros [= <-]. by apply Inv_on_error.
  - intros [= <-]. by apply Inv_on_timeout.
  - intros [= <-]. by apply Inv_on_message.
  - intros [= <-]. by apply Inv_on_ws_close.
  - intros [= <-]. by apply Inv_on_ws_error.
  - intros [= <-]. by apply Inv_on_heartbeat.
  - intros [= <-]. by apply Inv_stop.
Qed.

Lemma Inv_run cfg evs : forall st st', Inv st -> run cfg st evs = Some st' -> Inv st'.
Proof.
  induction evs as [|ev evs IH]; intros st st' HI; simpl; [by intros [= <-]|].
  destruct (step cfg st ev) as [st1|] eqn:Hstep; [|done].
  apply IH. by eapply Inv_step.
Qed.

End MachineFacts.

(** ** The relay as a machine: the statuses of its own replies *)

Module StatusFacts.
Import Http Relay Aux MachineFacts.

Section Writes.
Context (P : HttpReply -> Prop).

Lemma writes_refl st : writes_only P st st.
Proof. intros r. exists []. by rewrite app_nil_r. Qed.

Lemma writes_trans st1 st2 st3 :
  writes_only P st1 st2 -> writes_only P st2 st3 -> writes_only P st1 st3.
Proof.
  intros H12 H23 r. destruct (H12 r) as (n1 & E1 & F1), (H23 r) as (n2 & E2 & F2).
  exists (n1 ++ n2). rewrite E2, E1, app_assoc. split; [done|]. by apply Forall_app.
Qed.

Lemma writes_frame st st' : responses st' = responses st -> writes_only P st st'.
Proof.
  intros H r. exists []. unfold response_of. by rewrite H, app_nil_r.
Qed.

Lemma writes_respond st r x : P x -> writes_only P st (respond r x st).
Proof.
  intros Hx r'. unfold respond, response_of at 1. simpl.
  rewrite lookup_insert. case_decide as Hr.
  - subst r'. exists [x]. simpl. split; [done|]. by constructor.
  - exists []. rewrite app_nil_r. split; [done | constructor].
Qed.

Lemma writes_respond_then st st' r x :
  writes_only P st st' -> P x -> writes_only P st (respond r x st').
Proof. intros H Hx. eapply writes_trans; [exact H|]. by apply writes_respond. Qed.

End Writes.

Ltac own := unfold own_reply, OWN_STATUSES; simpl; tauto.

Lemma writes_removeTunnel P s st : writes_only P st (removeTunnel s st).
Proof. apply writes_frame. by destruct (removeTunnel_frame s st) as (-> & _). Qed.

Lemma writes_handleHttpRequest cfg req res st :
  addressed_to_tunnel cfg req = true ->
  writes_only own_reply st (handleHttpRequest cfg req res st).
Proof.
  unfold addressed_to_tunnel, handleHttpRequest.
  destruct (extractSubdomain _ _) as [s|]; [|done].
  intros [-> ->%negb_true_iff]%andb_true_iff. simpl.
  destruct (tunnels st !! s) as [tunnel|].
  - case_match.
    + eapply writes_trans; [|apply writes_removeTunnel]. apply writes_respond. own.
    + by apply writes_frame.
  - apply writes_respond. own.
Qed.

Lemma writes_on_data res chunk st : writes_only own_reply st (on_data res chunk st).
Proof.
  unfold on_data. repeat case_match; try apply writes_refl.
  - match goal with |- writes_only _ _ (with_ingresses ?f (respond ?r ?x ?s)) =>
      change (writes_only own_reply s (respond r x (with_ingresses f s))) end.
    apply writes_respond_then; [by apply writes_frame | own].
  - by apply writes_frame.
Qed.

Lemma writes_on_end res uuid st : writes_only own_reply st (on_end res uuid st).
Proof.
  unfold on_end, alloc, send. cbn beta iota zeta.
  repeat case_match; try apply writes_refl; by apply writes_frame.
Qed.

Lemma writes_on_error res st : writes_only own_reply st (on_error res st).
Proof.
  unfold on_error. repeat case_match; try apply writes_refl.
  - apply writes_respond_then; [by apply writes_frame | own].
  - by apply writes_frame.
Qed.

Lemma writes_on_timeout t st : writes_only own_reply st (on_timeout t st).
Proof.
  unfold on_timeout. repeat case_match; try apply writes_refl.
  - match goal with |- writes_only _ _ (with_pending ?f (respond ?r ?x ?s)) =>
      change (writes_only own_reply st (respond r x (with_pending f s))) end.
    apply writes_respond_then; [by apply writes_frame | own].
  - by apply writes_frame.
  - by apply writes_frame.
Qed.

Lemma writes_stop_pending l : forall st,
  writes_only own_reply st (foldl stop_pending st l).
Proof.
  induction l as [|e l IH]; intros st; simpl; [apply writes_refl|].
  eapply writes_trans; [|apply IH]. unfold stop_pending. case_match.
  - apply writes_respond_then; [by apply writes_frame | own].
  - by apply writes_frame.
Qed.

Lemma writes_stop st : writes_only own_reply st (stop st).
Proof.
  unfold stop. cbv zeta.
  match goal with |- writes_only _ _ (with_pending ?f (foldl stop_pending ?s ?l)) =>
    apply (writes_trans _ st s);
      [|apply (writes_trans _ s (foldl stop_pending s l));
          [apply writes_stop_pending | by apply writes_frame]] end.
  apply writes_frame. simpl.
  by destruct (stop_tunnel_frame (map_to_list (tunnels st)) st) as (-> & _).
Qed.

Lemma own_statuses_step cfg st ev st' :
  step cfg st ev = Some st' ->
  forwards_agent_reply ev = false -> serves_surface cfg ev = false ->
  writes_only own_reply st st'.
Proof.
  destruct ev; simpl.
  - unfold on_upgrade, handleWebSocketConnection, send, alloc.
    destruct (admission _ _ _ _); simpl; [intros [= <-] _ _; apply writes_refl|].
    destruct (resolveSubdomain _ _ _ _); [|done]. intros [= <-] _ _.
    by apply writes_frame.
  - intros [= <-] _ Haddr%negb_false_iff.
    eapply writes_trans; [|by apply writes_handleHttpRequest]. by apply writes_frame.
  - intros [= <-] _ _. apply writes_on_data.
  - intros [= <-] _ _. apply writes_on_end.
  - intros [= <-] _ _. apply writes_on_error.
  - intros [= <-] _ _. apply writes_on_timeout.
  - intros [= <-] Hfw _. unfold on_message.
    destruct (channels st !! w); [|apply writes_refl].
    destruct message as [[]|]; try done; try apply writes_refl. by apply writes_frame.
  - intros [= <-] _ _. unfold on_ws_close. case_match; [|apply writes_refl].
    eapply writes_trans; [|apply writes_removeTunnel]. by apply writes_frame.
  - intros [= <-] _ _. unfold on_ws_error. case_match; [|apply writes_refl].
    apply writes_removeTunnel.
  - intros [= <-] _ _. unfold on_heartbeat, send, clearInterval.
    repeat case_match; try apply writes_refl; by apply writes_frame.
  - intros [= <-] _ _. apply writes_stop.
Qed.

End StatusFacts.

(** ** Response dispatch *)

Module DispatchResponseFacts.
Import Http Relay Aux MachineFacts.

Lemma response_of_respond st r x r' :
  response_of (respond r x st) r'
  = if decide (r = r')
    then mkServerResponse true (replies (response_of st r) ++ [x])
    else response_of st r'.
Proof.
  unfold respond, response_of at 1. simpl. rewrite lookup_insert.
  by case_decide.
Qed.

Lemma handleTunnelResponse_miss response st :
  pendingRequests st !! rs_id response = None -> handleTunnelResponse response st = st.
Proof. unfold handleTunnelResponse. by intros ->. Qed.

(** The first frame for a pending correlation id, when [writeHead]
    accepts its status and headers. *)
Lemma handleTunnelResponse_hit response pending st :
  Inv st -> pendingRequests st !! rs_id response = Some pending ->
  writeHead_accepts (rs_status response)
    (delete "transfer-encoding" (rs_headers response)) = true ->
  handleTunnelResponse response st
  = respond (pend_res pending)
      (mkReply (Z.to_N (to_int32 (rs_status response)))
         (delete "transfer-encoding" (rs_headers response))
         (frame_body (rs_body response)))
      (with_pending (delete (rs_id response)) (clearTimeout (pend_timeout pending) st)).
Proof.
  intros HI Hp Hok. unfold handleTunnelResponse. rewrite Hp, Hok.
  assert (response_of
            (with_pending (delete (rs_id response))
               (clearTimeout (pend_timeout pending) st)) (pend_res pending)
          = fresh_response) as ->; [|done].
  apply response_of_None. simpl. by eapply inv_pending.
Qed.

(** The same, when [writeHead] throws. *)
Lemma handleTunnelResponse_refused response pending st :
  pendingRequests st !! rs_id response = Some pending ->
  writeHead_accepts (rs_status response)
    (delete "transfer-encoding" (rs_headers response)) = false ->
  handleTunnelResponse response st
  = with_pending (delete (rs_id response)) (clearTimeout (pend_timeout pending) st).
Proof.
  intros Hp Hno. unfold handleTunnelResponse. rewrite Hp, Hno. by case_match.
Qed.

(** A status between 100 and 999 is accepted and stored as it is. *)
Lemma status_stored status :
  (100 <= status <= 999)%N ->
  valid_status status = true /\ Z.to_N (to_int32 status) = status.
Proof.
  intros [Hlo Hhi]. unfold valid_status, to_int32. cbv zeta.
  rewrite N.mod_small by (eapply N.le_lt_trans; [exact Hhi | done]).
  assert ((status <? 2 ^ 31)%N = true) as ->
    by (apply N.ltb_lt; eapply N.le_lt_trans; [exact Hhi | done]).
  split; [|apply N2Z.id].
  apply andb_true_iff. split; apply Z.leb_le; lia.
Qed.

(** Whatever [writeHead] accepts, the status it stores is between 100
    and 999. *)
Lemma stored_status_range status :
  valid_status status = true -> (100 <= Z.to_N (to_int32 status) <= 999)%N.
Proof.
  unfold valid_status. intros [H1%Z.leb_le H2%Z.leb_le]%andb_true_iff. lia.
Qed.

Lemma on_timeout_hit t id pending st :
  Inv st -> timeouts st !! t = Some id -> pendingRequests st !! id = Some pending ->
  on_timeout t st
  = with_pending (delete id)
      (respond (pend_res pending)
         (mkReply 504 json_headers (BodyJson [("error", JStr "Tunnel request timed out")]))
         (with_timeouts (delete t) st)).
Proof.
  intros HI Ht Hp. unfold on_timeout. rewrite Ht. simpl. rewrite Hp.
  assert (response_of (with_timeouts (delete t) st) (pend_res pending)
          = fresh_response) as ->; [|done].
  apply response_of_None. simpl. by eapply inv_pending.
Qed.

End DispatchResponseFacts.

(** C2 (as amended). In every state the relay reaches, every response
    object holds at most one reply.  The first [tunnel-response] frame
    whose id is in the pending table cancels the timer of the entry and
    removes the entry; when [res.writeHead] accepts its status and its
    headers (a status that is from 100 to 999 once converted by [|= 0],
    header names that are HTTP tokens, header values without control
    characters) and none of its headers is named [trailer], the reply of
    the frame is written to the response of the entry, with the status
    [writeHead] stored, which is the status of the frame when that is
    from 100 to 999.  A later frame with the
    same id, like any frame whose id is not in the table, leaves the
    state as it is.  When the timer of a pending request fires first,
    its response gets 504 with the JSON error body, the entry is removed
    and a later frame with that id leaves the state as it is.  (The
    delay of the timer is not part of the model: its firing is an
    event.) *)
Theorem one_response_per_request cfg evs st :
  Relay.run cfg Relay.init evs = Some st ->
  (forall r, length (Http.replies (Relay.response_of st r)) <= 1)
  /\ (forall response pending,
        Relay.pendingRequests st !! Http.rs_id response = Some pending ->
        let st' := Relay.handleTunnelResponse response st in
        let headers := delete "transfer-encoding" (Http.rs_headers response) in
        Relay.timeouts st' = delete (Relay.pend_timeout pending) (Relay.timeouts st)
        /\ Relay.pendingRequests st'
           = delete (Http.rs_id response) (Relay.pendingRequests st)
        /\ (Http.writeHead_accepts (Http.rs_status response) headers = true ->
            Aux.no_trailer headers = true ->
            Relay.response_of st' (Relay.pend_res pending)
            = Http.mkServerResponse true
                [Http.mkReply (Z.to_N (Http.to_int32 (Http.rs_status response))) headers
                   (Aux.frame_body (Http.rs_body response))]
            /\ ((100 <= Http.rs_status response <= 999)%N ->
                Z.to_N (Http.to_int32 (Http.rs_status response))
                = Http.rs_status response))
        /\ forall later, Http.rs_id later = Http.rs_id response ->
                         Relay.handleTunnelResponse later st' = st')
  /\ (forall response,
        Relay.pendingRequests st !! Http.rs_id response = None ->
        Relay.handleTunnelResponse response st = st)
  /\ (forall t id pending,
        Relay.timeouts st !! t = Some id ->
        Relay.pendingRequests st !! id = Some pending ->
        let st' := Relay.on_timeout t st in
        Relay.response_of st' (Relay.pend_res pending)
        = Http.mkServerResponse true
            [Http.mkReply 504 Relay.json_headers
               (Http.BodyJson [("error", Http.JStr "Tunnel request timed out")])]
        /\ Relay.pendingRequests st' = delete id (Relay.pendingRequests st)
        /\ Relay.timeouts st' = delete t (Relay.timeouts st)
        /\ forall later, Http.rs_id later = id ->
                         Relay.handleTunnelResponse later st' = st').
Proof.
  intros Hrun.
  assert (HI : Aux.Inv st) by (eapply MachineFacts.Inv_run; [apply MachineFacts.Inv_init | done]).
  split; [|split; [|split]].
  - intros r. unfold Relay.response_of.
    destruct (Relay.responses st !! r) as [w|] eqn:Hw; [|simpl; lia].
    destruct (Aux.inv_written st HI r w Hw) as [x ->]. simpl. lia.
  - intros response pending Hp. cbv zeta.
    destruct (Http.writeHead_accepts (Http.rs_status response)
                (delete "transfer-encoding" (Http.rs_headers response))) eqn:Hok.
    + rewrite (DispatchResponseFacts.handleTunnelResponse_hit _ _ _ HI Hp Hok).
      split; [done|]. split; [done|]. split.
      * intros _ _. split.
        -- rewrite DispatchResponseFacts.response_of_respond, decide_True by done.
           assert (Relay.response_of
                     (Relay.with_pending (delete (Http.rs_id response))
                        (Relay.clearTimeout (Relay.pend_timeout pending) st))
                     (Relay.pend_res pending) = Http.fresh_response) as ->; [|done].
           apply MachineFacts.response_of_None. simpl. by eapply Aux.inv_pending.
        -- intros Hrange. by apply DispatchResponseFacts.status_stored.
      * intros later Hid. apply DispatchResponseFacts.handleTunnelResponse_miss.
        rewrite Hid. simpl. apply lookup_delete_eq.
    + rewrite (DispatchResponseFacts.handleTunnelResponse_refused _ _ _ Hp Hok).
      split; [done|]. split; [done|]. split; [done|].
      intros later Hid. apply DispatchResponseFacts.handleTunnelResponse_miss.
      rewrite Hid. simpl. apply lookup_delete_eq.
  - intros response. apply DispatchResponseFacts.handleTunnelResponse_miss.
  - intros t id pending Ht Hp. cbv zeta.
    rewrite (DispatchResponseFacts.on_timeout_hit _ _ _ _ HI Ht Hp).
    split; [|split; [done|split; [done|]]].
    + change (Relay.response_of
                (Relay.respond (Relay.pend_res pending)
                   (Http.mkReply 504 Relay.json_headers
                      (Http.BodyJson [("error", Http.JStr "Tunnel request timed out")]))
                   (Relay.with_timeouts (delete t) st)) (Relay.pend_res pending)
              = Http.mkServerResponse true
                  [Http.mkReply 504 Relay.json_headers
                     (Http.BodyJson [("error", Http.JStr "Tunnel request timed out")])]).
      rewrite DispatchResponseFacts.response_of_respond, decide_True by done.
      assert (Relay.response_of (Relay.with_timeouts (delete t) st)
                (Relay.pend_res pending) = Http.fresh_response) as ->; [|done].
      apply MachineFacts.response_of_None. simpl. by eapply Aux.inv_pending.
    + intros later Hid. apply DispatchResponseFacts.handleTunnelResponse_miss.
      rewrite Hid. simpl. apply lookup_delete_eq.
Qed.

(** C2, at an input: the scenario with its request pending. *)
Lemma one_response_per_request_witness :
  (forall r, length (Http.replies (Relay.response_of Aux.scenario_pending r)) <= 1)
  /\ (forall response pending,
        Relay.pendingRequests Aux.scenario_pending !! Http.rs_id response = Some pending ->
        let st' := Relay.handleTunnelResponse response Aux.scenario_pending in
        let headers := delete "transfer-encoding" (Http.rs_headers response) in
        Relay.timeouts st'
        = delete (Relay.pend_timeout pending) (Relay.timeouts Aux.scenario_pending)
        /\ Relay.pendingRequests st'
           = delete (Http.rs_id response) (Relay.pendingRequests Aux.scenario_pending)
        /\ (Http.writeHead_accepts (Http.rs_status response) headers = true ->
            Aux.no_trailer headers = true ->
            Relay.response_of st' (Relay.pend_res pending)
            = Http.mkServerResponse true
                [Http.mkReply (Z.to_N (Http.to_int32 (Http.rs_status response))) headers
                   (Aux.frame_body (Http.rs_body response))]
            /\ ((100 <= Http.rs_status response <= 999)%N ->
                Z.to_N (Http.to_int32 (Http.rs_status response))
                = Http.rs_status response))
        /\ forall later, Http.rs_id later = Http.rs_id response ->
                         Relay.handleTunnelResponse later st' = st')
  /\ (forall response,
        Relay.pendingRequests Aux.scenario_pending !! Http.rs_id response = None ->
        Relay.handleTunnelResponse response Aux.scenario_pending = Aux.scenario_pending)
  /\ (forall t id pending,
        Relay.timeouts Aux.scenario_pending !! t = Some id ->
        Relay.pendingRequests Aux.scenario_pending !! id = Some pending ->
        let st' := Relay.on_timeout t Aux.scenario_pending in
        Relay.response_of st' (Relay.pend_res pending)
        = Http.mkServerResponse true
            [Http.mkReply 504 Relay.json_headers
               (Http.BodyJson [("error", Http.JStr "Tunnel request timed out")])]
        /\ Relay.pendingRequests st' = delete id (Relay.pendingRequests Aux.scenario_pending)
        /\ Relay.timeouts st' = delete t (Relay.timeouts Aux.scenario_pending)
        /\ forall later, Http.rs_id later = id ->
                         Relay.handleTunnelResponse later st' = st').
Proof.
  apply (one_response_per_request Aux.scenario_cfg Aux.scenario_events Aux.scenario_pending).
  vm_compute. reflexivity.
Defined.

(** C2, the counterexample.  The request of the scenario is pending
    under [uuid-1], with the timer 3 and the response 2.  The first
    frame with that id carries the status 42: the relay clears the timer
    and deletes the entry, [res.writeHead(42)] throws, and nothing is
    delivered; the timer, cleared, delivers no 504 either. *)
Lemma unwritable_frame_is_lost :
  let response := Http.mkTunnelResponse "uuid-1" 42 ∅ None in
  Relay.run Aux.scenario_cfg Relay.init Aux.scenario_events = Some Aux.scenario_pending
  /\ Relay.pendingRequests Aux.scenario_pending !! "uuid-1" = Some (Relay.mkPending 2 3)
  /\ Relay.response_of Aux.scenario_pending 2 = Http.fresh_response
  /\ let st' := Relay.on_message 0 (Some (Http.TunnelResponseMsg response))
                  Aux.scenario_pending in
     Relay.pendingRequests st' !! "uuid-1" = None
     /\ Relay.timeouts st' !! 3 = None
     /\ Relay.response_of st' 2 = Http.fresh_response
     /\ Relay.on_timeout 3 st' = st'.
Proof. by vm_compute. Qed.

(** ** Statuses the relay answers with on its own account *)

(** C9 (as amended). Whatever the state, an event of the relay that is
    neither the arrival of a [tunnel-response] frame (whose status is the
    agent's) nor a request for the operational surface (a Host that names
    no tunnel, or the label [tunnel]) only adds, to any response object,
    replies whose status is 404, 413, 500, 502, 503 or 504. *)
Theorem own_statuses cfg st ev st' :
  Relay.step cfg st ev = Some st' ->
  Aux.forwards_agent_reply ev = false ->
  Aux.serves_surface cfg ev = false ->
  Aux.writes_only (fun x => In (Http.status x) [404; 413; 500; 502; 503; 504]%N) st st'.
Proof. apply StatusFacts.own_statuses_step. Qed.

(** C9, at an input: the stream of the scenario request fails. *)
Lemma own_statuses_witness :
  Aux.writes_only (fun x => In (Http.status x) [404; 413; 500; 502; 503; 504]%N)
    Aux.scenario_state (Relay.on_error 2 Aux.scenario_state).
Proof.
  apply (own_statuses Aux.scenario_cfg Aux.scenario_state (Relay.EvError 2)
           (Relay.on_error 2 Aux.scenario_state)); reflexivity.
Defined.

(** C9, the counterexample.  The scenario request is addressed to the
    tunnel [myapp], which is registered and open; when its stream fails
    while the body is read, the relay itself answers 500, a status
    outside 404, 413, 502, 503 and 504. *)
Lemma request_error_answers_500 :
  Aux.addressed_to_tunnel Aux.scenario_cfg Aux.scenario_request = true
  /\ is_Some (Relay.tunnels Aux.scenario_state !! "myapp")
  /\ (exists st',
        Relay.step Aux.scenario_cfg Aux.scenario_state (Relay.EvError 2) = Some st'
        /\ Relay.response_of st' 2
           = Http.mkServerResponse true
               [Http.mkReply 500 ∅ (Http.BodyText "Request error")])
  /\ ~ In 500%N [404; 413; 502; 503; 504]%N.
Proof.
  split; [by vm_compute|]. split; [by vm_compute; eexists|]. split.
  - eexists. split; [reflexivity | by vm_compute].
  - simpl. intros H. repeat destruct H as [H|H]; done.
Qed.

(** ** The round trip of a response *)

Module RoundTripFacts.
Import Http Relay Aux.

(** The Base64 text of a byte sequence is given back as these bytes. *)
Lemma end_base64_encode bytes : end_base64 (Base64.encode bytes) = BodyBuffer bytes.
Proof.
  unfold end_base64. cbv zeta.
  by rewrite Base64Facts.decode_encode, String.eqb_refl.
Qed.

Lemma frame_body_encode body :
  frame_body (if (0 <? length body)%nat then Some (Base64.encode body) else None)
  = buffer_body body.
Proof.
  destruct body as [|b body]; [done|].
  change (0 <? length (b :: body))%nat with true. cbv iota.
  unfold frame_body, Js.truthy_opt.
  rewrite Base64Facts.encode_nonempty by done.
  cbn -[Base64.encode Base64.decode end_base64]. by rewrite end_base64_encode.
Qed.

(** Headers that are all non-empty strings go through the flattening
    loop unchanged. *)
Lemma flatten_headers_strings (hdrs : gmap string string) :
  (forall k v, hdrs !! k = Some v -> v <> EmptyString) ->
  flatten_headers (HStr <$> hdrs) = hdrs.
Proof.
  intros Hne. apply map_eq. intros k. unfold flatten_headers.
  rewrite lookup_omap, lookup_fmap.
  destruct (hdrs !! k) as [v|] eqn:Hk; [|done]. simpl.
  specialize (Hne k v Hk). by destruct v.
Qed.

Lemma sendResponse_open response c w :
  Agent.ws c = Some w -> is_open (Agent.socket_of c w) = true ->
  outbox (Agent.socket_of (Agent.sendResponse response c) w)
  = outbox (Agent.socket_of c w) ++ [TunnelResponseMsg response].
Proof.
  intros Hw Hopen. unfold Agent.sendResponse. rewrite Hw, Hopen.
  unfold Agent.socket_of at 1. simpl. rewrite lookup_insert_eq. simpl.
  unfold ws_send. by rewrite Hopen.
Qed.

End RoundTripFacts.

(** C1 (as amended). Let a public request be pending in a state the
    relay reached (it was within the body cap and routed to a tunnel),
    and let the agent, its channel open, get the answer of the local
    origin to the frame of that request: a status, the header object
    Node parsed, the chunks of the body.  Let the status (500 for a
    status of 0 or none) be between 100 and 999, and let the headers of
    non-empty value be ones [res.writeHead] accepts (names that are HTTP
    tokens, values without control characters), none of them named
    [trailer].  Then the agent sends one [tunnel-response] frame, and the
    relay, on that frame, writes to the response of the request exactly
    one reply: that status, the headers of the origin with a non-empty
    value, a multi-valued one joined by a comma and a space, minus
    [transfer-encoding], and the body bytes of the origin.  When every
    header of the origin is a non-empty string and the status is not 0,
    this is the status, the headers minus [transfer-encoding], and the
    body. *)
Theorem round_trip cfg evs st request proxyRes c w wr sub pending :
  Relay.run cfg Relay.init evs = Some st ->
  Relay.pendingRequests st !! Http.rq_id request = Some pending ->
  Relay.channels st !! wr = Some sub ->
  Agent.ws c = Some w ->
  Http.is_open (Agent.socket_of c w) = true ->
  let frame := Agent.proxyToLocal request proxyRes in
  let status := Agent.status_or_500 (Agent.statusCode proxyRes) in
  let headers :=
    delete "transfer-encoding" (Http.flatten_headers (Agent.res_headers proxyRes)) in
  (100 <= status <= 999)%N ->
  Http.valid_headers headers = true ->
  Aux.no_trailer headers = true ->
  let body := Aux.buffer_body (concat (Agent.res_chunks proxyRes)) in
  let reply := Http.mkReply status headers body in
  Http.outbox (Agent.socket_of (Agent.handleTunnelRequest request proxyRes c) w)
  = Http.outbox (Agent.socket_of c w) ++ [Http.TunnelResponseMsg frame]
  /\ Relay.response_of
       (Relay.on_message wr (Some (Http.TunnelResponseMsg frame)) st)
       (Relay.pend_res pending)
     = Http.mkServerResponse true [reply]
  /\ (forall origin_status (hdrs : gmap string string),
        Agent.statusCode proxyRes = Some origin_status -> origin_status <> 0%N ->
        Agent.res_headers proxyRes = Http.HStr <$> hdrs ->
        (forall k v, hdrs !! k = Some v -> v <> EmptyString) ->
        reply = Http.mkReply origin_status (delete "transfer-encoding" hdrs) body).
Proof.
  intros Hrun Hp Hch Hw Hopen frame status headers Hstatus Hheaders _. cbv zeta.
  assert (HI : Aux.Inv st) by (eapply MachineFacts.Inv_run; [apply MachineFacts.Inv_init | done]).
  destruct (DispatchResponseFacts.status_stored status Hstatus) as [Hvalid Hstored].
  assert (Hok : Http.writeHead_accepts (Http.rs_status frame)
                  (delete "transfer-encoding" (Http.rs_headers frame)) = true).
  { unfold Http.writeHead_accepts. apply andb_true_iff. by split. }
  split; [|split].
  - unfold Agent.handleTunnelRequest, Agent.emit, Agent.socket_of at 1. simpl.
    by apply RoundTripFacts.sendResponse_open.
  - unfold Relay.on_message. rewrite Hch.
    rewrite (DispatchResponseFacts.handleTunnelResponse_hit _ pending _ HI) by done.
    rewrite DispatchResponseFacts.response_of_respond, decide_True by done.
    assert (Relay.response_of
              (Relay.with_pending (delete (Http.rs_id frame))
                 (Relay.clearTimeout (Relay.pend_timeout pending) st))
              (Relay.pend_res pending) = Http.fresh_response) as ->.
    { apply MachineFacts.response_of_None. simpl. by eapply Aux.inv_pending. }
    change (Http.rs_status frame) with status. rewrite Hstored.
    change (Http.rs_body frame)
      with (if (0 <? length (concat (Agent.res_chunks proxyRes)))%nat
            then Some (Base64.encode (concat (Agent.res_chunks proxyRes))) else None).
    by rewrite RoundTripFacts.frame_body_encode.
  - intros origin_status hdrs Hs Hnz Hh Hne. subst status headers.
    rewrite Hs, Hh.
    rewrite RoundTripFacts.flatten_headers_strings by done.
    unfold Agent.status_or_500. by rewrite (proj2 (N.eqb_neq _ _) Hnz).
Qed.

(** C1, at an input: the scenario request, and the origin answering
    200 with a [transfer-encoding] header and the body [Hi]. *)
Lemma round_trip_witness :
  let frame := Agent.proxyToLocal Aux.scenario_frame Aux.scenario_origin in
  let status := Agent.status_or_500 (Agent.statusCode Aux.scenario_origin) in
  let headers :=
    delete "transfer-encoding"
      (Http.flatten_headers (Agent.res_headers Aux.scenario_origin)) in
  let body := Aux.buffer_body (concat (Agent.res_chunks Aux.scenario_origin)) in
  let reply := Http.mkReply status headers body in
  Http.outbox
    (Agent.socket_of
       (Agent.handleTunnelRequest Aux.scenario_frame Aux.scenario_origin
          Aux.scenario_client) 0)
  = Http.outbox (Agent.socket_of Aux.scenario_client 0) ++ [Http.TunnelResponseMsg frame]
  /\ Relay.response_of
       (Relay.on_message 0 (Some (Http.TunnelResponseMsg frame)) Aux.scenario_pending)
       (Relay.pend_res (Relay.mkPending 2 3))
     = Http.mkServerResponse true [reply]
  /\ (forall origin_status (hdrs : gmap string string),
        Agent.statusCode Aux.scenario_origin = Some origin_status -> origin_status <> 0%N ->
        Agent.res_headers Aux.scenario_origin = Http.HStr <$> hdrs ->
        (forall k v, hdrs !! k = Some v -> v <> EmptyString) ->
        reply = Http.mkReply origin_status (delete "transfer-encoding" hdrs) body).
Proof.
  apply (round_trip Aux.scenario_cfg Aux.scenario_events Aux.scenario_pending
           Aux.scenario_frame Aux.scenario_origin Aux.scenario_client 0 0 "myapp"
           (Relay.mkPending 2 3)).
  - vm_compute. reflexivity.
  - vm_compute. reflexivity.
  - vm_compute. reflexivity.
  - reflexivity.
  - reflexivity.
  - vm_compute. split; discriminate.
  - vm_compute. reflexivity.
  - vm_compute. reflexivity.
Defined.

(** C1, the counterexample.  The scenario request is pending and the
    origin answers 200 with the headers [content-type: text/plain] and
    [x-empty:] (an empty value) and the body [Hi].  The reply the relay
    writes carries [content-type] alone: besides [transfer-encoding],
    the header with the empty value was removed. *)
Lemma empty_header_is_dropped :
  let frame := Agent.proxyToLocal Aux.scenario_frame Aux.scenario_origin_empty_header in
  Relay.pendingRequests Aux.scenario_pending !! Http.rq_id Aux.scenario_frame
  = Some (Relay.mkPending 2 3)
  /\ Relay.response_of
       (Relay.on_message 0 (Some (Http.TunnelResponseMsg frame)) Aux.scenario_pending) 2
     = Http.mkServerResponse true
         [Http.mkReply 200 {[ "content-type" := "text/plain" ]}
            (Http.BodyBuffer [x48; x69])]
  /\ ({[ "content-type" := "text/plain" ]} : gmap string string)
     <> delete "transfer-encoding" Aux.scenario_origin_headers.
Proof.
  cbv zeta. split; [by vm_compute|]. split; [by vm_compute|].
  intros H. apply (f_equal (fun m => m !! "x-empty")) in H. by vm_compute in H.
Qed.

(** ** The cases of the test suite, run on the model *)

Module Scenarios.
Import Http Relay Aux.

Example MAX_BODY_SIZE_is_10_MiB : MAX_BODY_SIZE = 10485760%N.
Proof. reflexivity. Qed.

Example base64_Hello : Base64.encode [x48; x65; x6c; x6c; x6f] = "SGVsbG8=".
Proof. reflexivity. Qed.

Example base64_Hello_back : Base64.decode "SGVsbG8=" = [x48; x65; x6c; x6c; x6f].
Proof. reflexivity. Qed.

Example validateApiKey_suite :
  Auth.validateApiKey (Some "sk_abc123") ["sk_abc123"; "sk_def456"] = true
  /\ Auth.validateApiKey (Some "sk_wrong") ["sk_abc123"; "sk_def456"] = false
  /\ Auth.validateApiKey None ["sk_abc123"; "sk_def456"] = false
  /\ Auth.validateApiKey (Some EmptyString) ["sk_abc123"; "sk_def456"] = false
  /\ Auth.validateApiKey (Some "sk_abc123") [] = false.
Proof. by repeat split. Qed.

Example isValidSubdomain_suite :
  Subdomain.isValidSubdomain "my-app" = true
  /\ Subdomain.isValidSubdomain "a1b2c3d4" = true
  /\ Subdomain.isValidSubdomain "a" = false
  /\ Subdomain.isValidSubdomain "my_app" = false
  /\ Subdomain.isValidSubdomain "my.app" = false
  /\ Subdomain.isValidSubdomain "-my-app-" = false.
Proof. by vm_compute. Qed.

Example generateSubdomain_sample :
  Subdomain.generateSubdomain [xff; x24; x25; x00; x19; x1a; x23; x47] = "dabaz099".
Proof. reflexivity. Qed.

(** Preferred label: the agent asks for [myapp] and is assigned
    [https://myapp.tunnel.test.local]. *)
Example preferred_label :
  tunnels scenario_state !! "myapp" = Some (mkConn 0 "myapp" 1 true)
  /\ outbox (socket_of scenario_state 0)
     = [TunnelAssigned "myapp" "https://myapp.tunnel.test.local"].
Proof. by vm_compute. Qed.

(** A second agent asks for [myapp] while it is taken: it gets a minted
    label, here the one the all-zero tape draws. *)
Example taken_label_is_minted :
  (fun st => (tunnels st !! "aaaaaaaa", size (tunnels st)))
    <$> run scenario_cfg scenario_state
          [EvUpgrade 1 scenario_tape "/tunnel" scenario_handshake]
  = Some (Some (mkConn 3 "aaaaaaaa" 4 true), 2).
Proof. by vm_compute. Qed.

(** Auth denial: [x-api-key: wrong_key] is answered 401 and the state is
    the one before. *)
Example auth_denial :
  on_upgrade scenario_cfg 1 scenario_tape "/tunnel"
    (mkIncomingMessage (Some "GET") (Some "/tunnel") {[ "x-api-key" := HStr "wrong_key" ]})
    scenario_state
  = Some (Rejected (Some (mkRaw 401 "Unauthorized" [] None)), scenario_state).
Proof. by vm_compute. Qed.

(** Unknown host: [GET /test] for [unknown.tunnel.test.local] is
    answered 404 with a body naming [unknown]. *)
Example unknown_host :
  response_of
    (handleHttpRequest scenario_cfg
       (mkIncomingMessage (Some "GET") (Some "/test")
          {[ "host" := HStr "unknown.tunnel.test.local" ]})
       7 scenario_state) 7
  = mkServerResponse true
      [mkReply 404 json_headers
         (BodyJson [("error", JStr "Tunnel not found"); ("subdomain", JStr "unknown")])].
Proof. by vm_compute. Qed.

(** Health endpoint on the base domain. *)
Example health :
  response_of
    (handleHttpRequest scenario_cfg
       (mkIncomingMessage (Some "GET") (Some "/health")
          {[ "host" := HStr "tunnel.test.local" ]})
       7 scenario_state) 7
  = mkServerResponse true
      [mkReply 200 json_headers
         (BodyJson [("status", JStr "ok"); ("tunnels", JNum 1); ("maxTunnels", JNum 10)])].
Proof. by vm_compute. Qed.

(** The frame of the pending scenario request, and the round trip of
    the answer [Hi] of the origin. *)
Example pending_request :
  pendingRequests scenario_pending !! "uuid-1" = Some (mkPending 2 3)
  /\ timeouts scenario_pending !! 3 = Some "uuid-1"
  /\ rq_body scenario_frame = Some "aGk="
  /\ last (outbox (socket_of scenario_pending 0)) = Some (TunnelRequestMsg scenario_frame).
Proof. by vm_compute. Qed.

Example echo_round_trip :
  response_of
    (on_message 0
       (Some (TunnelResponseMsg (Agent.proxyToLocal scenario_frame scenario_origin)))
       scenario_pending) 2
  = mkServerResponse true
      [mkReply 200 {[ "content-type" := "text/plain" ]} (BodyBuffer [x48; x69])].
Proof. by vm_compute. Qed.

(** What [res.writeHead] accepts: a status after [|= 0], a header name,
    a header value. *)
Example writeHead_checks :
  valid_status 200 = true /\ valid_status 99 = false /\ valid_status 1000 = false
  /\ valid_status 0 = false /\ valid_status (2 ^ 32 + 200) = true
  /\ valid_status (2 ^ 32 - 1) = false
  /\ checkIsHttpToken "content-type" = true /\ checkIsHttpToken "x y" = false
  /\ checkIsHttpToken EmptyString = false
  /\ checkInvalidHeaderChar "text/plain; charset=utf-8" = false
  /\ checkInvalidHeaderChar (String (ascii_of_N 10) "x") = true
  /\ writeHead_accepts 404 {[ "content-type" := "application/json" ]} = true
  /\ no_trailer {[ "Trailer" := "x-checksum" ]} = false.
Proof. by vm_compute. Qed.

(** A body that is not padded Base64 text is recorded as the call. *)
Example body_of_frame :
  frame_body (Some "SGk=") = BodyBuffer [x48; x69]
  /\ frame_body (Some "SGk") = BodyBase64 "SGk"
  /\ frame_body (Some EmptyString) = BodyEmpty
  /\ frame_body None = BodyEmpty.
Proof. by vm_compute. Qed.

(** Shutdown drains the pending request with 503. *)
Example shutdown_drains :
  response_of (stop scenario_pending) 2
  = mkServerResponse true [mkReply 503 ∅ (BodyText "Server shutting down")]
  /\ pendingRequests (stop scenario_pending) = ∅
  /\ tunnels (stop scenario_pending) = ∅.
Proof. by vm_compute. Qed.

End Scenarios.

(* ================================================================== *)
(** * Further properties of the relay and of the agent *)

(** ** The registry of a reachable state *)

Module RegistryFacts.
Import Http Relay Aux MachineFacts DispatchResponseFacts.

Lemma Registry_init cfg : Registry cfg init.
Proof. split; simpl; intros; simplify_map_eq; try done. rewrite map_size_empty. lia. Qed.

Lemma Registry_frame cfg st st' :
  tunnels st' = tunnels st -> channels st' = channels st ->
  intervals st' = intervals st -> next_handle st <= next_handle st' ->
  Registry cfg st -> Registry cfg st'.
Proof.
  intros Ht Hc Hi Hn [K C B F M]. split; rewrite ?Ht, ?Hc, ?Hi; try done.
  intros s conn H. specialize (F s conn H). lia.
Qed.

Lemma Registry_removeTunnel cfg s st : Registry cfg st -> Registry cfg (removeTunnel s st).
Proof.
  intros HR. pose proof HR as [K C B F M]. unfold removeTunnel.
  destruct (tunnels st !! s) as [conn|] eqn:Hs; [|done].
  split; simpl.
  - intros s' c' [_ H]%lookup_delete_Some. by apply K.
  - intros s' c' [_ H]%lookup_delete_Some. by apply C.
  - intros i s' [Hne Hi]%lookup_delete_Some.
    destruct (B i s' Hi) as (c' & Hc' & Hb). exists c'. split; [|done].
    rewrite lookup_delete_ne; [done|]. intros <-. congruence.
  - intros s' c' [_ H]%lookup_delete_Some. by eapply F.
  - rewrite map_size_delete, Hs. lia.
Qed.

Lemma size_alter {A} (f : A -> A) (s : string) (m : gmap string A) :
  size (alter f s m) = size m.
Proof. by rewrite <- !(size_dom (D := gset string)), dom_alter_L. Qed.

Lemma Registry_alter cfg s w v st :
  Registry cfg st -> Registry cfg (with_tunnels (alter (set_alive w v) s) st).
Proof.
  intros [K C B F M].
  assert (Hlook : forall s' c', alter (set_alive w v) s (tunnels st) !! s' = Some c' ->
            exists c, tunnels st !! s' = Some c /\ conn_ws c' = conn_ws c
                      /\ conn_subdomain c' = conn_subdomain c
                      /\ conn_heartbeat c' = conn_heartbeat c).
  { intros s' c'. rewrite lookup_alter. case_decide; [|by eauto].
    subst. destruct (tunnels st !! s') as [c|]; [|done]. intros [= <-].
    exists c. split; [done|]. unfold set_alive. by case_match. }
  split; simpl.
  - intros s' c' (c & H & _ & -> & _)%Hlook. by apply K.
  - intros s' c' (c & H & -> & _)%Hlook. by apply C.
  - intros i s' Hi. destruct (B i s' Hi) as (c & Hc & Hb).
    rewrite lookup_alter. case_decide; [|by eauto]. subst.
    rewrite Hc. simpl. eexists. split; [done|]. unfold set_alive. by case_match.
  - intros s' c' (c & H & -> & _)%Hlook. by eapply F.
  - by rewrite size_alter.
Qed.

Lemma resolveSubdomain_free fuel tape requested st sub :
  resolveSubdomain fuel tape requested st = Some sub -> tunnels st !! sub = None.
Proof.
  unfold resolveSubdomain.
  assert (Hmint : mint fuel (tunnels st) tape 0 = Some sub -> tunnels st !! sub = None).
  { by intros (? & _)%HandshakeFacts.mint_sound. }
  destruct requested as [r|]; [|done].
  destruct (Js.truthy r && Subdomain.isValidSubdomain r
            && negb (bool_decide (is_Some (tunnels st !! r)))) eqn:Hc; [|done].
  intros [= <-]. apply andb_true_iff in Hc as [_ Hfree%negb_true_iff].
  apply bool_decide_eq_false in Hfree. by apply eq_None_not_Some.
Qed.

Lemma Registry_handshake cfg fuel tape req st st' :
  Registry cfg st ->
  (N.of_nat (size (tunnels st)) < maxTunnels cfg)%N ->
  handleWebSocketConnection cfg fuel tape req st = Some st' ->
  Registry cfg st'.
Proof.
  intros [K C B F M] Hcap. unfold handleWebSocketConnection, alloc, send.
  cbn beta iota zeta.
  destruct (resolveSubdomain _ _ _ _) as [sub|] eqn:Hsub; [|done].
  apply resolveSubdomain_free in Hsub. simpl in Hsub. intros [= <-].
  split; simpl.
  - intros s conn. rewrite lookup_insert. case_decide; [by intros [= <-]|]. apply K.
  - intros s conn. rewrite lookup_insert. case_decide.
    + intros [= <-]. simpl. subst. apply lookup_insert_eq.
    + intros H'. rewrite lookup_insert_ne; [by apply C|].
      specialize (F _ _ H'). lia.
  - intros i s. rewrite lookup_insert. case_decide.
    + intros [= <-]. subst. eexists. by rewrite lookup_insert_eq.
    + intros Hi. destruct (B i s Hi) as (conn & Hc & Hb).
      exists conn. rewrite lookup_insert_ne; [done|]. intros ->. congruence.
  - intros s conn. rewrite lookup_insert. case_decide.
    + intros [= <-]. simpl. lia.
    + intros H'. specialize (F _ _ H'). lia.
  - rewrite map_size_insert_None by done. lia.
Qed.

Lemma admission_Upgraded cfg pathname req st :
  admission cfg pathname req st = Upgraded ->
  pathname = "/tunnel"
  /\ Auth.validateApiKey (header req "x-api-key") (apiKeys cfg) = true
  /\ (N.of_nat (size (tunnels st)) < maxTunnels cfg)%N.
Proof.
  unfold admission.
  destruct (String.eqb pathname "/tunnel") eqn:Hp; [|done].
  destruct (Auth.validateApiKey _ _); [|done]. simpl.
  destruct (maxTunnels cfg <=? N.of_nat (size (tunnels st)))%N eqn:Hm; [done|].
  intros _. apply String.eqb_eq in Hp. apply N.leb_gt in Hm. done.
Qed.

Lemma Registry_on_upgrade cfg fuel tape pathname req st r st' :
  Registry cfg st -> on_upgrade cfg fuel tape pathname req st = Some (r, st') ->
  Registry cfg st'.
Proof.
  intros HR. unfold on_upgrade.
  destruct (admission cfg pathname req st) eqn:Ha; [by intros [= _ <-]|].
  apply admission_Upgraded in Ha as (_ & _ & Hcap).
  destruct (handleWebSocketConnection _ _ _ _ _) as [s|] eqn:Hh; [|done].
  intros [= _ <-]. by eapply Registry_handshake.
Qed.

Ltac registry_frame HR := revert HR; apply Registry_frame; simpl; done || lia.

Lemma Registry_handleHttpRequest cfg req st :
  Registry cfg st -> Registry cfg (handleHttpRequest cfg req (next_handle st) (alloc st).2).
Proof.
  intros HR.
  assert (HR' : Registry cfg (alloc st).2) by registry_frame HR.
  unfold handleHttpRequest, surface, respond.
  repeat case_match; try registry_frame HR'.
  apply Registry_removeTunnel. registry_frame HR'.
Qed.

Lemma Registry_on_data cfg r chunk st : Registry cfg st -> Registry cfg (on_data r chunk st).
Proof. intros HR. unfold on_data, respond. repeat case_match; try done; registry_frame HR. Qed.

Lemma Registry_on_end cfg r uuid st : Registry cfg st -> Registry cfg (on_end r uuid st).
Proof.
  intros HR. unfold on_end, alloc, send. cbn beta iota zeta.
  repeat case_match; try done; registry_frame HR.
Qed.

Lemma Registry_on_error cfg r st : Registry cfg st -> Registry cfg (on_error r st).
Proof. intros HR. unfold on_error, respond. repeat case_match; try done; registry_frame HR. Qed.

Lemma Registry_on_timeout cfg t st : Registry cfg st -> Registry cfg (on_timeout t st).
Proof. intros HR. unfold on_timeout, respond. repeat case_match; try done; registry_frame HR. Qed.

Lemma Registry_handleTunnelResponse cfg response st :
  Registry cfg st -> Registry cfg (handleTunnelResponse response st).
Proof.
  intros HR. unfold handleTunnelResponse, respond, clearTimeout.
  repeat case_match; try done; registry_frame HR.
Qed.

Lemma Registry_on_message cfg w message st :
  Registry cfg st -> Registry cfg (on_message w message st).
Proof.
  intros HR. unfold on_message. repeat case_match; try done.
  - by apply Registry_handleTunnelResponse.
  - by apply Registry_alter.
Qed.

Lemma Registry_on_ws_close cfg w st : Registry cfg st -> Registry cfg (on_ws_close w st).
Proof.
  intros HR. unfold on_ws_close. case_match; [|done].
  apply Registry_removeTunnel. registry_frame HR.
Qed.

Lemma Registry_on_ws_error cfg w st : Registry cfg st -> Registry cfg (on_ws_error w st).
Proof. intros HR. unfold on_ws_error. case_match; [|done]. by apply Registry_removeTunnel. Qed.

Lemma Registry_clearInterval cfg i st : Registry cfg st -> Registry cfg (clearInterval i st).
Proof.
  intros [K C B F M]. split; simpl; try done.
  intros i' s [_ H]%lookup_delete_Some. by apply B.
Qed.

Lemma Registry_on_heartbeat cfg i st : Registry cfg st -> Registry cfg (on_heartbeat i st).
Proof.
  intros HR. unfold on_heartbeat, send. repeat case_match; try done.
  - apply (Registry_clearInterval _ i) in HR. registry_frame HR.
  - match goal with |- context [alter (set_alive ?w ?v) ?s] =>
      apply (Registry_alter _ s w v) in HR end. registry_frame HR.
Qed.

Lemma stop_tunnel_intervals l : forall st i s,
  intervals (foldl stop_tunnel st l) !! i = Some s ->
  intervals st !! i = Some s /\ Forall (fun e => conn_heartbeat e.2 <> i) l.
Proof.
  induction l as [|e l IH]; intros st i s; simpl; [by split|].
  intros (Hi & Hall)%IH. unfold stop_tunnel, clearInterval in Hi. simpl in Hi.
  apply lookup_delete_Some in Hi as [Hne Hi]. split; [done|]. by constructor.
Qed.

Lemma stop_pending_registry l : forall st,
  tunnels (foldl stop_pending st l) = tunnels st
  /\ channels (foldl stop_pending st l) = channels st
  /\ intervals (foldl stop_pending st l) = intervals st
  /\ next_handle (foldl stop_pending st l) = next_handle st
  /\ pendingRequests (foldl stop_pending st l) = pendingRequests st.
Proof.
  induction l as [|e l IH]; intros st; simpl; [done|].
  destruct (IH (stop_pending st e)) as (-> & -> & -> & -> & ->).
  unfold stop_pending. by case_match.
Qed.

Lemma stop_tunnel_others l : forall st,
  channels (foldl stop_tunnel st l) = channels st
  /\ next_handle (foldl stop_tunnel st l) = next_handle st
  /\ timeouts (foldl stop_tunnel st l) = timeouts st.
Proof.
  induction l as [|e l IH]; intros st; simpl; [done|].
  destruct (IH (stop_tunnel st e)) as (-> & -> & ->). done.
Qed.

Lemma stop_intervals st i :
  (forall i s, intervals st !! i = Some s ->
     exists conn, tunnels st !! s = Some conn /\ conn_heartbeat conn = i) ->
  intervals (stop st) !! i = None.
Proof.
  intros B. unfold stop. cbv zeta. simpl.
  match goal with |- intervals (foldl stop_pending ?s ?l) !! _ = _ =>
    destruct (stop_pending_registry l s) as (_ & _ & -> & _) end.
  simpl. destruct (intervals (foldl stop_tunnel st _) !! i) as [s|] eqn:Hi; [|done].
  apply stop_tunnel_intervals in Hi as [Hi Hall].
  destruct (B i s Hi) as (conn & Hc & Hb).
  rewrite Forall_forall in Hall.
  destruct (Hall (s, conn)); [|done]. by apply elem_of_map_to_list.
Qed.

Lemma Registry_stop cfg st : Registry cfg st -> Registry cfg (stop st).
Proof.
  intros [K C B F M].
  assert (Ht : tunnels (stop st) = ∅).
  { unfold stop. cbv zeta. simpl.
    match goal with |- tunnels (foldl stop_pending ?s ?l) = _ =>
      by destruct (stop_pending_registry l s) as (-> & _) end. }
  split; rewrite ?Ht; try done.
  - intros i s. by rewrite stop_intervals.
  - rewrite map_size_empty. lia.
Qed.

Lemma Registry_step cfg st ev st' : Registry cfg st -> step cfg st ev = Some st' -> Registry cfg st'.
Proof.
  intros HR. destruct ev; simpl.
  - destruct (on_upgrade _ _ _ _ _ _) as [[r s]|] eqn:Hup; [|done].
    intros [= <-]. by eapply Registry_on_upgrade.
  - intros [= <-]. by apply Registry_handleHttpRequest.
  - intros [= <-]. by apply Registry_on_data.
  - intros [= <-]. by apply Registry_on_end.
  - intros [= <-]. by apply Registry_on_error.
  - intros [= <-]. by apply Registry_on_timeout.
  - intros [= <-]. by apply Registry_on_message.
  - intros [= <-]. by apply Registry_on_ws_close.
  - intros [= <-]. by apply Registry_on_ws_error.
  - intros [= <-]. by apply Registry_on_heartbeat.
  - intros [= <-]. by apply Registry_stop.
Qed.

Lemma Registry_run cfg evs : forall st st',
  Registry cfg st -> run cfg st evs = Some st' -> Registry cfg st'.
Proof.
  induction evs as [|ev evs IH]; intros st st' HR; simpl; [by intros [= <-]|].
  destruct (step cfg st ev) as [st1|] eqn:Hstep; [|done].
  apply IH. by eapply Registry_step.
Qed.

End RegistryFacts.

(** ** The timers of the pending requests *)

Module TimerFacts.
Import Http Relay Aux MachineFacts DispatchResponseFacts RegistryFacts.

Lemma Timers_init : Timers init.
Proof. split; simpl; intros; simplify_map_eq. Qed.

Lemma Timers_frame st st' :
  pendingRequests st' = pendingRequests st -> timeouts st' = timeouts st ->
  next_handle st <= next_handle st' -> Timers st -> Timers st'.
Proof.
  intros Hp Ht Hn [A F]. split; rewrite ?Hp, ?Ht; try done.
  intros id p H. specialize (F id p H). lia.
Qed.

Ltac timers_frame HT := revert HT; apply Timers_frame; simpl; done || lia.

(** An entry leaves the table together with a timer that is not the one
    of another entry. *)
Lemma Timers_settle st id t :
  Timers st -> (forall id' p', pendingRequests st !! id' = Some p' ->
                               pend_timeout p' = t -> id' = id) ->
  Timers (with_pending (delete id) (with_timeouts (delete t) st)).
Proof.
  intros [A F] Hown. split; simpl.
  - intros id' p' [Hne Hp]%lookup_delete_Some.
    rewrite lookup_delete_ne; [by apply A|]. intros Heq. apply Hne. symmetry. by eapply Hown.
  - intros id' p' [_ Hp]%lookup_delete_Some. by eapply F.
Qed.

Lemma Timers_on_timeout t st : Timers st -> Timers (on_timeout t st).
Proof.
  intros HT. pose proof HT as [A F]. unfold on_timeout.
  destruct (timeouts st !! t) as [id|] eqn:Ht; [|done].
  assert (Hown : forall id' p', pendingRequests st !! id' = Some p' ->
                                pend_timeout p' = t -> id' = id).
  { intros id' p' Hp Heq. apply A in Hp. rewrite Heq in Hp. congruence. }
  pose proof (Timers_settle st id t HT Hown) as HT'.
  simpl. repeat case_match; timers_frame HT'.
Qed.

Lemma Timers_handleTunnelResponse response st :
  Timers st -> Timers (handleTunnelResponse response st).
Proof.
  intros HT. pose proof HT as [A F]. unfold handleTunnelResponse.
  destruct (pendingRequests st !! rs_id response) as [p|] eqn:Hp; [|done].
  assert (Hown : forall id' p', pendingRequests st !! id' = Some p' ->
                                pend_timeout p' = pend_timeout p -> id' = rs_id response).
  { intros id' p' Hp' Heq. apply A in Hp', Hp. congruence. }
  pose proof (Timers_settle st _ _ HT Hown) as HT'.
  unfold clearTimeout, respond. repeat case_match; timers_frame HT'.
Qed.

Lemma Timers_on_end r uuid st : Timers st -> Timers (on_end r uuid st).
Proof.
  intros HT. pose proof HT as [A F]. unfold on_end, alloc, send. cbn beta iota zeta.
  repeat case_match; try done; try timers_frame HT.
  split; simpl.
  - intros id p. rewrite lookup_insert. case_decide.
    + intros [= <-]. simpl. subst. apply lookup_insert_eq.
    + intros Hp. rewrite lookup_insert_ne; [by apply A|].
      specialize (F _ _ Hp). lia.
  - intros id p. rewrite lookup_insert. case_decide.
    + intros [= <-]. simpl. lia.
    + intros Hp. specialize (F _ _ Hp). lia.
Qed.

Lemma Timers_removeTunnel s st : Timers st -> Timers (removeTunnel s st).
Proof. intros HT. unfold removeTunnel, clearInterval. case_match; [|done]. timers_frame HT. Qed.

Lemma Timers_stop st : Timers (stop st).
Proof.
  assert (Hp : pendingRequests (stop st) = ∅) by done.
  split; rewrite Hp; intros id p; by rewrite lookup_empty.
Qed.

Lemma Timers_step cfg st ev st' : Timers st -> step cfg st ev = Some st' -> Timers st'.
Proof.
  intros HT. destruct ev; simpl.
  - unfold on_upgrade, handleWebSocketConnection, alloc, send.
    destruct (admission _ _ _ _); [by intros [= <-]|]. cbn beta iota zeta.
    destruct (resolveSubdomain _ _ _ _); [|done]. intros [= <-]. timers_frame HT.
  - intros [= <-]. unfold handleHttpRequest, surface, respond.
    repeat case_match; try timers_frame HT.
    apply Timers_removeTunnel. timers_frame HT.
  - intros [= <-]. unfold on_data, respond. repeat case_match; try done; timers_frame HT.
  - intros [= <-]. by apply Timers_on_end.
  - intros [= <-]. unfold on_error, respond. repeat case_match; try done; timers_frame HT.
  - intros [= <-]. by apply Timers_on_timeout.
  - intros [= <-]. unfold on_message. repeat case_match; try done.
    + by apply Timers_handleTunnelResponse.
    + timers_frame HT.
  - intros [= <-]. unfold on_ws_close. case_match; [|done].
    apply Timers_removeTunnel. timers_frame HT.
  - intros [= <-]. unfold on_ws_error. case_match; [|done]. by apply Timers_removeTunnel.
  - intros [= <-]. unfold on_heartbeat, send, clearInterval.
    repeat case_match; try done; timers_frame HT.
  - intros [= <-]. apply Timers_stop.
Qed.

Lemma Timers_run cfg evs : forall st st', Timers st -> run cfg st evs = Some st' -> Timers st'.
Proof.
  induction evs as [|ev evs IH]; intros st st' HT; simpl; [by intros [= <-]|].
  destruct (step cfg st ev) as [st1|] eqn:Hstep; [|done].
  apply IH. by eapply Timers_step.
Qed.

End TimerFacts.

(** ** The heartbeat of a tunnel *)

Module HeartbeatFacts.
Import Http Relay Aux MachineFacts DispatchResponseFacts RegistryFacts TimerFacts.

Lemma conn_eta conn :
  mkConn (conn_ws conn) (conn_subdomain conn) (conn_heartbeat conn) (conn_alive conn) = conn.
Proof. by destruct conn. Qed.

Lemma set_alive_own conn v :
  set_alive (conn_ws conn) v conn
  = mkConn (conn_ws conn) (conn_subdomain conn) (conn_heartbeat conn) v.
Proof. unfold set_alive. by rewrite Nat.eqb_refl. Qed.

(** A tick on a connection that answered the last ping. *)
Lemma on_heartbeat_alive st s conn :
  tunnels st !! s = Some conn -> intervals st !! conn_heartbeat conn = Some s ->
  conn_alive conn = true ->
  on_heartbeat (conn_heartbeat conn) st
  = send (conn_ws conn) Ping
      (with_tunnels (insert s (mkConn (conn_ws conn) (conn_subdomain conn)
                                 (conn_heartbeat conn) false)) st).
Proof.
  intros Hs Hi Ha. unfold on_heartbeat. rewrite Hi, Hs, Nat.eqb_refl, Ha. simpl.
  f_equal. unfold with_tunnels. f_equal.
  apply map_eq. intros k. rewrite lookup_alter, lookup_insert.
  case_decide; [|done]. subst. by rewrite Hs, <- set_alive_own.
Qed.

(** A tick on a connection that did not. *)
Lemma on_heartbeat_dead st s conn :
  tunnels st !! s = Some conn -> intervals st !! conn_heartbeat conn = Some s ->
  conn_alive conn = false ->
  on_heartbeat (conn_heartbeat conn) st
  = with_sockets
      (insert (conn_ws conn) (mkWebSocket CLOSED (outbox (socket_of st (conn_ws conn)))))
      (clearInterval (conn_heartbeat conn) st).
Proof.
  intros Hs Hi Ha. unfold on_heartbeat. by rewrite Hi, Hs, Nat.eqb_refl, Ha.
Qed.

Lemma heartbeat_round_alive st s conn :
  tunnels st !! s = Some conn -> intervals st !! conn_heartbeat conn = Some s ->
  channels st !! conn_ws conn = Some s -> conn_alive conn = true ->
  heartbeat_round (conn_heartbeat conn) (conn_ws conn) st = send (conn_ws conn) Ping st.
Proof.
  intros Hs Hi Hc Ha. unfold heartbeat_round.
  rewrite (on_heartbeat_alive st s conn Hs Hi Ha).
  unfold on_message, send. simpl. rewrite Hc. simpl.
  unfold with_tunnels, with_sockets. simpl. f_equal.
  apply map_eq. intros k. rewrite lookup_alter. case_decide as Hk.
  - subst. rewrite lookup_insert_eq, Hs. simpl. f_equal.
    unfold set_alive. simpl. rewrite Nat.eqb_refl. rewrite <- Ha. apply conn_eta.
  - by rewrite lookup_insert_ne.
Qed.

Lemma socket_of_send w m st : socket_of (send w m st) w = ws_send m (socket_of st w).
Proof. unfold send, socket_of at 1. simpl. by rewrite lookup_insert_eq. Qed.

Lemma readyState_ws_send m x : readyState (ws_send m x) = readyState x.
Proof. unfold ws_send. by destruct (is_open x). Qed.

End HeartbeatFacts.

(** ** A tunnel that goes away *)

Module LifecycleFacts.
Import Http Relay Aux MachineFacts DispatchResponseFacts RegistryFacts TimerFacts HeartbeatFacts.

Lemma handleHttpRequest_label cfg req res st s :
  hostname_of req = s +:+ "." +:+ domain cfg -> s <> EmptyString -> s <> "tunnel" ->
  handleHttpRequest cfg req res st
  = match tunnels st !! s with
    | None => respond res (not_found s) st
    | Some tunnel =>
        if is_open (socket_of st (conn_ws tunnel))
        then with_ingresses (insert res (mkIngress req (conn_ws tunnel) [] 0 Reading)) st
        else removeTunnel s (respond res bad_gateway st)
    end.
Proof.
  intros Hs%DispatchFacts.extractSubdomain_Some Hne Hnt. unfold handleHttpRequest.
  rewrite Hs.
  assert (Js.truthy s = true) as -> by (by destruct s).
  assert (String.eqb s "tunnel" = false) as -> by (by apply String.eqb_neq).
  simpl. destruct (tunnels st !! s) as [tunnel|]; [|done].
  by destruct (is_open _).
Qed.

Lemma removeTunnel_gone s st : tunnels (removeTunnel s st) !! s = None.
Proof.
  unfold removeTunnel. destruct (tunnels st !! s) eqn:Hs; [|done].
  simpl. apply lookup_delete_eq.
Qed.

Lemma removeTunnel_responses s st : responses (removeTunnel s st) = responses st.
Proof. unfold removeTunnel. by destruct (tunnels st !! s). Qed.

Lemma response_of_frame st' st r :
  responses st' = responses st -> response_of st' r = response_of st r.
Proof. unfold response_of. by intros ->. Qed.

Lemma is_open_ws_close_if_open x : is_open (ws_close_if_open x) = false.
Proof. unfold ws_close_if_open. by destruct (is_open x) eqn:Ho. Qed.

Lemma Inv_on_ws_close' w st : Inv st -> Inv (on_ws_close w st).
Proof. apply Inv_on_ws_close. Qed.

End LifecycleFacts.

(** ** stop *)

Module ShutdownFacts.
Import Http Relay Aux MachineFacts DispatchResponseFacts RegistryFacts TimerFacts HeartbeatFacts LifecycleFacts.

Lemma stop_pending_ended e st r :
  writableEnded (response_of st r) = true ->
  response_of (stop_pending st e) r = response_of st r.
Proof.
  intros He. unfold stop_pending, clearTimeout. case_match eqn:Hg; [|done].
  rewrite response_of_respond. case_decide; [|done]. subst.
  apply negb_true_iff in Hg.
  rewrite (response_of_frame (with_timeouts _ st) st) in Hg by done. congruence.
Qed.

Lemma stop_pending_fold_ended l : forall st r,
  writableEnded (response_of st r) = true ->
  response_of (foldl stop_pending st l) r = response_of st r.
Proof.
  induction l as [|e l IH]; intros st r He; simpl; [done|].
  rewrite IH; rewrite stop_pending_ended; done.
Qed.

Lemma stop_pending_fold_drains l : forall st r,
  responses st !! r = None ->
  Exists (fun e : string * PendingRequest => pend_res e.2 = r) l ->
  response_of (foldl stop_pending st l) r = mkServerResponse true [shutting_down].
Proof.
  induction l as [|e l IH]; intros st r Hr Hex; simpl; [by apply Exists_nil in Hex|].
  destruct (decide (pend_res e.2 = r)) as [<-|Hne].
  - assert (Hw : response_of (stop_pending st e) (pend_res e.2)
                 = mkServerResponse true [shutting_down]).
    { unfold stop_pending, clearTimeout.
      rewrite (response_of_frame (with_timeouts _ st) st) by done.
      rewrite (response_of_None st _ Hr). simpl.
      rewrite response_of_respond, decide_True by done.
      by rewrite (response_of_frame (with_timeouts _ st) st), (response_of_None st _ Hr). }
    rewrite stop_pending_fold_ended; rewrite Hw; done.
  - apply Exists_cons in Hex as [?|Hex]; [done|].
    apply IH; [|done].
    unfold stop_pending, clearTimeout. case_match; [|done].
    unfold respond. simpl. by rewrite lookup_insert_ne.
Qed.

Lemma stop_pending_fold_timeouts l : forall st t,
  timeouts st !! t = None \/ Exists (fun e : string * PendingRequest => pend_timeout e.2 = t) l ->
  timeouts (foldl stop_pending st l) !! t = None.
Proof.
  induction l as [|e l IH]; intros st t H; simpl.
  - destruct H as [|H]; [done | by apply Exists_nil in H].
  - apply IH.
    assert (Ht : timeouts (stop_pending st e) = delete (pend_timeout e.2) (timeouts st)).
    { unfold stop_pending, clearTimeout. by case_match. }
    rewrite Ht. destruct H as [H|[<-|H]%Exists_cons].
    + left. rewrite lookup_delete_None. by right.
    + left. apply lookup_delete_eq.
    + by right.
Qed.

Lemma stop_pending_fold_sockets l : forall st,
  sockets (foldl stop_pending st l) = sockets st.
Proof.
  induction l as [|e l IH]; intros st; simpl; [done|]. rewrite IH.
  unfold stop_pending. by case_match.
Qed.

Lemma stop_pending_fold_kept l : forall st r w,
  responses st !! r = Some w -> writableEnded w = true ->
  responses (foldl stop_pending st l) !! r = Some w.
Proof.
  induction l as [|e l IH]; intros st r w Hr He; simpl; [done|].
  apply IH; [|done]. unfold stop_pending, clearTimeout. case_match eqn:Hg; [|done].
  unfold respond. simpl. rewrite lookup_insert_ne; [done|]. intros <-.
  apply negb_true_iff in Hg. unfold response_of in Hg. simpl in Hg.
  rewrite Hr in Hg. simpl in Hg. congruence.
Qed.

Lemma is_open_ws_close x : is_open (ws_close x) = false.
Proof. unfold ws_close, is_open. by destruct (readyState x) eqn:Hr; simpl; rewrite ?Hr. Qed.

Lemma stop_tunnel_fold_sockets l : forall st w,
  is_open (socket_of st w) = false
  \/ Exists (fun e : string * TunnelConnection => conn_ws e.2 = w) l ->
  is_open (socket_of (foldl stop_tunnel st l) w) = false.
Proof.
  induction l as [|e l IH]; intros st w H; simpl.
  - destruct H as [|H]; [done | by apply Exists_nil in H].
  - apply IH.
    assert (Hs : forall w', socket_of (stop_tunnel st e) w'
                 = if decide (conn_ws e.2 = w') then ws_close (socket_of st (conn_ws e.2))
                   else socket_of st w').
    { intros w'. unfold stop_tunnel, socket_of at 1, clearInterval. simpl.
      rewrite lookup_insert. by case_decide. }
    rewrite Hs. destruct H as [H|[<-|H]%Exists_cons].
    + left. case_decide; [|done]. apply is_open_ws_close.
    + left. rewrite decide_True by done. apply is_open_ws_close.
    + by right.
Qed.

End ShutdownFacts.

(** ** The host of an assigned URL *)

Module HostFacts.
Import Http Relay Aux MachineFacts DispatchResponseFacts RegistryFacts TimerFacts HeartbeatFacts LifecycleFacts ShutdownFacts.

Lemma split_head_app sep s t :
  Forall (fun c => c <> sep) (list_ascii_of_string s) ->
  Js.split_head sep (s +:+ t) = s +:+ Js.split_head sep t.
Proof.
  induction s as [|c s IH]; [done|]. intros [Hc Hs]%Forall_cons.
  rewrite !JsFacts.app_cons. cbn [Js.split_head].
  rewrite (proj2 (Ascii.eqb_neq _ _) Hc). by rewrite IH.
Qed.

Lemma split_head_id_no_sep sep d :
  Js.split_head sep d = d -> Forall (fun c => c <> sep) (list_ascii_of_string d).
Proof.
  induction d as [|c d IH]; simpl; [constructor|].
  destruct (Ascii.eqb c sep) eqn:Hc; [done|]. intros [= Hd].
  constructor; [by apply Ascii.eqb_neq | by apply IH].
Qed.

Lemma append_nil_r s : s +:+ EmptyString = s.
Proof. induction s as [|c s IH]; [done|]. by rewrite JsFacts.app_cons, IH. Qed.

Lemma append_assoc a b c : (a +:+ b) +:+ c = a +:+ b +:+ c.
Proof. induction a as [|x a IH]; [done|]. by rewrite !JsFacts.app_cons, IH. Qed.

Lemma list_ascii_app a b :
  list_ascii_of_string (a +:+ b) = list_ascii_of_string a ++ list_ascii_of_string b.
Proof. induction a as [|x a IH]; [done|]. rewrite JsFacts.app_cons. simpl. by rewrite IH. Qed.

Lemma valid_label_no_colon s :
  Subdomain.isValidSubdomain s = true ->
  Forall (fun c => c <> ":"%char) (list_ascii_of_string s).
Proof.
  intros (_ & Hall & _)%SubdomainFacts.isValidSubdomain_iff.
  eapply Forall_impl; [exact Hall|]. intros c Hc Heq. subst c.
  destruct Hc as [Hc|Hc]; [|discriminate].
  unfold Spec.letter_or_digit in Hc. simpl in Hc. lia.
Qed.

Lemma host_of_label cfg subdomain port :
  Subdomain.isValidSubdomain subdomain = true ->
  Js.split_head ":" (domain cfg) = domain cfg ->
  extractSubdomain cfg (subdomain +:+ "." +:+ domain cfg) = Some subdomain
  /\ extractSubdomain cfg (subdomain +:+ "." +:+ domain cfg +:+ ":" +:+ port) = Some subdomain.
Proof.
  intros Hv Hd.
  pose proof (valid_label_no_colon _ Hv) as Hs.
  pose proof (split_head_id_no_sep _ _ Hd) as Hdn.
  assert (Hhost : Forall (fun c => c <> ":"%char)
                    (list_ascii_of_string (subdomain +:+ "." +:+ domain cfg))).
  { rewrite !list_ascii_app. apply Forall_app. split; [done|].
    apply Forall_app. split; [|done]. by repeat constructor. }
  split; apply DispatchFacts.extractSubdomain_Some.
  - pose proof (split_head_app ":" _ EmptyString Hhost) as H.
    rewrite !append_nil_r in H. exact H.
  - pose proof (split_head_app ":" _ (":" +:+ port) Hhost) as H.
    change (Js.split_head ":" (":" +:+ port)) with EmptyString in H.
    rewrite append_nil_r, !append_assoc in H. exact H.
Qed.

End HostFacts.

(** ** The labels of the registry *)

Module LabelFacts.
Import Http Relay Aux MachineFacts DispatchResponseFacts RegistryFacts.

Lemma Labels_init : Labels init.
Proof. intros s [conn H]. simpl in H. by rewrite lookup_empty in H. Qed.

Lemma Labels_frame st st' : tunnels st' = tunnels st -> Labels st -> Labels st'.
Proof. intros Ht HL s. rewrite Ht. apply HL. Qed.

Ltac labels_frame HL := revert HL; apply Labels_frame; simpl; done.

Lemma Labels_removeTunnel s st : Labels st -> Labels (removeTunnel s st).
Proof.
  intros HL. unfold removeTunnel. destruct (tunnels st !! s); [|done].
  intros s' [c Hc]. simpl in Hc. apply lookup_delete_Some in Hc as [_ Hc].
  apply HL. by eexists.
Qed.

Lemma Labels_alter s w v st :
  Labels st -> Labels (with_tunnels (alter (set_alive w v) s) st).
Proof.
  intros HL s' [c H]. apply HL. simpl in H. rewrite lookup_alter in H.
  case_decide; [|by eexists]. subst. by destruct (tunnels st !! s').
Qed.

Lemma resolveSubdomain_valid fuel tape requested st sub :
  resolveSubdomain fuel tape requested st = Some sub ->
  Subdomain.isValidSubdomain sub = true.
Proof.
  unfold resolveSubdomain.
  assert (Hmint : mint fuel (tunnels st) tape 0 = Some sub ->
                  Subdomain.isValidSubdomain sub = true).
  { by intros (_ & _ & _ & ?)%HandshakeFacts.mint_sound. }
  destruct requested as [r|]; [|done].
  destruct (Js.truthy r && Subdomain.isValidSubdomain r
            && negb (bool_decide (is_Some (tunnels st !! r)))) eqn:Hc; [|done].
  intros [= <-]. by apply andb_true_iff in Hc as [[_ Hv]%andb_true_iff _].
Qed.

Lemma Labels_on_upgrade cfg fuel tape pathname req st r st' :
  Labels st -> on_upgrade cfg fuel tape pathname req st = Some (r, st') -> Labels st'.
Proof.
  intros HL. unfold on_upgrade, handleWebSocketConnection, alloc, send.
  destruct (admission _ _ _ _); [by intros [= _ <-]|]. cbn beta iota zeta.
  destruct (resolveSubdomain _ _ _ _) as [sub|] eqn:Hsub; [|done].
  apply resolveSubdomain_valid in Hsub. intros [= _ <-] s [c H]. simpl in H.
  rewrite lookup_insert in H. case_decide; [by subst|]. apply HL. by eexists.
Qed.

Lemma Labels_stop st : Labels (stop st).
Proof.
  assert (Ht : tunnels (stop st) = ∅).
  { unfold stop. cbv zeta. simpl.
    match goal with |- tunnels (foldl stop_pending ?s ?l) = _ =>
      by destruct (stop_pending_registry l s) as (-> & _) end. }
  intros s [c H]. by rewrite Ht, lookup_empty in H.
Qed.

Lemma Labels_step cfg st ev st' : Labels st -> step cfg st ev = Some st' -> Labels st'.
Proof.
  intros HL. destruct ev; simpl.
  - destruct (on_upgrade _ _ _ _ _ _) as [[r s]|] eqn:Hup; [|done].
    intros [= <-]. by eapply Labels_on_upgrade.
  - intros [= <-]. unfold handleHttpRequest, surface, respond.
    repeat case_match; try labels_frame HL.
    apply Labels_removeTunnel. labels_frame HL.
  - intros [= <-]. unfold on_data, respond. repeat case_match; try done; labels_frame HL.
  - intros [= <-]. unfold on_end, alloc, send. cbn beta iota zeta.
    repeat case_match; try done; labels_frame HL.
  - intros [= <-]. unfold on_error, respond. repeat case_match; try done; labels_frame HL.
  - intros [= <-]. unfold on_timeout, respond. repeat case_match; try done; labels_frame HL.
  - intros [= <-]. unfold on_message. repeat case_match; try done.
    + unfold handleTunnelResponse, respond, clearTimeout.
      repeat case_match; try done; labels_frame HL.
    + by apply Labels_alter.
  - intros [= <-]. unfold on_ws_close. case_match; [|done].
    apply Labels_removeTunnel. labels_frame HL.
  - intros [= <-]. unfold on_ws_error. case_match; [|done]. by apply Labels_removeTunnel.
  - intros [= <-]. unfold on_heartbeat, send, clearInterval.
    repeat case_match; try done; try labels_frame HL.
    match goal with |- context [alter (set_alive ?w ?v) ?s] =>
      apply (Labels_alter s w v) in HL end. labels_frame HL.
  - intros [= <-]. apply Labels_stop.
Qed.

Lemma Labels_run cfg evs : forall st st', Labels st -> run cfg st evs = Some st' -> Labels st'.
Proof.
  induction evs as [|ev evs IH]; intros st st' HL; simpl; [by intros [= <-]|].
  destruct (step cfg st ev) as [st1|] eqn:Hstep; [|done].
  apply IH. by eapply Labels_step.
Qed.

End LabelFacts.

Import Http Relay Aux MachineFacts DispatchResponseFacts RegistryFacts TimerFacts HeartbeatFacts LifecycleFacts ShutdownFacts HostFacts LabelFacts.

(** X1. In every state the relay reaches from its initial one, whatever
    the events, the registry holds at most [maxTunnels] connections: the
    capacity check of the upgrade listener is the only way in. *)
Theorem tunnel_count_bounded cfg evs st :
  run cfg init evs = Some st ->
  (N.of_nat (size (tunnels st)) <= maxTunnels cfg)%N.
Proof.
  intros Hrun. eapply reg_cap, Registry_run; [apply Registry_init | done].
Qed.

Lemma tunnel_count_bounded_witness :
  (N.of_nat (size (tunnels scenario_pending)) <= maxTunnels scenario_cfg)%N.
Proof.
  apply (tunnel_count_bounded scenario_cfg scenario_events scenario_pending).
  vm_compute. reflexivity.
Defined.

(** X3. In every reachable state a running heartbeat timer is the one
    of a connection of the registry, stored under the label the timer
    was created for; [removeTunnel] leaves no timer of the label it
    removes, and [stop] leaves no heartbeat timer at all. *)
Theorem heartbeat_never_leaks cfg evs st :
  run cfg init evs = Some st ->
  (forall i s, intervals st !! i = Some s ->
     exists conn, tunnels st !! s = Some conn
                  /\ conn_heartbeat conn = i /\ conn_subdomain conn = s)
  /\ (forall s i, intervals (removeTunnel s st) !! i = Some s -> False)
  /\ (forall i, intervals (stop st) !! i = None).
Proof.
  intros Hrun.
  assert (HR : Registry cfg st) by (eapply Registry_run; [apply Registry_init | done]).
  split; [|split].
  - intros i s Hi. destruct (reg_heartbeat cfg st HR i s Hi) as (conn & Hc & Hb).
    exists conn. split; [done|]. split; [done|]. by eapply reg_key.
  - intros s i Hi.
    destruct (reg_heartbeat cfg _ (Registry_removeTunnel cfg s st HR) i s Hi)
      as (conn & Hc & _).
    unfold removeTunnel in Hc. destruct (tunnels st !! s) eqn:Hs; simpl in Hc.
    + by rewrite lookup_delete_eq in Hc.
    + congruence.
  - intros i. apply stop_intervals. by apply (reg_heartbeat cfg).
Qed.

Lemma heartbeat_never_leaks_witness :
  (forall i s, intervals scenario_pending !! i = Some s ->
     exists conn, tunnels scenario_pending !! s = Some conn
                  /\ conn_heartbeat conn = i /\ conn_subdomain conn = s)
  /\ (forall s i, intervals (removeTunnel s scenario_pending) !! i = Some s -> False)
  /\ (forall i, intervals (stop scenario_pending) !! i = None).
Proof.
  apply (heartbeat_never_leaks scenario_cfg scenario_events scenario_pending).
  vm_compute. reflexivity.
Defined.

(** X2. In every reachable state a registered connection is stored
    under its own label, the listeners of its socket close over that
    label, and no socket is registered under two labels. *)
Theorem channel_owns_one_label cfg evs st :
  run cfg init evs = Some st ->
  forall s conn, tunnels st !! s = Some conn ->
    conn_subdomain conn = s
    /\ channels st !! conn_ws conn = Some s
    /\ forall s' conn', tunnels st !! s' = Some conn' ->
                        conn_ws conn' = conn_ws conn -> s' = s.
Proof.
  intros Hrun s conn Hs.
  assert (HR : Registry cfg st) by (eapply Registry_run; [apply Registry_init | done]).
  split; [by eapply reg_key|]. split; [by eapply reg_channel|].
  intros s' conn' Hs' Hw.
  pose proof (reg_channel cfg st HR _ _ Hs) as H1.
  pose proof (reg_channel cfg st HR _ _ Hs') as H2. congruence.
Qed.

Lemma channel_owns_one_label_witness :
  let conn := mkConn 0 "myapp" 1 true in
  conn_subdomain conn = "myapp"
  /\ channels scenario_pending !! conn_ws conn = Some "myapp"
  /\ forall s' conn', tunnels scenario_pending !! s' = Some conn' ->
                      conn_ws conn' = conn_ws conn -> s' = "myapp".
Proof.
  assert (Hrun : run scenario_cfg init scenario_events = Some scenario_pending)
    by (vm_compute; reflexivity).
  apply (channel_owns_one_label scenario_cfg scenario_events scenario_pending Hrun
           "myapp" (mkConn 0 "myapp" 1 true)); vm_compute; reflexivity.
Defined.

(** X4. In every reachable state the timer of a pending request is
    armed and carries the correlation id of that request; when it fires,
    the entry leaves the table and the caller is answered 504 with the
    JSON body [Tunnel request timed out], as the only reply. *)
Theorem pending_timer_armed cfg evs st :
  run cfg init evs = Some st ->
  forall id pending, pendingRequests st !! id = Some pending ->
    timeouts st !! pend_timeout pending = Some id
    /\ let st' := on_timeout (pend_timeout pending) st in
       pendingRequests st' !! id = None
       /\ response_of st' (pend_res pending)
          = mkServerResponse true
              [mkReply 504 json_headers
                 (BodyJson [("error", JStr "Tunnel request timed out")])].
Proof.
  intros Hrun id p Hp.
  assert (HI : Inv st) by (eapply Inv_run; [apply Inv_init | done]).
  assert (HT : Timers st) by (eapply Timers_run; [apply Timers_init | done]).
  pose proof (tim_armed st HT id p Hp) as Ht. split; [done|]. cbv zeta.
  rewrite (on_timeout_hit _ _ _ _ HI Ht Hp). split.
  - simpl. apply lookup_delete_eq.
  - match goal with |- response_of (with_pending ?f (respond ?r ?x ?s)) _ = _ =>
      change (response_of (respond r x s) (pend_res p)
              = mkServerResponse true [x]) end.
    rewrite response_of_respond, decide_True by done.
    rewrite (response_of_None (with_timeouts _ st)); [done|].
    simpl. by eapply inv_pending.
Qed.

Lemma pending_timer_armed_witness :
  let pending := mkPending 2 3 in
  timeouts scenario_pending !! pend_timeout pending = Some "uuid-1"
  /\ let st' := on_timeout (pend_timeout pending) scenario_pending in
     pendingRequests st' !! "uuid-1" = None
     /\ response_of st' (pend_res pending)
        = mkServerResponse true
            [mkReply 504 json_headers
               (BodyJson [("error", JStr "Tunnel request timed out")])].
Proof.
  assert (Hrun : run scenario_cfg init scenario_events = Some scenario_pending)
    by (vm_compute; reflexivity).
  apply (pending_timer_armed scenario_cfg scenario_events scenario_pending Hrun
           "uuid-1" (mkPending 2 3)); vm_compute; reflexivity.
Defined.

(** X5. A tunnel whose agent sends no [pong] is cut at the second
    heartbeat at the latest: after two firings of its interval with
    nothing in between, its socket is terminated and the interval is
    cleared.  The entry stays in the registry until the ['close'] event
    of the socket arrives, and neither the pending requests nor the
    responses are touched. *)
Theorem heartbeat_two_misses st s conn :
  tunnels st !! s = Some conn ->
  intervals st !! conn_heartbeat conn = Some s ->
  let i := conn_heartbeat conn in
  let st2 := on_heartbeat i (on_heartbeat i st) in
  readyState (socket_of st2 (conn_ws conn)) = CLOSED
  /\ intervals st2 !! i = None
  /\ is_Some (tunnels st2 !! s)
  /\ pendingRequests st2 = pendingRequests st
  /\ responses st2 = responses st.
Proof.
  intros Hs Hi. cbv zeta. destruct (conn_alive conn) eqn:Ha.
  - rewrite (on_heartbeat_alive st s conn Hs Hi Ha).
    set (conn' := mkConn _ _ _ false).
    set (st1 := send _ _ _).
    assert (Hs1 : tunnels st1 !! s = Some conn') by (simpl; apply lookup_insert_eq).
    change (on_heartbeat (conn_heartbeat conn) st1)
      with (on_heartbeat (conn_heartbeat conn') st1).
    rewrite (on_heartbeat_dead st1 s conn' Hs1 Hi eq_refl).
    unfold socket_of at 1. simpl. rewrite !lookup_insert_eq. simpl.
    rewrite lookup_delete_eq. by repeat split.
  - rewrite (on_heartbeat_dead st s conn Hs Hi Ha).
    set (st1 := with_sockets _ _).
    assert (on_heartbeat (conn_heartbeat conn) st1 = st1) as ->.
    { unfold on_heartbeat. simpl. by rewrite lookup_delete_eq. }
    unfold socket_of at 1. simpl. rewrite lookup_insert_eq, lookup_delete_eq. simpl.
    by repeat split.
Qed.

Lemma heartbeat_two_misses_witness :
  let st2 := on_heartbeat 1 (on_heartbeat 1 scenario_pending) in
  readyState (socket_of st2 0) = CLOSED
  /\ intervals st2 !! 1 = None
  /\ is_Some (tunnels st2 !! "myapp")
  /\ pendingRequests st2 = pendingRequests scenario_pending
  /\ responses st2 = responses scenario_pending.
Proof.
  apply (heartbeat_two_misses scenario_pending "myapp" (mkConn 0 "myapp" 1 true));
    vm_compute; reflexivity.
Defined.

(** X6. A tunnel whose agent answers every [ping] with a [pong] is
    never cut: after any number of heartbeat periods the registry, the
    timers and the state of its socket are as before, and an open socket
    was sent one [ping] per period and nothing else. *)
Theorem responsive_agent_stays st s conn n :
  tunnels st !! s = Some conn ->
  intervals st !! conn_heartbeat conn = Some s ->
  channels st !! conn_ws conn = Some s ->
  conn_alive conn = true ->
  let w := conn_ws conn in
  let stn := Nat.iter n (heartbeat_round (conn_heartbeat conn) w) st in
  tunnels stn = tunnels st
  /\ intervals stn = intervals st
  /\ channels stn = channels st
  /\ readyState (socket_of stn w) = readyState (socket_of st w)
  /\ (is_open (socket_of st w) = true ->
      outbox (socket_of stn w) = outbox (socket_of st w) ++ replicate n Ping).
Proof.
  intros Hs Hi Hc Ha. cbv zeta. induction n as [|n IH]; simpl.
  - repeat split; try done. intros _. by rewrite app_nil_r.
  - destruct IH as (Ht & HI & HC & Hr & Ho).
    rewrite (heartbeat_round_alive _ s conn); try (by rewrite ?Ht, ?HI, ?HC).
    rewrite socket_of_send, readyState_ws_send.
    repeat split; try done. intros Hopen.
    unfold ws_send.
    assert (is_open (socket_of (Nat.iter n (heartbeat_round (conn_heartbeat conn)
                                              (conn_ws conn)) st) (conn_ws conn)) = true) as ->.
    { unfold is_open in *. by rewrite Hr. }
    cbn [outbox]. rewrite Ho by done. rewrite <- app_assoc. f_equal.
    symmetry. apply replicate_S_end.
Qed.

Lemma responsive_agent_stays_witness :
  let stn := Nat.iter 3 (heartbeat_round 1 0) scenario_pending in
  tunnels stn = tunnels scenario_pending
  /\ intervals stn = intervals scenario_pending
  /\ channels stn = channels scenario_pending
  /\ readyState (socket_of stn 0) = readyState (socket_of scenario_pending 0)
  /\ (is_open (socket_of scenario_pending 0) = true ->
      outbox (socket_of stn 0)
      = outbox (socket_of scenario_pending 0) ++ replicate 3 Ping).
Proof.
  apply (responsive_agent_stays scenario_pending "myapp" (mkConn 0 "myapp" 1 true) 3);
    vm_compute; reflexivity.
Defined.

(** X7. The ['close'] listener of a socket removes the tunnel by the
    label it closes over, not by the connection: when that label is by
    now held by another socket, the late ['close'] event of the old
    socket unregisters the new holder, clears its heartbeat and closes
    its socket. *)
Theorem stale_close_removes_holder st w s conn :
  channels st !! w = Some s ->
  tunnels st !! s = Some conn ->
  conn_ws conn <> w ->
  let st' := on_ws_close w st in
  tunnels st' !! s = None
  /\ intervals st' !! conn_heartbeat conn = None
  /\ is_open (socket_of st' (conn_ws conn)) = false.
Proof.
  intros Hc Hs Hw. cbv zeta. unfold on_ws_close. rewrite Hc.
  split; [apply removeTunnel_gone|].
  unfold removeTunnel. simpl. rewrite Hs. simpl. split; [apply lookup_delete_eq|].
  unfold socket_of at 1. simpl. rewrite lookup_insert_eq. simpl.
  apply is_open_ws_close_if_open.
Qed.

Lemma stale_close_removes_holder_witness :
  let st' := on_ws_close 0 scenario_takeover in
  tunnels st' !! "myapp" = None
  /\ intervals st' !! 3 = None
  /\ is_open (socket_of st' 2) = false.
Proof.
  apply (stale_close_removes_holder scenario_takeover 0 "myapp" (mkConn 2 "myapp" 3 true));
    [vm_compute; reflexivity | vm_compute; reflexivity | simpl; lia].
Defined.

(** X8. Once the ['close'] event of an agent's socket was handled, its
    label is free, and a public request for that label is answered 404
    with the JSON body naming the label. *)
Theorem request_after_close_404 cfg req res st w s :
  channels st !! w = Some s ->
  hostname_of req = s +:+ "." +:+ domain cfg ->
  s <> EmptyString -> s <> "tunnel" ->
  let st1 := on_ws_close w st in
  tunnels st1 !! s = None
  /\ response_of (handleHttpRequest cfg req res st1) res
     = mkServerResponse true (replies (response_of st res) ++ [not_found s]).
Proof.
  intros Hc Hh Hne Hnt. cbv zeta.
  assert (Hgone : tunnels (on_ws_close w st) !! s = None).
  { unfold on_ws_close. rewrite Hc. apply removeTunnel_gone. }
  split; [done|].
  rewrite (handleHttpRequest_label cfg req res _ s Hh Hne Hnt), Hgone.
  rewrite response_of_respond, decide_True by done.
  rewrite (response_of_frame (on_ws_close w st) st); [done|].
  unfold on_ws_close. rewrite Hc. by rewrite removeTunnel_responses.
Qed.

Lemma request_after_close_404_witness :
  let st1 := on_ws_close 0 scenario_pending in
  tunnels st1 !! "myapp" = None
  /\ response_of (handleHttpRequest scenario_cfg scenario_request 4 st1) 4
     = mkServerResponse true
         (replies (response_of scenario_pending 4) ++ [not_found "myapp"]).
Proof.
  apply (request_after_close_404 scenario_cfg scenario_request 4 scenario_pending 0 "myapp");
    [vm_compute; reflexivity | vm_compute; reflexivity | discriminate | discriminate].
Defined.

(** X9. A request for a label whose registered socket is not open is
    answered 502 [Tunnel client disconnected] and reaps the tunnel: the
    entry and its heartbeat timer are gone, and the next request for the
    label is answered 404. *)
Theorem closed_tunnel_502_then_404 cfg req res res' st s conn :
  tunnels st !! s = Some conn ->
  is_open (socket_of st (conn_ws conn)) = false ->
  hostname_of req = s +:+ "." +:+ domain cfg ->
  s <> EmptyString -> s <> "tunnel" ->
  let st1 := handleHttpRequest cfg req res st in
  response_of st1 res = mkServerResponse true (replies (response_of st res) ++ [bad_gateway])
  /\ tunnels st1 !! s = None
  /\ intervals st1 !! conn_heartbeat conn = None
  /\ response_of (handleHttpRequest cfg req res' st1) res'
     = mkServerResponse true (replies (response_of st1 res') ++ [not_found s]).
Proof.
  intros Hs Ho Hh Hne Hnt. cbv zeta.
  rewrite (handleHttpRequest_label cfg req res st s Hh Hne Hnt), Hs, Ho.
  split; [|split; [apply removeTunnel_gone|split]].
  - rewrite (response_of_frame _ _ _ (removeTunnel_responses _ _)).
    by rewrite response_of_respond, decide_True.
  - unfold removeTunnel. simpl. rewrite Hs. simpl. apply lookup_delete_eq.
  - rewrite (handleHttpRequest_label cfg req res' _ s Hh Hne Hnt), removeTunnel_gone.
    by rewrite response_of_respond, decide_True.
Qed.

Lemma closed_tunnel_502_then_404_witness :
  let st1 := handleHttpRequest scenario_cfg scenario_request 2 scenario_silent in
  response_of st1 2
  = mkServerResponse true (replies (response_of scenario_silent 2) ++ [bad_gateway])
  /\ tunnels st1 !! "myapp" = None
  /\ intervals st1 !! 1 = None
  /\ response_of (handleHttpRequest scenario_cfg scenario_request 3 st1) 3
     = mkServerResponse true (replies (response_of st1 3) ++ [not_found "myapp"]).
Proof.
  apply (closed_tunnel_502_then_404 scenario_cfg scenario_request 2 3 scenario_silent
           "myapp" (mkConn 0 "myapp" 1 false));
    [vm_compute; reflexivity | vm_compute; reflexivity | vm_compute; reflexivity
    | discriminate | discriminate].
Defined.

(** X10. The ['close'] event of an agent's socket does not settle the
    requests in flight: the pending table, the timers and the responses
    are untouched.  A request that was pending is still answered 504
    when its timer fires; and it is still answered by a
    [tunnel-response] frame that carries its id, on whatever channel
    the frame arrives, when [res.writeHead] accepts the status and the
    headers of the frame and none of them is named [trailer]. *)
Theorem pending_survives_disconnect cfg evs st w id pending :
  run cfg init evs = Some st ->
  pendingRequests st !! id = Some pending ->
  let st1 := on_ws_close w st in
  pendingRequests st1 = pendingRequests st
  /\ timeouts st1 = timeouts st
  /\ responses st1 = responses st
  /\ response_of (on_timeout (pend_timeout pending) st1) (pend_res pending)
     = mkServerResponse true
         [mkReply 504 json_headers (BodyJson [("error", JStr "Tunnel request timed out")])]
  /\ forall w' sub response,
       channels st1 !! w' = Some sub ->
       rs_id response = id ->
       let headers := delete "transfer-encoding" (rs_headers response) in
       writeHead_accepts (rs_status response) headers = true ->
       no_trailer headers = true ->
       response_of (on_message w' (Some (TunnelResponseMsg response)) st1) (pend_res pending)
       = mkServerResponse true
           [mkReply (Z.to_N (to_int32 (rs_status response))) headers
              (frame_body (rs_body response))].
Proof.
  intros Hrun Hp. cbv zeta.
  assert (HI : Inv st) by (eapply Inv_run; [apply Inv_init | done]).
  assert (HT : Timers st) by (eapply Timers_run; [apply Timers_init | done]).
  assert (Hsame : pendingRequests (on_ws_close w st) = pendingRequests st
                  /\ timeouts (on_ws_close w st) = timeouts st
                  /\ responses (on_ws_close w st) = responses st).
  { unfold on_ws_close. destruct (channels st !! w); [|done].
    unfold removeTunnel. simpl. by destruct (tunnels st !! s). }
  destruct Hsame as (HP & HTm & HRs). split; [done|]. split; [done|]. split; [done|].
  apply (Inv_on_ws_close w) in HI.
  assert (Ht : timeouts (on_ws_close w st) !! pend_timeout pending = Some id).
  { rewrite HTm. by eapply tim_armed. }
  assert (Hp' : pendingRequests (on_ws_close w st) !! id = Some pending) by by rewrite HP.
  split.
  - rewrite (on_timeout_hit _ _ _ _ HI Ht Hp').
    match goal with |- response_of (with_pending ?f (respond ?r ?x ?s)) _ = _ =>
      change (response_of (respond r x s) (pend_res pending) = mkServerResponse true [x]) end.
    rewrite response_of_respond, decide_True by done.
    rewrite (response_of_None (with_timeouts _ _)); [done|].
    simpl. by eapply inv_pending.
  - intros w' sub response Hch Hid Hok _. unfold on_message. rewrite Hch.
    rewrite <- Hid in Hp'.
    rewrite (handleTunnelResponse_hit _ pending _ HI Hp' Hok).
    rewrite response_of_respond, decide_True by done.
    rewrite (response_of_None (with_pending _ _)); [done|].
    simpl. by eapply inv_pending.
Qed.

Lemma pending_survives_disconnect_witness :
  let pending := mkPending 2 3 in
  let st1 := on_ws_close 0 scenario_pending in
  pendingRequests st1 = pendingRequests scenario_pending
  /\ timeouts st1 = timeouts scenario_pending
  /\ responses st1 = responses scenario_pending
  /\ response_of (on_timeout (pend_timeout pending) st1) (pend_res pending)
     = mkServerResponse true
         [mkReply 504 json_headers (BodyJson [("error", JStr "Tunnel request timed out")])]
  /\ forall w' sub response,
       channels st1 !! w' = Some sub ->
       rs_id response = "uuid-1" ->
       let headers := delete "transfer-encoding" (rs_headers response) in
       writeHead_accepts (rs_status response) headers = true ->
       no_trailer headers = true ->
       response_of (on_message w' (Some (TunnelResponseMsg response)) st1) (pend_res pending)
       = mkServerResponse true
           [mkReply (Z.to_N (to_int32 (rs_status response))) headers
              (frame_body (rs_body response))].
Proof.
  apply (pending_survives_disconnect scenario_cfg scenario_events scenario_pending 0
           "uuid-1" (mkPending 2 3)); vm_compute; reflexivity.
Defined.

(** X11. [stop] from any reachable state empties the registry and the
    pending table; every request that was pending is answered 503
    [Server shutting down] as its only reply and its timer is cleared;
    the socket of every tunnel is no longer open and its heartbeat is
    cleared; a response already written is left as it was. *)
Theorem stop_drains cfg evs st :
  run cfg init evs = Some st ->
  let st' := stop st in
  tunnels st' = ∅
  /\ pendingRequests st' = ∅
  /\ (forall id pending, pendingRequests st !! id = Some pending ->
        response_of st' (pend_res pending) = mkServerResponse true [shutting_down]
        /\ timeouts st' !! pend_timeout pending = None)
  /\ (forall s conn, tunnels st !! s = Some conn ->
        is_open (socket_of st' (conn_ws conn)) = false
        /\ intervals st' !! conn_heartbeat conn = None)
  /\ (forall r w, responses st !! r = Some w -> responses st' !! r = Some w).
Proof.
  intros Hrun. cbv zeta.
  assert (HI : Inv st) by (eapply Inv_run; [apply Inv_init | done]).
  assert (HR : Registry cfg st) by (eapply Registry_run; [apply Registry_init | done]).
  destruct (stop_tunnel_frame (map_to_list (tunnels st)) st) as (Hr & _ & Hp & _).
  pose proof (fun i => stop_intervals st i (reg_heartbeat cfg st HR)) as Hint.
  revert Hint. unfold stop. cbv zeta. intros Hint.
  set (st1 := with_tunnels _ (foldl stop_tunnel st _)) in *.
  assert (Hr1 : responses st1 = responses st) by done.
  assert (Hp1 : pendingRequests st1 = pendingRequests st) by done.
  rewrite Hp1 in *.
  destruct (stop_pending_registry (map_to_list (pendingRequests st)) st1)
    as (Ht & _ & _ & _ & _).
  split; [by simpl; rewrite Ht|]. split; [done|]. split; [|split].
  - intros id p Hid.
    assert (Hin : Exists (fun e : string * PendingRequest => e.2 = p)
                    (map_to_list (pendingRequests st))).
    { apply Exists_exists. exists (id, p). split; [by apply elem_of_map_to_list | done]. }
    split.
    + rewrite (response_of_frame _ (foldl stop_pending st1 (map_to_list (pendingRequests st))))
        by done.
      apply stop_pending_fold_drains.
      * rewrite Hr1. by eapply inv_pending.
      * eapply Exists_impl; [exact Hin|]. by intros ? ->.
    + simpl. apply stop_pending_fold_timeouts. right.
      eapply Exists_impl; [exact Hin|]. by intros ? ->.
  - intros s conn Hs. split.
    + unfold socket_of. simpl. rewrite stop_pending_fold_sockets. simpl.
      change (is_open (socket_of (foldl stop_tunnel st (map_to_list (tunnels st)))
                         (conn_ws conn)) = false).
      apply stop_tunnel_fold_sockets. right. apply Exists_exists.
      exists (s, conn). split; [by apply elem_of_map_to_list | done].
    + apply Hint.
  - intros r w Hw. simpl.
    destruct (inv_written st HI r w Hw) as [x ->].
    apply stop_pending_fold_kept; [by rewrite Hr1 | done].
Qed.

Lemma stop_drains_witness :
  let st' := stop scenario_pending in
  tunnels st' = ∅
  /\ pendingRequests st' = ∅
  /\ (forall id pending, pendingRequests scenario_pending !! id = Some pending ->
        response_of st' (pend_res pending) = mkServerResponse true [shutting_down]
        /\ timeouts st' !! pend_timeout pending = None)
  /\ (forall s conn, tunnels scenario_pending !! s = Some conn ->
        is_open (socket_of st' (conn_ws conn)) = false
        /\ intervals st' !! conn_heartbeat conn = None)
  /\ (forall r w, responses scenario_pending !! r = Some w -> responses st' !! r = Some w).
Proof.
  apply (stop_drains scenario_cfg scenario_events scenario_pending). vm_compute. reflexivity.
Defined.

(** X12. The upgrade listener hands a request to
    [handleWebSocketConnection] only on the path [/tunnel], with an
    accepted key and with room in the registry; the handshake then binds
    one label that was free, so that the registry grows by exactly one,
    sends on the new socket the single frame [tunnel-assigned] with that
    label and the URL [https://<label>.<domain>], starts the heartbeat of
    the label, and leaves the pending requests and the responses
    alone. *)
Theorem accepted_handshake cfg fuel tape pathname req st st' :
  on_upgrade cfg fuel tape pathname req st = Some (Upgraded, st') ->
  let w := next_handle st in
  pathname = "/tunnel"
  /\ Auth.validateApiKey (header req "x-api-key") (apiKeys cfg) = true
  /\ (N.of_nat (size (tunnels st)) < maxTunnels cfg)%N
  /\ exists subdomain,
       tunnels st !! subdomain = None
       /\ tunnels st' = <[ subdomain := mkConn w subdomain (S w) true ]> (tunnels st)
       /\ size (tunnels st') = S (size (tunnels st))
       /\ socket_of st' w
          = mkWebSocket OPEN
              [TunnelAssigned subdomain ("https://" +:+ subdomain +:+ "." +:+ domain cfg)]
       /\ intervals st' = <[ S w := subdomain ]> (intervals st)
       /\ channels st' = <[ w := subdomain ]> (channels st)
       /\ pendingRequests st' = pendingRequests st
       /\ responses st' = responses st.
Proof.
  unfold on_upgrade.
  destruct (admission cfg pathname req st) eqn:Ha; [done|].
  apply admission_Upgraded in Ha as (Hp & Hk & Hcap).
  destruct (handleWebSocketConnection _ _ _ _ _) as [s1|] eqn:Hh; [|done].
  intros [= <-]. cbv zeta. split; [done|]. split; [done|]. split; [done|].
  revert Hh. unfold handleWebSocketConnection, alloc, send. cbn beta iota zeta.
  destruct (resolveSubdomain _ _ _ _) as [sub|] eqn:Hsub; [|done].
  apply resolveSubdomain_free in Hsub. simpl in Hsub. intros [= <-].
  exists sub. split; [done|]. simpl. split; [done|].
  split; [by apply map_size_insert_None|]. split; [|done].
  unfold socket_of. simpl. rewrite lookup_insert_eq. simpl.
  rewrite lookup_insert_eq. done.
Qed.

Lemma accepted_handshake_witness :
  "/tunnel" = "/tunnel"
  /\ Auth.validateApiKey (header scenario_handshake "x-api-key") (apiKeys scenario_cfg) = true
  /\ (N.of_nat (size (tunnels init)) < maxTunnels scenario_cfg)%N
  /\ exists subdomain,
       tunnels init !! subdomain = None
       /\ tunnels scenario_attached = <[ subdomain := mkConn 0 subdomain 1 true ]> (tunnels init)
       /\ size (tunnels scenario_attached) = S (size (tunnels init))
       /\ socket_of scenario_attached 0
          = mkWebSocket OPEN
              [TunnelAssigned subdomain
                 ("https://" +:+ subdomain +:+ "." +:+ domain scenario_cfg)]
       /\ intervals scenario_attached = <[ 1 := subdomain ]> (intervals init)
       /\ channels scenario_attached = <[ 0 := subdomain ]> (channels init)
       /\ pendingRequests scenario_attached = pendingRequests init
       /\ responses scenario_attached = responses init.
Proof.
  apply (accepted_handshake scenario_cfg 1 scenario_tape "/tunnel" scenario_handshake
           init scenario_attached).
  vm_compute. reflexivity.
Defined.

(** X13. Every label of the registry of a reachable state passes
    [isValidSubdomain].  When the base domain holds no colon, the host
    of the URL the relay announced for the label, with or without a
    port, is dispatched by [extractSubdomain] to that very label; and an
    agent that asks for the label again, once it is free, is given it
    again. *)
Theorem registered_label_is_routable cfg evs st s conn port :
  run cfg init evs = Some st ->
  tunnels st !! s = Some conn ->
  Js.split_head ":" (domain cfg) = domain cfg ->
  Subdomain.isValidSubdomain s = true
  /\ extractSubdomain cfg (s +:+ "." +:+ domain cfg) = Some s
  /\ extractSubdomain cfg (s +:+ "." +:+ domain cfg +:+ ":" +:+ port) = Some s
  /\ forall fuel tape st',
       tunnels st' !! s = None -> resolveSubdomain fuel tape (Some s) st' = Some s.
Proof.
  intros Hrun Hs Hd.
  assert (Hv : Subdomain.isValidSubdomain s = true).
  { eapply Labels_run; [apply Labels_init | exact Hrun | by eexists]. }
  split; [done|].
  destruct (host_of_label cfg s port Hv Hd) as [H1 H2].
  repeat split; try done.
  intros fuel tape st' Hfree. apply HandshakeFacts.resolve_accepted; try done.
  by apply SubdomainFacts.isValidSubdomain_iff.
Qed.

Lemma registered_label_is_routable_witness :
  Subdomain.isValidSubdomain "myapp" = true
  /\ extractSubdomain scenario_cfg ("myapp" +:+ "." +:+ domain scenario_cfg) = Some "myapp"
  /\ extractSubdomain scenario_cfg
       ("myapp" +:+ "." +:+ domain scenario_cfg +:+ ":" +:+ "8080") = Some "myapp"
  /\ forall fuel tape st',
       tunnels st' !! "myapp" = None ->
       resolveSubdomain fuel tape (Some "myapp") st' = Some "myapp".
Proof.
  apply (registered_label_is_routable scenario_cfg scenario_events scenario_pending
           "myapp" (mkConn 0 "myapp" 1 true) "8080"); vm_compute; reflexivity.
Defined.

(** ** The entry script: the keys of [API_KEYS] *)

Module EntryFacts.
Import Entry Aux.

Lemma split_cons sep s : exists part parts, split sep s = part :: parts.
Proof.
  induction s as [|c s (part & parts & IH)]; simpl; [by eauto|].
  destruct (Ascii.eqb c sep); [by eauto|]. rewrite IH. by eauto.
Qed.







End EntryFacts.


(** ** The agent: reconnection and close *)

Module AgentFacts.
Import Http.

Lemma reconnect_open c :
  Agent.closed c = false -> Agent.reconnectAttempts c < Agent.MAX_RECONNECT_ATTEMPTS ->
  Agent.reconnect c
  = (Agent.mkClient (Agent.ws c) (S (Agent.reconnectAttempts c)) (Agent.heartbeatInterval c)
       false (Agent.url c) (Agent.subdomain c) (Agent.sockets c) (Agent.intervals c)
       (Agent.emitted c),
     Some (Agent.RECONNECT_BASE_DELAY * 2 ^ N.of_nat (Agent.reconnectAttempts c))%N).
Proof.
  intros Hc Ha. unfold Agent.reconnect. rewrite Hc.
  rewrite (proj2 (Nat.leb_gt _ _) Ha). cbn [orb].
  by rewrite Nat.sub_succ, Nat.sub_0_r.
Qed.

Lemma reconnect_exhausted c :
  Agent.MAX_RECONNECT_ATTEMPTS <= Agent.reconnectAttempts c ->
  Agent.reconnect c = (Agent.emit Agent.EmitClose c, None).
Proof.
  intros Ha. unfold Agent.reconnect. rewrite (proj2 (Nat.leb_le _ _) Ha).
  by rewrite orb_true_r.
Qed.

Lemma reconnect_closed c :
  Agent.closed c = true -> (Agent.reconnect c).2 = None /\
  Agent.sockets (Agent.reconnect c).1 = Agent.sockets c
  /\ Agent.ws (Agent.reconnect c).1 = Agent.ws c
  /\ Agent.closed (Agent.reconnect c).1 = true.
Proof.
  intros Hc. unfold Agent.reconnect. rewrite Hc. cbn [orb]. by case_match.
Qed.

(** The delays of the attempts [a + 1], ..., [MAX_RECONNECT_ATTEMPTS]. *)
Lemma retry_from fuel o : forall w c,
  Agent.closed c = false ->
  Agent.MAX_RECONNECT_ATTEMPTS - Agent.reconnectAttempts c <= fuel ->
  Agent.reconnectAttempts c <= Agent.MAX_RECONNECT_ATTEMPTS ->
  exists c',
    Agent.retry fuel o w (Agent.reconnect c)
    = (map (fun k => (Agent.RECONNECT_BASE_DELAY * 2 ^ N.of_nat k)%N)
         (seq (Agent.reconnectAttempts c)
            (Agent.MAX_RECONNECT_ATTEMPTS - Agent.reconnectAttempts c)),
       c')
    /\ Agent.reconnectAttempts c' = Agent.MAX_RECONNECT_ATTEMPTS
    /\ Agent.emitted c' = Agent.emitted c ++ [Agent.EmitClose]
    /\ Agent.closed c' = false
    /\ Agent.url c' = Agent.url c /\ Agent.subdomain c' = Agent.subdomain c.
Proof.
  pose proof (eq_refl : Agent.MAX_RECONNECT_ATTEMPTS = 5) as HM.
  induction fuel as [|fuel IH]; intros w c Hc Hfuel Hle.
  - assert (Ha : Agent.MAX_RECONNECT_ATTEMPTS <= Agent.reconnectAttempts c) by lia.
    assert (Hn : Agent.reconnectAttempts c = Agent.MAX_RECONNECT_ATTEMPTS) by lia.
    rewrite (reconnect_exhausted c Ha), Hn, Nat.sub_diag.
    eexists. split; [reflexivity|]. by repeat split.
  - destruct (decide (Agent.MAX_RECONNECT_ATTEMPTS <= Agent.reconnectAttempts c)) as [Ha|Ha].
    + assert (Hn : Agent.reconnectAttempts c = Agent.MAX_RECONNECT_ATTEMPTS) by lia.
      rewrite (reconnect_exhausted c Ha), Hn, Nat.sub_diag.
      eexists. split; [done|]. by repeat split.
    + rewrite (reconnect_open c Hc) by lia.
      cbn [Agent.retry]. unfold Agent.on_reconnect_timer. cbn [Agent.closed].
      unfold Agent.on_reconnect_error, Agent.new_socket. cbn -[Agent.reconnect Agent.retry].
      match goal with |- context [Agent.retry fuel o (S w) (Agent.reconnect ?x)] =>
        destruct (IH (S w) x) as (c' & Heq & Hn & He & Hcl & Hu & Hs);
          [done | simpl; lia | simpl; lia |]; rewrite Heq end.
      exists c'. cbn [Agent.reconnectAttempts Agent.emitted Agent.url Agent.subdomain] in *.
      repeat split; try done.
      replace (5 - Agent.reconnectAttempts c)
        with (S (Agent.MAX_RECONNECT_ATTEMPTS - S (Agent.reconnectAttempts c))) by lia.
      done.
Qed.

(** An agent that was closed: [closed] is set and [ws] is null. *)
Lemma inert_step o utf8 c ev :
  Agent.closed c = true -> Agent.ws c = None ->
  Agent.closed (Agent.step o utf8 c ev).1 = true
  /\ Agent.ws (Agent.step o utf8 c ev).1 = None
  /\ (Agent.step o utf8 c ev).2 = []
  /\ dom (Agent.sockets (Agent.step o utf8 c ev).1) = dom (Agent.sockets c)
  /\ forall w, outbox (Agent.socket_of (Agent.step o utf8 c ev).1 w)
               = outbox (Agent.socket_of c w).
Proof.
  intros Hc Hw. destruct ev as [m a|a|m|w|w|request proxyRes|request message]; simpl.
  - unfold Agent.on_message, Agent.setupHeartbeat, Agent.send, Agent.emit.
    destruct m as [[| | | | |]|]; simpl; rewrite ?Hw; simpl; try by rewrite ?Hc, ?Hw.
    destruct (Agent.heartbeatInterval c); simpl; by rewrite ?Hc, ?Hw.
  - unfold Agent.on_close, Agent.reconnect.
    destruct (Agent.heartbeatInterval c); simpl; rewrite Hc; simpl; by rewrite ?Hc, ?Hw.
  - by rewrite Hc, Hw.
  - unfold Agent.on_reconnect_timer. rewrite Hc. simpl. by rewrite ?Hc, ?Hw.
  - unfold Agent.on_reconnect_error, Agent.reconnect. simpl. rewrite Hc. simpl.
    assert (Hout : forall w', outbox (default (mkWebSocket CLOSED [])
                       (alter (fun s => mkWebSocket CLOSED (outbox s)) w (Agent.sockets c) !! w'))
                     = outbox (Agent.socket_of c w')).
    { intros w'. unfold Agent.socket_of. rewrite lookup_alter. case_decide; [|done].
      subst. by destruct (Agent.sockets c !! w'). }
    case_match; simpl; rewrite ?Hc, ?Hw, dom_alter_L; by repeat split.
  - unfold Agent.handleTunnelRequest, Agent.sendResponse. rewrite Hw. simpl.
    by rewrite Hc, Hw.
  - unfold Agent.handleTunnelRequest_catch, Agent.sendResponse. rewrite Hw. simpl.
    by rewrite Hc, Hw.
Qed.

Lemma inert_run o utf8 evs : forall c,
  Agent.closed c = true -> Agent.ws c = None ->
  Agent.closed (Agent.run o utf8 c evs).1 = true
  /\ Agent.ws (Agent.run o utf8 c evs).1 = None
  /\ (Agent.run o utf8 c evs).2 = []
  /\ dom (Agent.sockets (Agent.run o utf8 c evs).1) = dom (Agent.sockets c)
  /\ forall w, outbox (Agent.socket_of (Agent.run o utf8 c evs).1 w)
               = outbox (Agent.socket_of c w).
Proof.
  induction evs as [|ev evs IH]; intros c Hc Hw; simpl; [done|].
  destruct (inert_step o utf8 c ev Hc Hw) as (Hc1 & Hw1 & Hd1 & Hdom1 & Hout1).
  destruct (Agent.step o utf8 c ev) as [c1 d1]. simpl in *.
  destruct (IH c1 Hc1 Hw1) as (Hc2 & Hw2 & Hd2 & Hdom2 & Hout2).
  destruct (Agent.run o utf8 c1 evs) as [c2 d2]. simpl in *. subst.
  repeat split; try done; try congruence.
Qed.

End AgentFacts.

(** X15. When the attempts to reconnect fail one after the other, an
    agent that is not closed waits 1000 * 2^k milliseconds before its
    attempt number k + 1, up to the attempt [MAX_RECONNECT_ATTEMPTS];
    from a fresh assignment these are 1, 2, 4, 8 and 16 seconds.  It
    then emits [close] once and starts no further timer, its URL and
    label unchanged; any later call of [reconnect] only emits [close]
    again. *)
Theorem backoff_schedule o w c fuel :
  Agent.closed c = false ->
  Agent.reconnectAttempts c <= Agent.MAX_RECONNECT_ATTEMPTS ->
  Agent.MAX_RECONNECT_ATTEMPTS - Agent.reconnectAttempts c <= fuel ->
  exists c',
    Agent.retry fuel o w (Agent.reconnect c)
    = (map (fun k => (1000 * 2 ^ N.of_nat k)%N)
         (seq (Agent.reconnectAttempts c)
            (Agent.MAX_RECONNECT_ATTEMPTS - Agent.reconnectAttempts c)),
       c')
    /\ (Agent.reconnectAttempts c = 0 ->
        (Agent.retry fuel o w (Agent.reconnect c)).1 = [1000; 2000; 4000; 8000; 16000]%N)
    /\ Agent.reconnectAttempts c' = Agent.MAX_RECONNECT_ATTEMPTS
    /\ Agent.emitted c' = Agent.emitted c ++ [Agent.EmitClose]
    /\ Agent.url c' = Agent.url c /\ Agent.subdomain c' = Agent.subdomain c
    /\ Agent.reconnect c' = (Agent.emit Agent.EmitClose c', None).
Proof.
  intros Hc Ha Hfuel.
  destruct (AgentFacts.retry_from fuel o w c Hc) as (c' & Heq & Hn & He & _ & Hu & Hs);
    [done..|].
  exists c'. rewrite Heq. repeat split; try done.
  - by intros ->.
  - apply AgentFacts.reconnect_exhausted. by rewrite Hn.
Qed.

Lemma backoff_schedule_witness :
  exists c',
    Agent.retry 5 Aux.scenario_options 1 (Agent.reconnect Aux.scenario_client)
    = (map (fun k => (1000 * 2 ^ N.of_nat k)%N)
         (seq (Agent.reconnectAttempts Aux.scenario_client)
            (Agent.MAX_RECONNECT_ATTEMPTS - Agent.reconnectAttempts Aux.scenario_client)),
       c')
    /\ (Agent.reconnectAttempts Aux.scenario_client = 0 ->
        (Agent.retry 5 Aux.scenario_options 1 (Agent.reconnect Aux.scenario_client)).1
        = [1000; 2000; 4000; 8000; 16000]%N)
    /\ Agent.reconnectAttempts c' = Agent.MAX_RECONNECT_ATTEMPTS
    /\ Agent.emitted c' = Agent.emitted Aux.scenario_client ++ [Agent.EmitClose]
    /\ Agent.url c' = Agent.url Aux.scenario_client
    /\ Agent.subdomain c' = Agent.subdomain Aux.scenario_client
    /\ Agent.reconnect c' = (Agent.emit Agent.EmitClose c', None).
Proof.
  apply (backoff_schedule Aux.scenario_options 1 Aux.scenario_client 5);
    [reflexivity | vm_compute; lia | vm_compute; lia].
Defined.

(** X16. After [close()], whatever happens next (frames, close and
    error events of sockets, a reconnect timer that fires, an attempt
    that fails, answers or failures of the local origin), the agent
    stays closed with no current socket, starts no timer, opens no
    socket and sends no frame. *)
Theorem closed_agent_is_inert o utf8 c0 evs :
  let c := Agent.close c0 in
  let after := Agent.run o utf8 c evs in
  Agent.closed after.1 = true
  /\ Agent.ws after.1 = None
  /\ after.2 = []
  /\ dom (Agent.sockets after.1) = dom (Agent.sockets c)
  /\ forall w, Http.outbox (Agent.socket_of after.1 w) = Http.outbox (Agent.socket_of c w).
Proof.
  cbv zeta. by apply AgentFacts.inert_run.
Qed.


(** X18. When the local origin cannot be reached, an agent whose
    channel is open sends one [tunnel-response] frame and emits one
    [request] event with the status 502; the relay, on that frame,
    answers the pending request with 502, the content type
    [application/json] and, as the body, exactly the bytes of the JSON
    object [{error, details}] the agent serialised. *)
Theorem local_failure_is_502 cfg evs st utf8 request message c w wr sub pending :
  Relay.run cfg Relay.init evs = Some st ->
  Relay.pendingRequests st !! Http.rq_id request = Some pending ->
  Relay.channels st !! wr = Some sub ->
  Agent.ws c = Some w ->
  Http.is_open (Agent.socket_of c w) = true ->
  let payload := utf8 [("error", Http.JStr "Failed to reach local server");
                       ("details", Http.JStr message)] in
  payload <> [] ->
  let frame := Agent.errorResponse utf8 request message in
  let c' := Agent.handleTunnelRequest_catch utf8 request message c in
  Http.outbox (Agent.socket_of c' w)
  = Http.outbox (Agent.socket_of c w) ++ [Http.TunnelResponseMsg frame]
  /\ Agent.emitted c'
     = Agent.emitted c
       ++ [Agent.EmitRequest (Http.rq_method request) (Http.rq_path request) 502]
  /\ Relay.response_of
       (Relay.on_message wr (Some (Http.TunnelResponseMsg frame)) st)
       (Relay.pend_res pending)
     = Http.mkServerResponse true
         [Http.mkReply 502 {[ "content-type" := "application/json" ]}
            (Http.BodyBuffer payload)].
Proof.
  intros Hrun Hp Hch Hw Hopen payload Hne. cbv zeta.
  assert (HI : Aux.Inv st) by (eapply MachineFacts.Inv_run; [apply MachineFacts.Inv_init | done]).
  split; [|split].
  - unfold Agent.handleTunnelRequest_catch, Agent.emit, Agent.socket_of at 1. simpl.
    by apply RoundTripFacts.sendResponse_open.
  - unfold Agent.handleTunnelRequest_catch, Agent.emit. simpl.
    unfold Agent.sendResponse. rewrite Hw, Hopen. done.
  - unfold Relay.on_message. rewrite Hch.
    rewrite (DispatchResponseFacts.handleTunnelResponse_hit _ pending _ HI) by done.
    rewrite DispatchResponseFacts.response_of_respond, decide_True by done.
    assert (Relay.response_of
              (Relay.with_pending
                 (delete (Http.rs_id (Agent.errorResponse utf8 request message)))
                 (Relay.clearTimeout (Relay.pend_timeout pending) st))
              (Relay.pend_res pending) = Http.fresh_response) as ->.
    { apply MachineFacts.response_of_None. simpl. by eapply Aux.inv_pending. }
    assert (Hbody : Aux.frame_body (Some (Base64.encode payload)) = Http.BodyBuffer payload).
    { unfold Aux.frame_body, Js.truthy_opt.
      rewrite Base64Facts.encode_nonempty by done.
      cbn -[Base64.encode Base64.decode Http.end_base64].
      apply RoundTripFacts.end_base64_encode. }
    cbn -[Aux.frame_body Base64.encode]. fold payload. by rewrite Hbody.
Qed.

Lemma local_failure_is_502_witness :
  let request := Aux.scenario_frame in
  let message := "connect ECONNREFUSED 127.0.0.1:3000" in
  let payload := Aux.scenario_utf8 [("error", Http.JStr "Failed to reach local server");
                                    ("details", Http.JStr message)] in
  let frame := Agent.errorResponse Aux.scenario_utf8 request message in
  let c' := Agent.handleTunnelRequest_catch Aux.scenario_utf8 request message
              Aux.scenario_client in
  Http.outbox (Agent.socket_of c' 0)
  = Http.outbox (Agent.socket_of Aux.scenario_client 0) ++ [Http.TunnelResponseMsg frame]
  /\ Agent.emitted c'
     = Agent.emitted Aux.scenario_client
       ++ [Agent.EmitRequest (Http.rq_method request) (Http.rq_path request) 502]
  /\ Relay.response_of
       (Relay.on_message 0 (Some (Http.TunnelResponseMsg frame)) Aux.scenario_pending)
       (Relay.pend_res (Relay.mkPending 2 3))
     = Http.mkServerResponse true
         [Http.mkReply 502 {[ "content-type" := "application/json" ]}
            (Http.BodyBuffer payload)].
Proof.
  apply (local_failure_is_502 Aux.scenario_cfg Aux.scenario_events Aux.scenario_pending
           Aux.scenario_utf8 Aux.scenario_frame "connect ECONNREFUSED 127.0.0.1:3000"
           Aux.scenario_client 0 0 "myapp" (Relay.mkPending 2 3));
    try (vm_compute; reflexivity).
  discriminate.
Defined.

(** X19. An agent built with no API key, neither in its options nor
    in [EXPOSE_TUNNEL_API_KEY], presents the empty key; the relay
    rejects its handshake with 401, whatever keys it is configured
    with, and leaves its state as it was. *)
Theorem keyless_agent_rejected options env o w c cfg fuel tape req st :
  Agent.constructor options env = Some o ->
  Js.truthy_opt (Agent.opt_apiKey options) = false ->
  Js.truthy_opt (Agent.EXPOSE_TUNNEL_API_KEY env) = false ->
  Relay.header req "x-api-key" = (Agent.connect o w c).2 !! "x-api-key" ->
  Agent.apiKey o = EmptyString
  /\ Relay.header req "x-api-key" = Some EmptyString
  /\ Relay.on_upgrade cfg fuel tape "/tunnel" req st
     = Some (Relay.Rejected (Some (Relay.mkRaw 401 "Unauthorized" [] None)), st).
Proof.
  intros Ho Hk He Hh.
  assert (Hkey : Agent.apiKey o = EmptyString).
  { unfold Agent.constructor in Ho. case_match; [done|]. injection Ho as <-. simpl.
    unfold Agent.or_undefined. rewrite Hk. unfold Js.or_else.
    destruct (Agent.EXPOSE_TUNNEL_API_KEY env) as [k|]; [|done]. simpl in He. by rewrite He. }
  assert (Hsent : Relay.header req "x-api-key" = Some EmptyString).
  { rewrite Hh. unfold Agent.connect, Agent.handshake_headers. simpl. rewrite Hkey.
    case_match; [rewrite lookup_insert_ne by done|]; apply lookup_singleton_eq. }
  repeat split; try done.
  unfold Relay.on_upgrade, Relay.admission. simpl. by rewrite Hsent.
Qed.

Lemma keyless_agent_rejected_witness :
  Agent.apiKey
    (Agent.mkOptions 3000 "localhost" "" "ws://localhost:4040" "" "localhost") = EmptyString
  /\ Relay.header Aux.scenario_keyless_handshake "x-api-key" = Some EmptyString
  /\ Relay.on_upgrade Aux.scenario_cfg 1 Aux.scenario_tape "/tunnel"
       Aux.scenario_keyless_handshake Relay.init
     = Some (Relay.Rejected (Some (Relay.mkRaw 401 "Unauthorized" [] None)), Relay.init).
Proof.
  apply (keyless_agent_rejected Aux.scenario_keyless Aux.scenario_env
           (Agent.mkOptions 3000 "localhost" "" "ws://localhost:4040" "" "localhost")
           0 Aux.scenario_client Aux.scenario_cfg 1 Aux.scenario_tape
           Aux.scenario_keyless_handshake Relay.init);
    vm_compute; reflexivity.
Defined.

(** ** The agent and the relay: a reconnection *)

Module ReconnectFacts.
Import Http Relay Aux.

Lemma handshake_headers_key key label :
  Agent.handshake_headers key label !! "x-api-key" = Some key.
Proof.
  unfold Agent.handshake_headers.
  case_match; [rewrite lookup_insert_ne by done|]; apply lookup_singleton_eq.
Qed.

Lemma handshake_headers_label key label :
  label <> EmptyString ->
  Agent.handshake_headers key label !! "x-subdomain" = Some label.
Proof.
  intros Hne. unfold Agent.handshake_headers.
  destruct label; [done|]. simpl. apply lookup_insert_eq.
Qed.

(** A handshake with an accepted key that asks for a free label of
    valid syntax, below the cap. *)
Lemma on_upgrade_accepted cfg fuel tape req st s :
  Auth.validateApiKey (header req "x-api-key") (apiKeys cfg) = true ->
  (N.of_nat (size (tunnels st)) < maxTunnels cfg)%N ->
  header req "x-subdomain" = Some s ->
  Subdomain.isValidSubdomain s = true ->
  tunnels st !! s = None ->
  exists st',
    on_upgrade cfg fuel tape "/tunnel" req st = Some (Upgraded, st')
    /\ tunnels st'
       = <[ s := mkConn (next_handle st) s (S (next_handle st)) true ]> (tunnels st)
    /\ socket_of st' (next_handle st)
       = mkWebSocket OPEN [TunnelAssigned s ("https://" +:+ s +:+ "." +:+ domain cfg)].
Proof.
  intros Hkey Hcap Hreq Hvalid Hfree.
  unfold on_upgrade, admission. simpl. rewrite Hkey. simpl.
  rewrite (proj2 (N.leb_gt _ _) Hcap).
  unfold handleWebSocketConnection, alloc, send. cbn beta iota zeta.
  rewrite Hreq.
  match goal with |- context [resolveSubdomain fuel tape (Some s) ?x] =>
    rewrite (HandshakeFacts.resolve_accepted fuel tape (Some s) x s eq_refl);
      [|by apply SubdomainFacts.isValidSubdomain_iff | done] end.
  eexists. split; [done|]. simpl. split; [done|].
  unfold socket_of. simpl. rewrite lookup_insert_eq. simpl.
  by rewrite lookup_insert_eq.
Qed.

End ReconnectFacts.

(** X20. An agent whose tunnel is registered loses its connection.
    Once the relay has handled the ['close'] event of the socket, the
    label is free; the ['close'] listener of the agent starts the timer
    of its next attempt, and the handshake of that attempt presents the
    key of the agent and asks for the label it held.  When the key is
    accepted, the relay binds that same label to the new socket and
    announces the same URL, and the agent, on that frame, holds the
    label and the URL again, its attempts counted from zero. *)
Theorem reconnect_recovers_label cfg evs st0 conn o c w fuel tape req :
  Relay.run cfg Relay.init evs = Some st0 ->
  Relay.tunnels st0 !! Agent.subdomain c = Some conn ->
  Agent.closed c = false ->
  Agent.reconnectAttempts c < Agent.MAX_RECONNECT_ATTEMPTS ->
  Auth.validateApiKey (Some (Agent.apiKey o)) (Relay.apiKeys cfg) = true ->
  let label := Agent.subdomain c in
  let address := "https://" +:+ label +:+ "." +:+ Relay.domain cfg in
  let st := Relay.on_ws_close (Relay.conn_ws conn) st0 in
  let lost := Agent.on_close true c in
  let fired := Agent.on_reconnect_timer o w lost.1 in
  Relay.tunnels st !! label = None
  /\ lost.2 = Some (1000 * 2 ^ N.of_nat (Agent.reconnectAttempts c))%N
  /\ fired.2 = Some (Agent.handshake_headers (Agent.apiKey o) label)
  /\ (Relay.header req "x-api-key"
        = Agent.handshake_headers (Agent.apiKey o) label !! "x-api-key" ->
      Relay.header req "x-subdomain"
        = Agent.handshake_headers (Agent.apiKey o) label !! "x-subdomain" ->
      exists st',
        Relay.on_upgrade cfg fuel tape "/tunnel" req st = Some (Relay.Upgraded, st')
        /\ Relay.tunnels st' !! label
           = Some (Relay.mkConn (Relay.next_handle st) label (S (Relay.next_handle st)) true)
        /\ Relay.socket_of st' (Relay.next_handle st)
           = Http.mkWebSocket Http.OPEN [Http.TunnelAssigned label address]
        /\ let back :=
             (Agent.on_message (Some (Http.TunnelAssigned label address)) false fired.1).1 in
           back.2 = true
           /\ Agent.subdomain back.1 = label
           /\ Agent.url back.1 = address
           /\ Agent.reconnectAttempts back.1 = 0
           /\ Agent.ws back.1 = Some w).
Proof.
  intros Hrun Hs Hc Ha Hkey. cbv zeta.
  assert (HR : Aux.Registry cfg st0)
    by (eapply RegistryFacts.Registry_run; [apply RegistryFacts.Registry_init | done]).
  assert (Hvalid : Subdomain.isValidSubdomain (Agent.subdomain c) = true).
  { eapply LabelFacts.Labels_run; [apply LabelFacts.Labels_init | exact Hrun | by eexists]. }
  assert (Hne : Agent.subdomain c <> EmptyString).
  { intros Heq. rewrite Heq in Hvalid. by vm_compute in Hvalid. }
  set (st1 := Relay.with_sockets
                (insert (Relay.conn_ws conn)
                   (Http.mkWebSocket Http.CLOSED
                      (Http.outbox (Relay.socket_of st0 (Relay.conn_ws conn))))) st0).
  assert (Hst : Relay.on_ws_close (Relay.conn_ws conn) st0
                = Relay.removeTunnel (Agent.subdomain c) st1).
  { unfold Relay.on_ws_close. by rewrite (Aux.reg_channel _ _ HR _ _ Hs). }
  assert (Hs1' : Relay.tunnels st1 !! Agent.subdomain c = Some conn) by done.
  assert (Hfree : Relay.tunnels (Relay.on_ws_close (Relay.conn_ws conn) st0)
                    !! Agent.subdomain c = None).
  { rewrite Hst. apply LifecycleFacts.removeTunnel_gone. }
  assert (Hcap : (N.of_nat (size (Relay.tunnels (Relay.on_ws_close (Relay.conn_ws conn) st0)))
                  < Relay.maxTunnels cfg)%N).
  { pose proof (Aux.reg_cap _ _ HR) as Hcap. rewrite Hst. unfold Relay.removeTunnel.
    rewrite Hs1'. cbn [Relay.tunnels Relay.with_tunnels Relay.with_sockets Relay.clearInterval].
    rewrite map_size_delete_Some by (by exists conn).
    change (Relay.tunnels (Relay.clearInterval (Relay.conn_heartbeat conn) st1))
      with (Relay.tunnels st0).
    assert (size (Relay.tunnels st0) <> 0).
    { intros H0%map_size_empty_inv. by rewrite H0, lookup_empty in Hs. }
    lia. }
  assert (Hlost : Agent.on_close true c
                  = ((Agent.reconnect (Agent.on_close false c).1))).
  { unfold Agent.on_close. rewrite andb_false_r, andb_true_r.
    destruct (Agent.heartbeatInterval c); simpl; by rewrite Hc. }
  assert (Hidle : Agent.closed (Agent.on_close false c).1 = false
                  /\ Agent.reconnectAttempts (Agent.on_close false c).1
                     = Agent.reconnectAttempts c
                  /\ Agent.subdomain (Agent.on_close false c).1 = Agent.subdomain c).
  { unfold Agent.on_close. rewrite andb_false_r.
    by destruct (Agent.heartbeatInterval c). }
  destruct Hidle as (Hc1 & Ha1 & Hs1).
  rewrite Hlost, (AgentFacts.reconnect_open _ Hc1) by (by rewrite Ha1).
  cbn [fst snd]. unfold Agent.on_reconnect_timer. cbn [Agent.closed Agent.subdomain fst snd].
  rewrite Ha1, Hs1.
  split; [done|]. split; [done|]. split; [done|].
  intros Hk Hl.
  rewrite ReconnectFacts.handshake_headers_key in Hk.
  rewrite ReconnectFacts.handshake_headers_label in Hl by done.
  destruct (ReconnectFacts.on_upgrade_accepted cfg fuel tape req
              (Relay.on_ws_close (Relay.conn_ws conn) st0) (Agent.subdomain c))
    as (st' & Hup & Ht & Hsock); try done.
  { by rewrite Hk. }
  exists st'. split; [done|]. split; [by rewrite Ht, lookup_insert_eq|].
  split; [done|].
  unfold Agent.on_message, Agent.setupHeartbeat, Agent.new_socket. simpl.
  by case_match.
Qed.

Lemma reconnect_recovers_label_witness :
  let label := "myapp" in
  let address := "https://myapp.tunnel.test.local" in
  let st := Relay.on_ws_close 0 Aux.scenario_pending in
  let lost := Agent.on_close true Aux.scenario_client in
  let fired := Agent.on_reconnect_timer Aux.scenario_options 1 lost.1 in
  Relay.tunnels st !! label = None
  /\ lost.2 = Some 1000%N
  /\ fired.2 = Some (Agent.handshake_headers "sk_test_key_123" label)
  /\ (Relay.header Aux.scenario_handshake "x-api-key"
        = Agent.handshake_headers "sk_test_key_123" label !! "x-api-key" ->
      Relay.header Aux.scenario_handshake "x-subdomain"
        = Agent.handshake_headers "sk_test_key_123" label !! "x-subdomain" ->
      exists st',
        Relay.on_upgrade Aux.scenario_cfg 1 Aux.scenario_tape "/tunnel"
          Aux.scenario_handshake st = Some (Relay.Upgraded, st')
        /\ Relay.tunnels st' !! label
           = Some (Relay.mkConn (Relay.next_handle st) label (S (Relay.next_handle st)) true)
        /\ Relay.socket_of st' (Relay.next_handle st)
           = Http.mkWebSocket Http.OPEN [Http.TunnelAssigned label address]
        /\ let back :=
             (Agent.on_message (Some (Http.TunnelAssigned label address)) false fired.1).1 in
           back.2 = true
           /\ Agent.subdomain back.1 = label
           /\ Agent.url back.1 = address
           /\ Agent.reconnectAttempts back.1 = 0
           /\ Agent.ws back.1 = Some 1).
Proof.
  apply (reconnect_recovers_label Aux.scenario_cfg Aux.scenario_events Aux.scenario_pending
           (Relay.mkConn 0 "myapp" 1 true) Aux.scenario_options Aux.scenario_client 1 1
           Aux.scenario_tape Aux.scenario_handshake);
    [vm_compute; reflexivity | vm_compute; reflexivity | reflexivity
    | vm_compute; lia | vm_compute; reflexivity].
Defined.

(** ** The command line: the port *)

Module CliFacts.
Import Cli Aux.

Lemma digits_cons c k s acc :
  digit c = Some k -> digits (String c s) acc = digits s (Some (10 * default 0 acc + k))%N.
Proof. intros H. simpl. by rewrite H. Qed.

Lemma digits_acc d rest : forall acc,
  digits (NilEmpty.string_of_uint d +:+ rest) (Some (N.pos acc))
  = digits rest (Some (N.pos (Pos.of_uint_acc d acc))).
Proof.
  induction d; intros acc; cbn [NilEmpty.string_of_uint Pos.of_uint_acc]; [done|..];
    rewrite <- IHd;
    match goal with |- digits (String ?c ?x +:+ rest) _ = _ =>
      change (String c x +:+ rest) with (String c (x +:+ rest)) end;
    erewrite digits_cons by reflexivity; cbn [default]; do 2 f_equal;
    match goal with |- context [N_of_ascii ?c] =>
      let v := eval vm_compute in (N_of_ascii c) in change (N_of_ascii c) with v end;
    unfold id; lia.
Qed.

Lemma digits_stop rest acc : starts_with_digit rest = false -> digits rest acc = acc.
Proof.
  destruct rest as [|c rest]; [done|]. simpl. intros H%bool_decide_eq_false.
  destruct (digit c); [|done]. destruct H. by eexists.
Qed.

Lemma digits_zero d rest :
  starts_with_digit rest = false ->
  digits (NilEmpty.string_of_uint d +:+ rest) (Some 0%N) = Some (Pos.of_uint d).
Proof.
  intros Hrest.
  induction d; cbn [NilEmpty.string_of_uint Pos.of_uint];
    [by apply digits_stop | exact IHd | ..];
    (etransitivity; [apply (digits_acc d rest) | by rewrite digits_stop]).
Qed.

Lemma digits_number n rest :
  starts_with_digit rest = false ->
  digits (Agent.number_text n +:+ rest) None = Some n.
Proof.
  intros Hrest. rewrite <- (DecimalN.Unsigned.of_to n) at 2.
  unfold Agent.number_text, N.of_uint. rewrite <- (digits_zero _ rest Hrest).
  unfold NilZero.string_of_uint. by destruct (N.to_uint n).
Qed.

Lemma trim_start_white ws s : all_white ws -> trim_start (ws +:+ s) = trim_start s.
Proof.
  unfold all_white. induction ws as [|c ws IH]; simpl; [done|].
  intros H. inversion H as [|? ? Hc Hws]; subst. rewrite Hc. by apply IH.
Qed.

(** The text of a number begins with a digit. *)
Lemma number_text_head n rest :
  exists c s, Agent.number_text n +:+ rest = String c s /\ is_Some (digit c).
Proof.
  unfold Agent.number_text, NilZero.string_of_uint.
  destruct (N.to_uint n); simpl; eexists _, _; (split; [done|]); by eexists.
Qed.

Lemma parseInt_number ws n rest :
  all_white ws -> starts_with_digit rest = false ->
  parseInt (ws +:+ Agent.number_text n +:+ rest) = Int (Z.of_N n).
Proof.
  intros Hws Hrest. unfold parseInt. rewrite trim_start_white by done.
  pose proof (digits_number n rest Hrest) as Hd.
  destruct (number_text_head n rest) as (c & s & Heq & [d Hc]).
  rewrite Heq in *. cbn [trim_start].
  assert (is_white c = false) as ->.
  { unfold digit in Hc. cbv zeta in Hc.
    destruct ((48 <=? N_of_ascii c) && (N_of_ascii c <=? 57))%N eqn:Hr; [|done].
    apply andb_true_iff in Hr as [H1%N.leb_le H2%N.leb_le].
    unfold is_white. cbv zeta.
    rewrite (proj2 (N.leb_gt (N_of_ascii c) 13)) by lia.
    rewrite (proj2 (N.eqb_neq (N_of_ascii c) 32)) by lia.
    rewrite (proj2 (N.eqb_neq (N_of_ascii c) 160)) by lia.
    by rewrite andb_false_r. }
  assert (Ascii.eqb c "-" = false /\ Ascii.eqb c "+" = false) as [-> ->].
  { split; apply Ascii.eqb_neq; intros ->; by vm_compute in Hc. }
  rewrite Hd. f_equal. lia.
Qed.

End CliFacts.

(** X21. When the action of the command goes on to expose a tunnel,
    the constructor of the agent does not throw, the relay URL and the
    API key are not empty, so that the handshake never presents an
    empty key, and the port is the integer [parseInt] read, between 1
    and 65535. *)
Theorem cli_guards opts env options :
  Cli.action opts env = Cli.Expose options ->
  exists o,
    Agent.constructor options env = Some o
    /\ Agent.apiKey o <> EmptyString
    /\ Agent.server o <> EmptyString
    /\ (1 <= Agent.port o <= 65535)%N
    /\ Cli.parseInt (Cli.port opts) = Cli.Int (Z.of_N (Agent.port o))
    /\ Agent.options_subdomain o = Js.or_else (Cli.subdomain opts) ""
    /\ forall w c, (Agent.connect o w c).2 !! "x-api-key" = Some (Agent.apiKey o).
Proof.
  unfold Cli.action.
  set (server' := Agent.or_undefined (Cli.server opts) (Agent.EXPOSE_TUNNEL_SERVER env)).
  set (apiKey' := Agent.or_undefined (Cli.apiKey opts) (Agent.EXPOSE_TUNNEL_API_KEY env)).
  destruct (Js.truthy_opt server') eqn:Hserver; [|done].
  destruct (Js.truthy_opt apiKey') eqn:Hkey; [|done]. cbn [negb].
  destruct (Cli.parseInt (Cli.port opts)) as [|p] eqn:Hport; [done|].
  destruct ((p <? 1)%Z || (65535 <? p)%Z) eqn:Hrange; [done|].
  apply orb_false_iff in Hrange as [H1%Z.ltb_ge H2%Z.ltb_ge].
  intros [= <-]. unfold Agent.constructor. cbn [Agent.opt_server Agent.opt_port
    Agent.opt_host Agent.opt_subdomain Agent.opt_apiKey Agent.opt_localHost].
  assert (Hs : Agent.or_undefined server' (Agent.EXPOSE_TUNNEL_SERVER env) = server').
  { unfold Agent.or_undefined at 1. by rewrite Hserver. }
  assert (Hk : Agent.or_undefined apiKey' (Agent.EXPOSE_TUNNEL_API_KEY env) = apiKey').
  { unfold Agent.or_undefined at 1. by rewrite Hkey. }
  rewrite Hs, Hk, Hserver. cbn [negb].
  destruct server' as [[|c0 s0]|]; try done.
  destruct apiKey' as [[|c1 k1]|]; try done.
  eexists. split; [done|]. cbn.
  repeat split; try done; try lia.
  - f_equal. lia.
  - intros w c. apply ReconnectFacts.handshake_headers_key.
Qed.

Lemma cli_guards_witness :
  exists o,
    Agent.constructor
      (Agent.mkTunnelOptions 3000 None (Some "myapp") (Some "ws://localhost:4040")
         (Some "sk_test_key_123") (Some "localhost"))
      Aux.scenario_env = Some o
    /\ Agent.apiKey o <> EmptyString
    /\ Agent.server o <> EmptyString
    /\ (1 <= Agent.port o <= 65535)%N
    /\ Cli.parseInt (Cli.port Aux.scenario_opts) = Cli.Int (Z.of_N (Agent.port o))
    /\ Agent.options_subdomain o = Js.or_else (Cli.subdomain Aux.scenario_opts) ""
    /\ forall w c, (Agent.connect o w c).2 !! "x-api-key" = Some (Agent.apiKey o).
Proof.
  apply (cli_guards Aux.scenario_opts Aux.scenario_env). vm_compute. reflexivity.
Defined.

(** X22. [--port] is read leniently: white space before the number
    and anything that follows its digits are ignored.  For the decimal
    text of n, the command exposes the port n when n is between 1 and
    65535, and exits with the code 1 and the message on the port
    otherwise. *)
Theorem cli_port_reading opts env ws n rest :
  Aux.all_white ws ->
  Aux.starts_with_digit rest = false ->
  Cli.port opts = ws +:+ Agent.number_text n +:+ rest ->
  Js.truthy_opt (Agent.or_undefined (Cli.server opts) (Agent.EXPOSE_TUNNEL_SERVER env)) = true ->
  Js.truthy_opt (Agent.or_undefined (Cli.apiKey opts) (Agent.EXPOSE_TUNNEL_API_KEY env)) = true ->
  Cli.parseInt (Cli.port opts) = Cli.Int (Z.of_N n)
  /\ ((1 <= n <= 65535)%N ->
      exists options, Cli.action opts env = Cli.Expose options
                      /\ Agent.opt_port options = n)
  /\ (~ (1 <= n <= 65535)%N ->
      Cli.action opts env
      = Cli.Exit 1 "Invalid port number. Must be between 1 and 65535.").
Proof.
  intros Hws Hrest Hport Hserver Hkey.
  assert (Hp : Cli.parseInt (Cli.port opts) = Cli.Int (Z.of_N n)).
  { rewrite Hport. by apply CliFacts.parseInt_number. }
  split; [done|]. unfold Cli.action. rewrite Hserver, Hkey, Hp. cbn [negb]. split.
  - intros [H1 H2].
    rewrite (proj2 (Z.ltb_ge _ _)), (proj2 (Z.ltb_ge _ _)) by lia. cbn [orb].
    eexists. split; [done|]. cbn. lia.
  - intros Hout.
    destruct (Z.of_N n <? 1)%Z eqn:H1; [done|].
    destruct (65535 <? Z.of_N n)%Z eqn:H2; [done|].
    apply Z.ltb_ge in H1, H2. destruct Hout. lia.
Qed.

Lemma cli_port_reading_witness :
  Cli.parseInt (Cli.port Aux.scenario_opts) = Cli.Int (Z.of_N 3000)
  /\ ((1 <= 3000 <= 65535)%N ->
      exists options, Cli.action Aux.scenario_opts Aux.scenario_env = Cli.Expose options
                      /\ Agent.opt_port options = 3000%N)
  /\ (~ (1 <= 3000 <= 65535)%N ->
      Cli.action Aux.scenario_opts Aux.scenario_env
      = Cli.Exit 1 "Invalid port number. Must be between 1 and 65535.").
Proof.
  apply (cli_port_reading Aux.scenario_opts Aux.scenario_env " " 3000 "/tcp");
    try (vm_compute; reflexivity).
  repeat constructor.
Defined.

